(** * Secure channel client of the chat room (web/static/js/res.js)

    A shallow embedding of the browser client that establishes and rekeys
    the encrypted channel: the [RSA] wrapper, the [Eec] primitive layer
    (hashing, Base64, AES-GCM), the shared channel state [S] and the two
    protocols [Res.rs.work] (handshake) and [Res.api.work] (secure request).

    The file res.js carries the classes [Res] twice; the two copies differ
    in [Res.api.check] and in the value put in the failure triple.  Both are
    embedded, selected by a [Copy] argument.

    Language built-ins whose text is not part of the repository (WebCrypto,
    JSON, fetch) are the fields of the classes [Platform], [PublicKeys]
    and [Decoders] or of the per-call record [Env]; the text codecs
    (TextEncoder, TextDecoder, btoa, atob) are written out after the
    WHATWG Encoding and HTML standards. *)

From Stdlib Require Import ZArith NArith List String Ascii Bool Lia.
From Stdlib Require Import Strings.Byte.
Import ListNotations.

Set Implicit Arguments.
Set Warnings "-register-all".


(* ================================================================== *)
(** ** JavaScript values *)
(* ================================================================== *)

Module Js.

(** A JavaScript string is a sequence of 16-bit code units. *)
Definition jsstring := list N.

(** String literals of the source, all of them ASCII. *)
Definition lit (s : string) : jsstring :=
  map N_of_ascii (list_ascii_of_string s).

(** The values that reach the protocol code: primitives, the arrays and
    plain objects that [JSON.parse] and [Response.json] build, and Error
    objects ([JErr name message]).  Numbers are the integer ones.  An
    object lists its own properties in insertion order. *)
Inductive JsVal : Type :=
| JUndefined
| JNull
| JBool (b : bool)
| JNum (z : Z)
| JStr (s : jsstring)
| JArr (items : list JsVal)
| JObj (fields : list (jsstring * JsVal))
| JErr (name message : jsstring).

(** A thrown value.  The code only ever throws and catches Error objects,
    but [catch (e)] binds whatever was thrown. *)
Definition Exn := JsVal.

Definition Error (msg : jsstring) : Exn := JErr (lit "Error") msg.
Definition TypeError (msg : jsstring) : Exn := JErr (lit "TypeError") msg.
Definition SyntaxError (msg : jsstring) : Exn := JErr (lit "SyntaxError") msg.
Definition OperationError (msg : jsstring) : Exn :=
  JErr (lit "OperationError") msg.
Definition InvalidCharacterError (msg : jsstring) : Exn :=
  JErr (lit "InvalidCharacterError") msg.

(** Outcome of an expression that may throw. *)
Inductive Completion (A : Type) : Type :=
| Normal (a : A)
| Throw (e : Exn).
Arguments Normal {A} a.
Arguments Throw {A} e.

Definition str_eqb (a b : jsstring) : bool :=
  if list_eq_dec N.eq_dec a b then true else false.

(** ToBoolean, the test behind [!x] and [if (x)]. *)
Definition truthy (v : JsVal) : bool :=
  match v with
  | JUndefined | JNull => false
  | JBool b => b
  | JNum z => negb (z =? 0)%Z
  | JStr s => match s with [] => false | _ => true end
  | JArr _ | JObj _ | JErr _ _ => true
  end.

Fixpoint lookup (name : jsstring) (fields : list (jsstring * JsVal))
  : option JsVal :=
  match fields with
  | [] => None
  | (k, v) :: rest => if str_eqb k name then Some v else lookup name rest
  end.

(** [undefined] and [null], the values without properties. *)
Definition nullish (v : JsVal) : bool :=
  match v with
  | JUndefined | JNull => true
  | _ => false
  end.

(** Property read [v.name] for the names the protocol uses ([data],
    [key], [iv], [tag], [message], [code]), none of which lives on a
    built-in prototype other than Error's [message]. *)
Definition get (v : JsVal) (name : jsstring) : Completion JsVal :=
  match v with
  | JUndefined | JNull =>
      Throw (TypeError (lit "Cannot read properties of " ++ name))
  | JObj fields =>
      Normal (match lookup name fields with Some x => x | None => JUndefined end)
  | JErr n m =>
      Normal (if str_eqb name (lit "message") then JStr m
              else if str_eqb name (lit "name") then JStr n
              else JUndefined)
  | JBool _ | JNum _ | JStr _ | JArr _ => Normal JUndefined
  end.

(** Decimal numeral of an integer, as Number::toString prints integers
    of magnitude below 10^21. *)
Definition digits_of_pos (p : positive) : jsstring :=
  let fix go (fuel : nat) (n : N) (acc : jsstring) : jsstring :=
    match fuel with
    | O => acc
    | S fuel' =>
        let acc' := (48 + n mod 10)%N :: acc in
        if (n / 10 =? 0)%N then acc' else go fuel' (n / 10)%N acc'
    end in
  go (Pos.size_nat p) (Npos p) [].

Definition number_to_string (z : Z) : jsstring :=
  match z with
  | Z0 => lit "0"
  | Zpos p => digits_of_pos p
  | Zneg p => lit "-" ++ digits_of_pos p
  end.

Fixpoint join (sep : jsstring) (parts : list jsstring) : jsstring :=
  match parts with
  | [] => []
  | [p] => p
  | p :: rest => p ++ sep ++ join sep rest
  end.

Definition sequence {A} (l : list (Completion A)) : Completion (list A) :=
  fold_right
    (fun c acc =>
       match c, acc with
       | Throw e, _ => Throw e
       | Normal _, Throw e => Throw e
       | Normal a, Normal rest => Normal (a :: rest)
       end)
    (Normal []) l.

(** The ToString abstract operation.  A plain object prints through
    Object.prototype.toString unless it shadows [toString] with an own
    data property, which no JSON value can make callable: ToPrimitive
    then throws.  Array elements that are undefined or null print as the
    empty string. *)
Fixpoint ToString (v : JsVal) : Completion jsstring :=
  match v with
  | JUndefined => Normal (lit "undefined")
  | JNull => Normal (lit "null")
  | JBool true => Normal (lit "true")
  | JBool false => Normal (lit "false")
  | JNum z => Normal (number_to_string z)
  | JStr s => Normal s
  | JArr items =>
      match sequence
              (map (fun x => match x with
                             | JUndefined | JNull => Normal []
                             | _ => ToString x
                             end) items) with
      | Normal parts => Normal (join (lit ",") parts)
      | Throw e => Throw e
      end
  | JObj fields =>
      match lookup (lit "toString") fields with
      | Some _ => Throw (TypeError (lit "Cannot convert object to primitive value"))
      | None => Normal (lit "[object Object]")
      end
  | JErr n m =>
      Normal (match n, m with
              | _, [] => n
              | [], _ => m
              | _, _ => n ++ lit ": " ++ m
              end)
  end.

End Js.
Export Js.

(* ================================================================== *)
(** ** Text codecs of the platform *)
(* ================================================================== *)

Module Encoding.

(** Store of a number into a [Uint8Array] cell: the value modulo 256. *)
Definition byte_of_N (n : N) : byte :=
  match Byte.of_N (n mod 256) with
  | Some b => b
  | None => x00
  end.

Definition is_high (c : N) : bool := (0xD800 <=? c)%N && (c <=? 0xDBFF)%N.
Definition is_low (c : N) : bool := (0xDC00 <=? c)%N && (c <=? 0xDFFF)%N.

(** Conversion of a string to scalar values (USVString): a surrogate
    pair is one code point, an unpaired surrogate becomes U+FFFD. *)
Fixpoint scalar_values (s : jsstring) : list N :=
  match s with
  | [] => []
  | c :: rest =>
      if is_high c then
        match rest with
        | d :: rest' =>
            if is_low d
            then (0x10000 + (c - 0xD800) * 0x400 + (d - 0xDC00))%N
                   :: scalar_values rest'
            else 0xFFFD%N :: scalar_values rest
        | [] => [0xFFFD%N]
        end
      else if is_low c then 0xFFFD%N :: scalar_values rest
      else c :: scalar_values rest
  end.

Definition utf8_of_scalar (cp : N) : list N :=
  if (cp <? 0x80)%N then [cp]
  else if (cp <? 0x800)%N then
    [0xC0 + cp / 0x40; 0x80 + cp mod 0x40]%N
  else if (cp <? 0x10000)%N then
    [0xE0 + cp / 0x1000; 0x80 + (cp / 0x40) mod 0x40; 0x80 + cp mod 0x40]%N
  else
    [0xF0 + cp / 0x40000; 0x80 + (cp / 0x1000) mod 0x40;
     0x80 + (cp / 0x40) mod 0x40; 0x80 + cp mod 0x40]%N.

(** [new TextEncoder().encode(s)] on a string. *)
Definition encode_string (s : jsstring) : list byte :=
  map byte_of_N (flat_map utf8_of_scalar (scalar_values s)).

(** [new TextEncoder().encode(v)]: the parameter is optional with the
    empty string as default, so [undefined] encodes to no byte; any other
    value is first converted with ToString, which is where a value that is
    not a string may throw. *)
Definition TextEncoder_encode (v : JsVal) : Completion (list byte) :=
  match v with
  | JUndefined => Normal []
  | _ =>
      match ToString v with
      | Normal s => Normal (encode_string s)
      | Throw e => Throw e
      end
  end.

(** The UTF-8 decoder of the Encoding standard, in replacement mode.  A
    pending sequence is (code point so far, bytes still needed, lower
    boundary, upper boundary). *)
Inductive Lead : Type :=
| Emit (cp : N)
| Start (cp remaining lower upper : N)
| Bad.

Definition lead (b : N) : Lead :=
  if (b <=? 0x7F)%N then Emit b
  else if (0xC2 <=? b)%N && (b <=? 0xDF)%N then
    Start (b mod 0x20) 1 0x80 0xBF
  else if (0xE0 <=? b)%N && (b <=? 0xEF)%N then
    Start (b mod 0x10) 2
          (if (b =? 0xE0)%N then 0xA0%N else 0x80%N)
          (if (b =? 0xED)%N then 0x9F%N else 0xBF%N)
  else if (0xF0 <=? b)%N && (b <=? 0xF4)%N then
    Start (b mod 0x08) 3
          (if (b =? 0xF0)%N then 0x90%N else 0x80%N)
          (if (b =? 0xF4)%N then 0x8F%N else 0xBF%N)
  else Bad.

Definition Pending : Type := (N * N * N * N)%type.

Definition after_lead (b : N) (k : option Pending -> list N) : list N :=
  match lead b with
  | Emit c => c :: k None
  | Start c r lo hi => k (Some (c, r, lo, hi))
  | Bad => 0xFFFD%N :: k None
  end.

Fixpoint decode_scalars (bs : list N) (st : option Pending) : list N :=
  match bs with
  | [] => match st with None => [] | Some _ => [0xFFFD%N] end
  | b :: rest =>
      match st with
      | None => after_lead b (decode_scalars rest)
      | Some (c, r, lo, hi) =>
          if (lo <=? b)%N && (b <=? hi)%N then
            let c' := (c * 0x40 + b mod 0x40)%N in
            if (r =? 1)%N then c' :: decode_scalars rest None
            else decode_scalars rest (Some (c', r - 1, 0x80, 0xBF)%N)
          else
            (* the byte is put back and read again as a lead byte *)
            0xFFFD%N :: after_lead b (decode_scalars rest)
      end
  end.

Definition utf16_of_scalar (cp : N) : jsstring :=
  if (cp <? 0x10000)%N then [cp]
  else [0xD800 + (cp - 0x10000) / 0x400; 0xDC00 + (cp - 0x10000) mod 0x400]%N.

(** A decoder made by [new TextDecoder()] or [new TextDecoder('utf-8')]
    has [ignoreBOM] false: a leading U+FEFF is a byte order mark and is
    left out of the output. *)
Definition strip_bom (cps : list N) : list N :=
  match cps with
  | c :: rest => if (c =? 0xFEFF)%N then rest else cps
  | [] => []
  end.

(** [new TextDecoder('utf-8').decode(bytes)]. *)
Definition TextDecoder_decode (bs : list byte) : jsstring :=
  flat_map utf16_of_scalar (strip_bom (decode_scalars (map Byte.to_N bs) None)).

(** [String.fromCharCode(...bytes)]: one code unit per byte.  (The bound
    an engine puts on the number of arguments of one call, which the
    spread reaches on very large arrays, is not modelled.) *)
Definition fromCharCode (bs : list byte) : jsstring := map Byte.to_N bs.

(** [Uint8Array.from(s, c => c.charCodeAt(0))] on a string whose code
    units are below 256, as [atob] returns them. *)
Definition bytes_of_binary (s : jsstring) : list byte := map byte_of_N s.

(** [bytes.map(b => b.toString(16).padStart(2, '0')).join('')]. *)
Definition hex_digit (n : N) : N :=
  if (n <? 10)%N then (48 + n)%N else (87 + n)%N.

Definition hex_of_bytes (bs : list byte) : jsstring :=
  flat_map (fun b => let n := Byte.to_N b in
                     [hex_digit (n / 16); hex_digit (n mod 16)]) bs.

End Encoding.

Module Base64.

Definition alphabet : jsstring :=
  lit "ABCDEFGHIJKLMNOPQRSTUVWXYZabcdefghijklmnopqrstuvwxyz0123456789+/".

Definition char_of (v : N) : N := nth (N.to_nat v) alphabet 0%N.

Definition pad : N := 61.

Fixpoint encode (bs : list N) : jsstring :=
  match bs with
  | [] => []
  | [a] => [char_of (a / 4); char_of ((a mod 4) * 16); pad; pad]
  | [a; b] =>
      [char_of (a / 4); char_of ((a mod 4) * 16 + b / 16);
       char_of ((b mod 16) * 4); pad]
  | a :: b :: c :: rest =>
      char_of (a / 4) :: char_of ((a mod 4) * 16 + b / 16)
        :: char_of ((b mod 16) * 4 + c / 64) :: char_of (c mod 64)
        :: encode rest
  end%N.

(** [btoa(s)]: throws when a code unit of [s] is above 0xFF. *)
Definition btoa (s : jsstring) : Completion jsstring :=
  if forallb (fun c => c <=? 0xFF)%N s then Normal (encode s)
  else Throw (InvalidCharacterError (lit "The string to be encoded contains characters outside of the Latin1 range."))%N.

Definition is_ascii_whitespace (c : N) : bool :=
  ((c =? 9) || (c =? 10) || (c =? 12) || (c =? 13) || (c =? 32))%N.

Definition value_of (c : N) : option N :=
  if (65 <=? c)%N && (c <=? 90)%N then Some (c - 65)%N
  else if (97 <=? c)%N && (c <=? 122)%N then Some (c - 71)%N
  else if (48 <=? c)%N && (c <=? 57)%N then Some (c + 4)%N
  else if (c =? 43)%N then Some 62%N
  else if (c =? 47)%N then Some 63%N
  else None.

Fixpoint values_of (s : jsstring) : option (list N) :=
  match s with
  | [] => Some []
  | c :: rest =>
      match value_of c, values_of rest with
      | Some v, Some vs => Some (v :: vs)
      | _, _ => None
      end
  end.

(** Removal of one or two trailing [=]. *)
Fixpoint strip_end (s : jsstring) : jsstring :=
  match s with
  | [] => []
  | [p] => if (p =? pad)%N then [] else [p]
  | [q; p] =>
      if (p =? pad)%N then (if (q =? pad)%N then [] else [q]) else [q; p]
  | x :: rest => x :: strip_end rest
  end.

(** Data whose length is a multiple of four loses its padding. *)
Definition strip_padding (s : jsstring) : jsstring :=
  if (Nat.modulo (List.length s) 4 =? 0)%nat then strip_end s else s.

(** Bits to bytes: four sextets give three bytes; a tail of two sextets
    gives one byte and of three gives two, the spare bits dropped. *)
Fixpoint decode_values (vs : list N) : list N :=
  match vs with
  | a :: b :: c :: d :: rest =>
      (a * 4 + b / 16) :: ((b mod 16) * 16 + c / 4) :: ((c mod 4) * 64 + d)
        :: decode_values rest
  | [a; b; c] => [a * 4 + b / 16; (b mod 16) * 16 + c / 4]
  | [a; b] => [a * 4 + b / 16]
  | _ => []
  end%N.

(** [atob(s)], the forgiving-base64 decode of the HTML standard. *)
Definition atob (s : jsstring) : Completion jsstring :=
  let data := strip_padding (filter (fun c => negb (is_ascii_whitespace c)) s) in
  if (Nat.modulo (List.length data) 4 =? 1)%nat then
    Throw (InvalidCharacterError (lit "The string to be decoded is not correctly encoded."))
  else
    match values_of data with
    | Some vs => Normal (decode_values vs)
    | None =>
        Throw (InvalidCharacterError (lit "The string to be decoded is not correctly encoded."))
    end.

(** [atob(v)] on any value: the argument goes through ToString. *)
Definition atob_val (v : JsVal) : Completion jsstring :=
  match ToString v with
  | Normal s => atob s
  | Throw e => Throw e
  end.

End Base64.

(** Labels of encodings, as [new TextDecoder(label)] reads them: ASCII
    white space is removed at both ends and the comparison ignores ASCII
    case. *)
Module Label.

Definition ascii_lower (c : N) : N :=
  if (65 <=? c)%N && (c <=? 90)%N then (c + 32)%N else c.

Fixpoint trim_start (s : jsstring) : jsstring :=
  match s with
  | c :: rest => if Base64.is_ascii_whitespace c then trim_start rest else s
  | [] => []
  end.

Definition trim (s : jsstring) : jsstring :=
  rev (trim_start (rev (trim_start s))).

Definition normal_form (label : jsstring) : jsstring :=
  map ascii_lower (trim label).

(** The labels of UTF-8 in the Encoding standard. *)
Definition utf8_labels : list jsstring :=
  map lit ["unicode-1-1-utf-8"; "unicode11utf8"; "unicode20utf8"; "utf-8";
           "utf8"; "x-unicode20utf8"]%string.

Definition is_utf8 (label : jsstring) : bool :=
  existsb (str_eqb (normal_form label)) utf8_labels.

End Label.

(* ================================================================== *)
(** ** The platform, the channel state and the effects *)
(* ================================================================== *)

(** What the browser supplies and the repository does not define:
    [crypto.subtle] and [JSON].  A rejected promise or a thrown exception
    of the built-in is [None]. *)
Class Platform : Type := {
  (** CryptoKeyPair made by [generateKey] for RSA-OAEP. *)
  KeyPair : Type;
  (** CryptoKey made by [importKey('raw', bytes, 'AES-GCM', ...)]. *)
  AesKey : Type;
  (** [crypto.subtle.digest(algorithm, bytes)]. *)
  subtle_digest : jsstring -> list byte -> option (list byte);
  (** [crypto.subtle.exportKey("spki", pair.publicKey)]. *)
  subtle_exportKey : KeyPair -> option (list byte);
  (** [crypto.subtle.decrypt({name}, pair.privateKey, bytes)]. *)
  subtle_decrypt_rsa : KeyPair -> list byte -> option (list byte);
  (** [crypto.subtle.importKey('raw', bytes, 'AES-GCM', false, usages)]. *)
  subtle_importKey : list byte -> option AesKey;
  (** [crypto.subtle.encrypt({name: 'AES-GCM', iv}, key, bytes)]: the
      ciphertext followed by the 16-byte tag. *)
  subtle_encrypt : AesKey -> list byte -> list byte -> option (list byte);
  (** [crypto.subtle.decrypt({name: 'AES-GCM', iv}, key, bytes)]. *)
  subtle_decrypt : AesKey -> list byte -> list byte -> option (list byte);
  (** [JSON.parse(text)]; [None] is the SyntaxError. *)
  JSON_parse : jsstring -> option JsVal;
  (** [JSON.stringify(object)]; [None] is the TypeError on a value that
      cannot be serialised. *)
  JSON_stringify : JsVal -> option jsstring
}.

(** The public-key half of [crypto.subtle], which only [RSA.encrypt]
    uses.  RSA-OAEP pads with random bytes: [subtle_encrypt_rsa] takes
    them as its third argument. *)
Class PublicKeys {P : Platform} : Type := {
  (** CryptoKey of a public key. *)
  PublicKey : Type;
  (** [pair.publicKey]. *)
  publicKey : KeyPair -> PublicKey;
  (** [crypto.subtle.importKey('spki', der, {name, hash}, false, ['encrypt'])]. *)
  subtle_importKey_spki : jsstring -> jsstring -> list byte -> option PublicKey;
  (** [crypto.subtle.encrypt({name}, publicKey, data)]. *)
  subtle_encrypt_rsa : jsstring -> PublicKey -> list byte -> list byte
                       -> option (list byte)
}.

(** The decoders of the browser other than UTF-8, by label in normal
    form; [None] for a label that names no encoding the constructor
    accepts. *)
Class Decoders : Type := {
  other_decoder : jsstring -> option (list byte -> jsstring)
}.

Definition RangeError (msg : jsstring) : Exn := JErr (lit "RangeError") msg.

(** A parameter or a destructured property with a default: [undefined]
    takes the default. *)
Definition or_default (v d : JsVal) : JsVal :=
  match v with
  | JUndefined => d
  | _ => v
  end.

(** [new TextDecoder(label)], as the function that its [decode] is on a
    byte array; a label that names no encoding is a RangeError. *)
Definition TextDecoder_new {D : Decoders} (label : JsVal)
  : Completion (list byte -> jsstring) :=
  match label with
  | JUndefined => Normal Encoding.TextDecoder_decode
  | _ =>
      match ToString label with
      | Normal s =>
          if Label.is_utf8 s then Normal Encoding.TextDecoder_decode
          else
            match other_decoder (Label.normal_form s) with
            | Some decode => Normal decode
            | None =>
                Throw (RangeError (lit "The encoding label provided is invalid."))
            end
      | Throw e => Throw e
      end
  end.

Module Channel.
Section WithPlatform.
Context {P : Platform}.

(** An instance of [class RSA]: [this.name], [this.hash], [this.key]. *)
Record RSA : Type := mkRSA {
  name : jsstring;
  hash : jsstring;
  key : option KeyPair
}.

(** [class State]; the one instance is the global [S]. *)
Record State : Type := mkState {
  rsa : option RSA;
  aes_key : JsVal;
  pubPem : JsVal;
  session_user : JsVal
}.

(** [new State()]. *)
Definition State_new : State :=
  {| rsa := None; aes_key := JNull; pubPem := JNull; session_user := JNull |}.

Inductive Body : Type :=
| FormData (fields : list (jsstring * JsVal))
| Text (s : jsstring).

(** The arguments of a [fetch] call. *)
Record Request : Type := mkRequest {
  url : jsstring;
  method : jsstring;
  headers : list (jsstring * JsVal);
  credentials : option jsstring;
  body : Body
}.

(** What [await fetch(...)] gives: a rejection, or a response with its
    [ok] flag, its [status] and the outcome of [res.json()]. *)
Inductive FetchOutcome : Type :=
| NetworkError (e : Exn)
| Response (ok : bool) (status : Z) (json : Completion JsVal).

(** Calls that leave the page or enter the cryptographic provider. *)
Inductive Event : Type :=
| EvFetch (r : Request)
| EvGenerateKey
| EvExportKey
| EvRsaDecrypt (data : list byte)
| EvDigest (algorithm : jsstring) (data : list byte)
| EvImportKey (raw : list byte)
| EvGetRandomValues
| EvEncrypt (iv data : list byte)
| EvDecrypt (iv data : list byte).

(** Inputs of one protocol run that the code does not choose: the key
    pair [generateKey] makes, the twelve bytes [getRandomValues] writes,
    and the server behind [fetch]. *)
Record Env : Type := mkEnv {
  generated : option KeyPair;
  random_iv : list byte;
  server : Request -> FetchOutcome
}.

(** The global [S] (field [S_]) and the calls made so far, oldest first. *)
Record World : Type := mkWorld {
  S_ : State;
  events : list Event
}.

(** An async function body: it reads the run's inputs, updates the world
    and returns or throws. *)
Definition M (A : Type) : Type := Env -> World -> Completion A * World.

Definition ret {A} (a : A) : M A := fun _ w => (Normal a, w).

Definition bind {A B} (m : M A) (f : A -> M B) : M B :=
  fun env w =>
    match m env w with
    | (Normal a, w') => f a env w'
    | (Throw e, w') => (Throw e, w')
    end.

Definition throw {A} (e : Exn) : M A := fun _ w => (Throw e, w).

(** [try { body } catch (e) { handler }]: writes made before the throw
    stay. *)
Definition try_catch {A} (body : M A) (handler : Exn -> M A) : M A :=
  fun env w =>
    match body env w with
    | (Normal a, w') => (Normal a, w')
    | (Throw e, w') => handler e env w'
    end.

Definition lift {A} (c : Completion A) : M A := fun _ w => (c, w).

(** Result of a provider call, thrown as [e] when rejected. *)
Definition provider {A} (ev : Event) (r : option A) (e : Exn) : M A :=
  fun _ w =>
    (match r with Some a => Normal a | None => Throw e end,
     {| S_ := S_ w; events := events w ++ [ev] |}).

Definition read_S : M State := fun _ w => (Normal (S_ w), w).

Definition write_S (f : State -> State) : M unit :=
  fun _ w => (Normal tt, {| S_ := f (S_ w); events := events w |}).

Definition ask : M Env := fun env w => (Normal env, w).

(** [await fetch(url, init)]. *)
Definition fetch (r : Request) : M FetchOutcome :=
  fun env w =>
    (Normal (server env r), {| S_ := S_ w; events := events w ++ [EvFetch r] |}).

Definition set_rsa (v : option RSA) (s : State) : State :=
  {| rsa := v; aes_key := aes_key s; pubPem := pubPem s;
     session_user := session_user s |}.
Definition set_aes_key (v : JsVal) (s : State) : State :=
  {| rsa := rsa s; aes_key := v; pubPem := pubPem s;
     session_user := session_user s |}.
Definition set_pubPem (v : JsVal) (s : State) : State :=
  {| rsa := rsa s; aes_key := aes_key s; pubPem := v;
     session_user := session_user s |}.
Definition set_session_user (v : JsVal) (s : State) : State :=
  {| rsa := rsa s; aes_key := aes_key s; pubPem := pubPem s;
     session_user := v |}.

(** The requests a run has sent. *)
Definition fetches (evs : list Event) : list Request :=
  flat_map (fun ev => match ev with EvFetch r => [r] | _ => [] end) evs.

End WithPlatform.
End Channel.
Export Channel.

Declare Scope js_scope.
Delimit Scope js_scope with js.
Notation "x <- m ;; k" := (bind m (fun x => k))
  (at level 100, m at next level, right associativity) : js_scope.
Notation "m ;; k" := (bind m (fun _ => k))
  (at level 100, right associativity) : js_scope.
Open Scope js_scope.

(* ================================================================== *)
(** ** class RSA *)
(* ================================================================== *)

Module RSA.
Section WithPlatform.
Context {P : Platform}.

(** Messages of the source, as code units. *)
(* "密钥生成失败" *)
Definition msg_keygen_failed : jsstring :=
  [23494; 38053; 29983; 25104; 22833; 36133]%N.
(* "导出公钥失败" *)
Definition msg_export_failed : jsstring :=
  [23548; 20986; 20844; 38053; 22833; 36133]%N.
(* "解密失败" *)
Definition msg_decrypt_failed : jsstring :=
  [35299; 23494; 22833; 36133]%N.
(* "私钥未初始化" *)
Definition msg_no_private_key : jsstring :=
  [31169; 38053; 26410; 21021; 22987; 21270]%N.

(** [new RSA()] with the default arguments. *)
Definition new : RSA :=
  {| name := lit "RSA-OAEP"; hash := lit "SHA-256"; key := None |}.

(** The program has one RSA instance, the one bound to [S.rsa]; the
    methods are embedded as acting on that field.  Calling one while
    [S.rsa] is null is the TypeError of a property read on null. *)
Definition this : M RSA :=
  s <- read_S ;;
  match rsa s with
  | Some r => ret r
  | None => throw (TypeError (lit "Cannot read properties of null"))
  end.

(** [async init()]. *)
Definition init : M unit :=
  r <- this ;;
  try_catch
    (env <- ask ;;
     kp <- provider EvGenerateKey (generated env)
               (OperationError (lit "generateKey")) ;;
     write_S (set_rsa (Some {| name := name r; hash := hash r;
                               key := Some kp |})))
    (fun _ => throw (Error msg_keygen_failed)).

Definition is_line_terminator (c : N) : bool :=
  ((c =? 10) || (c =? 13) || (c =? 0x2028) || (c =? 0x2029))%N.

(** [s.match(/.{1,n}/g)] for [n >= 1]: the maximal runs of at most [n]
    characters other than line terminators; [None] is the [null] of a
    string without any match. *)
Fixpoint chunks (n : nat) (s : jsstring) (cur : jsstring) (room : nat)
  : list jsstring :=
  match s with
  | [] => match cur with [] => [] | _ => [rev cur] end
  | c :: rest =>
      if is_line_terminator c then
        match cur with
        | [] => chunks n rest [] n
        | _ => rev cur :: chunks n rest [] n
        end
      else
        match room with
        | O => rev cur :: chunks n rest [c] (Nat.pred n)
        | Datatypes.S room' => chunks n rest (c :: cur) room'
        end
  end.

Definition match_chunks (n : nat) (s : jsstring) : option (list jsstring) :=
  match chunks n s [] n with
  | [] => None
  | l => Some l
  end.

(** [_arrayBufferToBase64(buffer)]. *)
Definition _arrayBufferToBase64 (buffer : list byte) : Completion jsstring :=
  Base64.btoa (Encoding.fromCharCode buffer).

(** [async getPublicKey_pem()]. *)
Definition getPublicKey_pem : M jsstring :=
  r <- this ;;
  try_catch
    (kp <- match key r with
             | Some kp => ret kp
             | None => throw (TypeError (lit "Cannot read properties of null"))
             end ;;
     spki <- provider EvExportKey (subtle_exportKey kp)
               (OperationError (lit "exportKey")) ;;
     b64 <- lift (_arrayBufferToBase64 spki) ;;
     match match_chunks 64 b64 with
     | None => throw (TypeError (lit "Cannot read properties of null"))
     | Some lines =>
         ret (lit "-----BEGIN PUBLIC KEY-----" ++ [10%N]
                ++ join [10%N] lines ++ [10%N]
                ++ lit "-----END PUBLIC KEY-----")
     end)
    (fun _ => throw (Error msg_export_failed)).

(** White space that [parseInt] skips (WhiteSpace and LineTerminator). *)
Definition is_js_whitespace (c : N) : bool :=
  ((c =? 9) || (c =? 10) || (c =? 11) || (c =? 12) || (c =? 13) || (c =? 32)
   || (c =? 0xA0) || (c =? 0x1680) || ((0x2000 <=? c) && (c <=? 0x200A))
   || (c =? 0x2028) || (c =? 0x2029) || (c =? 0x202F) || (c =? 0x205F)
   || (c =? 0x3000) || (c =? 0xFEFF))%N.

Definition hex_value (c : N) : option N :=
  if (48 <=? c)%N && (c <=? 57)%N then Some (c - 48)%N
  else if (97 <=? c)%N && (c <=? 102)%N then Some (c - 87)%N
  else if (65 <=? c)%N && (c <=? 70)%N then Some (c - 55)%N
  else None.

Fixpoint skip_whitespace (s : jsstring) : jsstring :=
  match s with
  | c :: rest => if is_js_whitespace c then skip_whitespace rest else s
  | [] => []
  end.

(** Value of the longest prefix of hexadecimal digits, [None] if empty. *)
Fixpoint hex_prefix (s : jsstring) (acc : option N) : option N :=
  match s with
  | c :: rest =>
      match hex_value c with
      | Some d =>
          hex_prefix rest
            (Some (match acc with Some a => a * 16 + d | None => d end)%N)
      | None => acc
      end
  | [] => acc
  end.

(** [parseInt(s, 16)]; [None] is NaN. *)
Definition parseInt16 (s : jsstring) : option Z :=
  let s1 := skip_whitespace s in
  let (neg, s2) :=
    match s1 with
    | c :: rest =>
        if (c =? 45)%N then (true, rest)
        else if (c =? 43)%N then (false, rest)
        else (false, s1)
    | [] => (false, s1)
    end in
  let s3 :=
    match s2 with
    | z :: x :: rest =>
        if ((z =? 48) && ((x =? 120) || (x =? 88)))%N then rest else s2
    | _ => s2
    end in
  match hex_prefix s3 None with
  | Some n => Some (if neg then (- Z.of_N n)%Z else Z.of_N n)
  | None => None
  end.

(** Store into a [Uint8Array]: NaN is 0, a number is taken modulo 256. *)
Definition to_uint8 (v : option Z) : byte :=
  match v with
  | Some z => Encoding.byte_of_N (Z.to_N (z mod 256))
  | None => x00
  end.

(** [async decrypt(cipherText, { input })] with [input] bound to a
    string, as in every call the program makes: the [try] block and its
    [catch].  The binding of the second parameter is [decrypt_options]
    below. *)
Definition decrypt (cipherText : JsVal) (input : jsstring) : M jsstring :=
  r <- this ;;
  try_catch
    (kp <- match key r with
             | Some kp => ret kp
             | None => throw (Error msg_no_private_key)
             end ;;
     byteArray <-
       (if str_eqb input (lit "hex") then
          match cipherText with
          | JStr s =>
              match match_chunks 2 s with
              | Some parts => ret (map (fun b => to_uint8 (parseInt16 b)) parts)
              | None => throw (TypeError (lit "Cannot read properties of null"))
              end
          | _ => throw (TypeError (lit "cipherText.match is not a function"))
          end
        else
          binaryString <- lift (Base64.atob_val cipherText) ;;
          ret (Encoding.bytes_of_binary binaryString)) ;;
     decrypted <- provider (EvRsaDecrypt byteArray)
                    (subtle_decrypt_rsa kp byteArray)
                    (OperationError (lit "decrypt")) ;;
     ret (Encoding.TextDecoder_decode decrypted))
    (fun _ => throw (Error msg_decrypt_failed)).

(** [{ input = 'base64' } = {}], the second parameter of [decrypt]: the
    pattern reads [input] from the argument, [{}] when the argument is
    undefined; [null] has no properties to read. *)
Definition destructure_input (options : JsVal) : Completion JsVal :=
  match get (or_default options (JObj [])) (lit "input") with
  | Normal v => Normal (or_default v (JStr (lit "base64")))
  | Throw e => Throw e
  end.

(** [async decrypt(cipherText, options)] from its call: the second
    parameter is bound before the [try] block is entered, and [decrypt]
    above is the rest of the method once [input] is bound.  A value of
    [input] that is not a string is not ['hex'], so the Base64 branch
    runs. *)
Definition decrypt_options (cipherText options : JsVal) : M jsstring :=
  this ;;
  input <- lift (destructure_input options) ;;
  decrypt cipherText (match input with
                      | JStr s => s
                      | _ => lit "base64"
                      end).

End WithPlatform.
(** Encryption with a public key.  No protocol calls it; the calls it
    makes to the provider are not entered in the list of events. *)
Section PublicKey.
Context {P : Platform} {K : PublicKeys}.

(* "加密失败" *)
Definition msg_encrypt_failed : jsstring :=
  [21152; 23494; 22833; 36133]%N.
(* "公钥未初始化" *)
Definition msg_no_public_key : jsstring :=
  [20844; 38053; 26410; 21021; 22987; 21270]%N.
(* "必须提供 PEM 格式公钥或启用 use_myPublicKey" *)
Definition msg_pem_required : jsstring :=
  [24517; 39035; 25552; 20379; 32; 80; 69; 77; 32; 26684; 24335; 20844;
   38053; 25110; 21551; 29992; 32; 117; 115; 101; 95; 109; 121; 80; 117;
   98; 108; 105; 99; 75; 101; 121]%N.
(* "无效的公钥 PEM 格式" *)
Definition msg_invalid_pem : jsstring :=
  [26080; 25928; 30340; 20844; 38053; 32; 80; 69; 77; 32; 26684; 24335]%N.

Fixpoint has_prefix (p s : jsstring) : bool :=
  match p, s with
  | [], _ => true
  | a :: p', b :: s' => (a =? b)%N && has_prefix p' s'
  | _ :: _, [] => false
  end.

Definition pem_begin : jsstring := lit "-----BEGIN PUBLIC KEY-----".
Definition pem_end : jsstring := lit "-----END PUBLIC KEY-----".

(** [s.replace(/-----BEGIN PUBLIC KEY-----|-----END PUBLIC KEY-----|\s+/g, '')]:
    a scan from the left that drops each match.  At a position the
    alternatives are tried in order; [skip] counts the characters of a
    marker still to drop.  A run of white space goes one character at a
    time. *)
Fixpoint strip_pem (s : jsstring) (skip : nat) : jsstring :=
  match s with
  | [] => []
  | c :: rest =>
      match skip with
      | Datatypes.S k => strip_pem rest k
      | O =>
          if has_prefix pem_begin s then
            strip_pem rest (Nat.pred (List.length pem_begin))
          else if has_prefix pem_end s then
            strip_pem rest (Nat.pred (List.length pem_end))
          else if is_js_whitespace c then strip_pem rest 0
          else c :: strip_pem rest 0
      end
  end.

(** [async _resolvePublicKey(pem, useMyKey)]. *)
Definition _resolvePublicKey (pem useMyKey : JsVal) : M PublicKey :=
  r <- this ;;
  if truthy useMyKey then
    match key r with
    | Some kp => ret (publicKey kp)
    | None => throw (Error msg_no_public_key)
    end
  else if negb (truthy pem) then throw (Error msg_pem_required)
  else
    try_catch
      (b64 <- match pem with
              | JStr s => ret (strip_pem s 0)
              | _ => throw (TypeError (lit "pem.replace is not a function"))
              end ;;
       binary <- lift (Base64.atob b64) ;;
       let binaryDer := Encoding.bytes_of_binary binary in
       lift (match subtle_importKey_spki (name r) (hash r) binaryDer with
             | Some k => Normal k
             | None => Throw (JErr (lit "DataError") (lit "importKey"))
             end))
      (fun _ => throw (Error msg_invalid_pem)).

(** The second parameter of [encrypt] after its destructuring. *)
Record Options : Type := mkOptions {
  PublicKey_pem : JsVal;
  use_myPublicKey : JsVal;
  output : JsVal
}.

(** [{ PublicKey_pem = null, use_myPublicKey = false, output = 'base64' } = {}]:
    the pattern reads the three properties of the argument, [{}] when it
    is undefined; [null] has no properties to read. *)
Definition destructure (options : JsVal) : Completion Options :=
  let o := or_default options (JObj []) in
  match get o (lit "PublicKey_pem"), get o (lit "use_myPublicKey"),
        get o (lit "output") with
  | Normal p, Normal u, Normal t =>
      Normal {| PublicKey_pem := or_default p JNull;
                use_myPublicKey := or_default u (JBool false);
                output := or_default t (JStr (lit "base64")) |}
  | Throw e, _, _ | _, Throw e, _ | _, _, Throw e => Throw e
  end.

(** [output === 'hex']. *)
Definition is_hex (v : JsVal) : bool :=
  match v with
  | JStr s => str_eqb s (lit "hex")
  | _ => false
  end.

(** [async encrypt(plainText, options)].  The parameters are bound
    before the [try] block is entered.  [seed] stands for the random
    bytes the provider draws for the padding during this call; the source
    has no such parameter. *)
Definition encrypt (seed : list byte) (plainText options : JsVal) : M jsstring :=
  r <- this ;;
  o <- lift (destructure options) ;;
  try_catch
    (publicKey <- _resolvePublicKey (PublicKey_pem o) (use_myPublicKey o) ;;
     data <- lift (Encoding.TextEncoder_encode plainText) ;;
     encrypted <- lift (match subtle_encrypt_rsa (name r) publicKey seed data with
                        | Some c => Normal c
                        | None => Throw (OperationError (lit "encrypt"))
                        end) ;;
     if is_hex (output o) then ret (Encoding.hex_of_bytes encrypted)
     else lift (_arrayBufferToBase64 encrypted))
    (fun _ => throw (Error msg_encrypt_failed)).

End PublicKey.

End RSA.

(* ================================================================== *)
(** ** class Eec: hashing, byte and Base64 conversions, AES-GCM *)
(* ================================================================== *)

Module Eec.

Module Hash.
Section WithPlatform.
Context {P : Platform}.

(** [static async sha256(data)]. *)
Definition sha256 (data : JsVal) : M JsVal :=
  try_catch
    (dataBuffer <- lift (Encoding.TextEncoder_encode data) ;;
     hashBuffer <- provider (EvDigest (lit "SHA-256") dataBuffer)
                     (subtle_digest (lit "SHA-256") dataBuffer)
                     (OperationError (lit "digest")) ;;
     ret (JStr (Encoding.hex_of_bytes hashBuffer)))
    (fun _ => ret (JStr [])).

(** [static async sha512(data)]. *)
Definition sha512 (data : JsVal) : M JsVal :=
  try_catch
    (dataBuffer <- lift (Encoding.TextEncoder_encode data) ;;
     hashBuffer <- provider (EvDigest (lit "SHA-512") dataBuffer)
                     (subtle_digest (lit "SHA-512") dataBuffer)
                     (OperationError (lit "digest")) ;;
     ret (JStr (Encoding.hex_of_bytes hashBuffer)))
    (fun _ => ret (JStr [])).

End WithPlatform.
End Hash.

(** [Eec.Bytes] and [Eec.B64] call no provider and touch no state: each
    method is its [try] block with the value of its [catch] as default. *)
Module Bytes.
Section WithDecoders.
Context {D : Decoders}.

(** [static stb(data, encoding = 'utf-8')]; [encoding] is not used. *)
Definition stb (data encoding : JsVal) : list byte :=
  match Encoding.TextEncoder_encode data with
  | Normal bytes => bytes
  | Throw _ => []
  end.

(** [static bts(data, encoding = 'utf-8')] on a byte array. *)
Definition bts (data : list byte) (encoding : JsVal) : jsstring :=
  match TextDecoder_new (or_default encoding (JStr (lit "utf-8"))) with
  | Normal decode => decode data
  | Throw _ => []
  end.

End WithDecoders.
End Bytes.

Module B64.
Section WithDecoders.
Context {D : Decoders}.

(** [static encodeStr(data, encoding = 'utf-8')]; [encoding] is not
    used. *)
Definition encodeStr (data encoding : JsVal) : jsstring :=
  match Encoding.TextEncoder_encode data with
  | Normal bytes =>
      match Base64.btoa (Encoding.fromCharCode bytes) with
      | Normal s => s
      | Throw _ => []
      end
  | Throw _ => []
  end.

(** [bytes[i] = v] on a typed array: a store past the end does nothing. *)
Fixpoint store (i : nat) (v : byte) (bytes : list byte) : list byte :=
  match bytes, i with
  | [], _ => []
  | _ :: rest, O => v :: rest
  | b :: rest, Datatypes.S i' => b :: store i' v rest
  end.

(** [s.charCodeAt(i)] for an index within the string. *)
Definition charCodeAt (s : jsstring) (i : nat) : N := nth i s 0%N.

(** [const bytes = new Uint8Array(binaryString.length);
     for (let i = 0; i < binaryString.length; i++)
       bytes[i] = binaryString.charCodeAt(i);]. *)
Definition char_codes (binaryString : jsstring) : list byte :=
  fold_left
    (fun bytes i => store i (Encoding.byte_of_N (charCodeAt binaryString i)) bytes)
    (seq 0 (List.length binaryString))
    (repeat x00 (List.length binaryString)).

(** [static decodeStr(data, encoding = 'utf-8')]. *)
Definition decodeStr (data encoding : JsVal) : jsstring :=
  match Base64.atob_val data with
  | Normal binaryString =>
      let bytes := char_codes binaryString in
      match TextDecoder_new (or_default encoding (JStr (lit "utf-8"))) with
      | Normal decode => decode bytes
      | Throw _ => []
      end
  | Throw _ => []
  end.

(** [static encodeBytes(data, encoding = 'utf-8')] on a byte array;
    [encoding] is not used. *)
Definition encodeBytes (data : list byte) (encoding : JsVal) : jsstring :=
  match Base64.btoa (Encoding.fromCharCode data) with
  | Normal s => s
  | Throw _ => []
  end.

(** [static decodeBytes(data, encoding = 'utf-8')]; [encoding] is not
    used. *)
Definition decodeBytes (data encoding : JsVal) : list byte :=
  match Base64.atob_val data with
  | Normal binaryString => char_codes binaryString
  | Throw _ => []
  end.

End WithDecoders.
End B64.

Module Aes.
Module Gcm.
Section WithPlatform.
Context {P : Platform}.

Definition msg_invalid_key : jsstring :=
  lit "Invalid AES key length. Must be 16, 24, or 32 bytes.".

(** [[16, 24, 32].includes(keyBytes.length)]. *)
Definition valid_key_length (keyBytes : list byte) : bool :=
  existsb (Nat.eqb (List.length keyBytes)) [16; 24; 32]%nat.

(** The first statements of the four operations: encode the key and
    reject a length that is not an AES key size. *)
Definition check_key (key : JsVal) : M (list byte) :=
  keyBytes <- lift (Encoding.TextEncoder_encode key) ;;
  if valid_key_length keyBytes then ret keyBytes
  else throw (Error msg_invalid_key).

Definition importKey (keyBytes : list byte) : M AesKey :=
  provider (EvImportKey keyBytes) (subtle_importKey keyBytes)
    (JErr (lit "DataError") (lit "importKey")).

(** [crypto.getRandomValues(new Uint8Array(12))]. *)
Definition getRandomValues : M (list byte) :=
  fun env w =>
    (Normal (random_iv env),
     {| S_ := S_ w; events := events w ++ [EvGetRandomValues] |}).

(** [encryptedArray.slice(0, -16)] and [encryptedArray.slice(-16)]. *)
Definition slice_ciphertext (encrypted : list byte) : list byte :=
  firstn (List.length encrypted - 16) encrypted.
Definition slice_tag (encrypted : list byte) : list byte :=
  skipn (List.length encrypted - 16) encrypted.

Definition b64 (bs : list byte) : M JsVal :=
  s <- lift (Base64.btoa (Encoding.fromCharCode bs)) ;;
  ret (JStr s).

(** The statements [encryptStr] and [encryptBytes] have in common;
    [dataBytes] yields the bytes to encrypt ([encoder.encode(data)] in
    the first, [data] itself in the second). *)
Definition encrypt_with (key : JsVal) (dataBytes : M (list byte)) : M JsVal :=
  keyBytes <- check_key key ;;
  cryptoKey <- importKey keyBytes ;;
  iv <- getRandomValues ;;
  bytes <- dataBytes ;;
  encrypted <- provider (EvEncrypt iv bytes)
                 (subtle_encrypt cryptoKey iv bytes)
                 (OperationError (lit "encrypt")) ;;
  iv64 <- b64 iv ;;
  data64 <- b64 (slice_ciphertext encrypted) ;;
  tag64 <- b64 (slice_tag encrypted) ;;
  ret (JObj [(lit "iv", iv64); (lit "data", data64); (lit "tag", tag64)]).

(** The [try] block of [encryptStr]. *)
Definition encryptStr_body (data key : JsVal) : M JsVal :=
  encrypt_with key (lift (Encoding.TextEncoder_encode data)).

(** [static async encryptStr(data, key)]. *)
Definition encryptStr (data key : JsVal) : M JsVal :=
  try_catch (encryptStr_body data key) (fun _ => ret (JObj [])).

(** The [try] block of [encryptBytes]. *)
Definition encryptBytes_body (data : list byte) (key : JsVal) : M JsVal :=
  encrypt_with key (ret data).

(** [static async encryptBytes(data, key)]. *)
Definition encryptBytes (data : list byte) (key : JsVal) : M JsVal :=
  try_catch (encryptBytes_body data key) (fun _ => ret (JObj [])).

(** [Uint8Array.from(atob(v), c => c.charCodeAt(0))]. *)
Definition unb64 (v : JsVal) : M (list byte) :=
  s <- lift (Base64.atob_val v) ;;
  ret (Encoding.bytes_of_binary s).

(** Steps shared by [decryptStr] and [decryptBytes]: the plaintext
    bytes the provider returns. *)
Definition decrypt_with (data iv tag key : JsVal) : M (list byte) :=
  keyBytes <- check_key key ;;
  cryptoKey <- importKey keyBytes ;;
  ivBytes <- unb64 iv ;;
  ciphertextBytes <- unb64 data ;;
  tagBytes <- unb64 tag ;;
  let encryptedData := ciphertextBytes ++ tagBytes in
  provider (EvDecrypt ivBytes encryptedData)
    (subtle_decrypt cryptoKey ivBytes encryptedData)
    (OperationError (lit "decrypt")).

(** The [try] block of [decryptStr]. *)
Definition decryptStr_body (data iv tag key : JsVal) : M JsVal :=
  decrypted <- decrypt_with data iv tag key ;;
  ret (JStr (Encoding.TextDecoder_decode decrypted)).

(** [static async decryptStr(data, iv, tag, key)]. *)
Definition decryptStr (data iv tag key : JsVal) : M JsVal :=
  try_catch (decryptStr_body data iv tag key) (fun _ => ret (JStr [])).

(** The [try] block of [decryptBytes]. *)
Definition decryptBytes_body (data iv tag key : JsVal) : M (list byte) :=
  decrypt_with data iv tag key.

(** [static async decryptBytes(data, iv, tag, key)]. *)
Definition decryptBytes (data iv tag key : JsVal) : M (list byte) :=
  try_catch (decryptBytes_body data iv tag key) (fun _ => ret []).

End WithPlatform.
End Gcm.
End Aes.

End Eec.

(* ================================================================== *)
(** ** class Res: the handshake and the secure request *)
(* ================================================================== *)

(** The two copies of [class Res] in res.js. *)
Inductive Copy : Type :=
| Copy1   (* lines 2-135: check tests aes_key and session_user; catch
             returns "error" *)
| Copy2.  (* lines 1314-1447: check tests aes_key only; catch returns e *)

Module Res.

(* "HTTP 错误: " *)
Definition msg_http_error : jsstring :=
  [72; 84; 84; 80; 32; 38169; 35823; 58; 32]%N.
(* "无有效的加密通道（缺少 AES 密钥或会话用户）" *)
Definition msg_no_channel : jsstring :=
  [26080; 26377; 25928; 30340; 21152; 23494; 36890; 36947; 65288; 32570;
   23569; 32; 65; 69; 83; 32; 23494; 38053; 25110; 20250; 35805; 29992;
   25143; 65289]%N.

(** [throw new Error(`HTTP 错误: ${res.status}`)]. *)
Definition http_error (status : Z) : Exn :=
  Error (msg_http_error ++ number_to_string status).

Module rs.
Section WithPlatform.
Context {P : Platform}.

(** The statements of the [try] block after the [fetch]: from
    [if (!res.ok)] to [return true]. *)
Definition install (res : FetchOutcome) : M JsVal :=
  match res with
  | NetworkError e => throw e
  | Response ok status json =>
      if negb ok then throw (http_error status)
      else
        result <- lift json ;;
        encryptedKey <- lift (get result (lit "data")) ;;
        k <- RSA.decrypt encryptedKey (lit "hex") ;;
        write_S (set_aes_key (JStr k)) ;;
        ret (JBool true)
  end.

(** The [try] block of [Res.rs.work]. *)
Definition work_body : M JsVal :=
  write_S (set_rsa (Some RSA.new)) ;;
  RSA.init ;;
  pem <- RSA.getPublicKey_pem ;;
  write_S (set_pubPem (JStr pem)) ;;
  s <- read_S ;;
  let form := FormData [(lit "user_key_pub_pem", pubPem s)] in
  res <- fetch {| url := lit "/rs"; method := lit "POST"; headers := [];
                  credentials := None; body := form |} ;;
  install res.

(** [static async work()] of [Res.rs]. *)
Definition work : M JsVal :=
  try_catch work_body (fun _ => ret (JBool false)).

End WithPlatform.
End rs.

Module api.
Section WithPlatform.
Context {P : Platform}.

(** [static check()]. *)
Definition check (c : Copy) : M unit :=
  s <- read_S ;;
  let missing :=
    match c with
    | Copy1 => negb (truthy (aes_key s)) || negb (truthy (session_user s))
    | Copy2 => negb (truthy (aes_key s))
    end in
  if missing then throw (Error msg_no_channel) else ret tt.

(** [algorithm !== ''], the test against the empty string. *)
Definition not_empty_string (v : JsVal) : bool :=
  match v with
  | JStr [] => false
  | _ => true
  end.

Definition stringify (v : JsVal) : M jsstring :=
  lift (match JSON_stringify v with
        | Some t => Normal t
        | None => Throw (TypeError (lit "JSON.stringify"))
        end).

Definition parse (text : JsVal) : M JsVal :=
  lift (match text with
        | JStr t =>
            match JSON_parse t with
            | Some v => Normal v
            | None => Throw (SyntaxError (lit "JSON.parse"))
            end
        | _ => Throw (SyntaxError (lit "JSON.parse"))
        end).

(** The [try] block of [Res.api.work] is embedded in three parts.
    First part: from [this.check()] to [await fetch("/api", ...)]. *)
Definition send (c : Copy) (operate args algorithm message : JsVal)
  : M FetchOutcome :=
  check c ;;
  let secondLayer := JObj [(lit "operate", operate); (lit "args", args)] in
  jsonString <- stringify secondLayer ;;
  content <-
    (if negb (truthy algorithm) then
       s <- read_S ;;
       Eec.Aes.Gcm.encryptStr (JStr jsonString) (aes_key s)
     else
       (* the branch holds comments only: content stays undefined *)
       ret JUndefined) ;;
  let firstLayer :=
    JObj [(lit "message", message);
          (lit "compression", JBool (not_empty_string algorithm));
          (lit "algorithm", algorithm);
          (lit "content", content)] in
  jsonPayload <- stringify firstLayer ;;
  s <- read_S ;;
  h <- Eec.Hash.sha256 (aes_key s) ;;
  write_S (set_session_user h) ;;
  s <- read_S ;;
  fetch {| url := lit "/api"; method := lit "POST";
           headers := [(lit "Content-Type", JStr (lit "application/json"));
                       (lit "session_user", session_user s)];
           credentials := Some (lit "include");
           body := Text jsonPayload |}.

(** Second part: from [if (!res.ok)] to [JSON.parse(decryptedJson)];
    it yields [result] and [parsed]. *)
Definition receive (res : FetchOutcome) : M (JsVal * JsVal) :=
  match res with
  | NetworkError e => throw e
  | Response ok status json =>
      if negb ok then throw (http_error status)
      else
        result <- lift json ;;
        blob <- lift (get result (lit "data")) ;;
        data <- lift (get blob (lit "data")) ;;
        iv <- lift (get blob (lit "iv")) ;;
        tag <- lift (get blob (lit "tag")) ;;
        s <- read_S ;;
        decryptedJson <- Eec.Aes.Gcm.decryptStr data iv tag (aes_key s) ;;
        parsed <- parse decryptedJson ;;
        ret (result, parsed)
  end.

(** Third part: [S.aes_key = parsed.key] and the [return]. *)
Definition rotate (result parsed : JsVal) : M (JsVal * JsVal * JsVal) :=
  newKey <- lift (get parsed (lit "key")) ;;
  write_S (set_aes_key newKey) ;;
  parsedData <- lift (get parsed (lit "data")) ;;
  resMessage <- lift (get result (lit "message")) ;;
  resCode <- lift (get result (lit "code")) ;;
  ret (parsedData, resMessage, resCode).

Definition work_body (c : Copy) (operate args algorithm message : JsVal)
  : M (JsVal * JsVal * JsVal) :=
  res <- send c operate args algorithm message ;;
  rp <- receive res ;;
  rotate (fst rp) (snd rp).

(** The triple returned by the [catch] block. *)
Definition failure (c : Copy) (e : Exn) : JsVal * JsVal * JsVal :=
  match c with
  | Copy1 => (JBool false, JStr (lit "error"), JNum 999)
  | Copy2 => (JBool false, e, JNum 999)
  end.

(** A parameter with a default: [undefined] takes the default. *)
Definition default_arg (v d : JsVal) : JsVal :=
  match v with
  | JUndefined => d
  | _ => v
  end.

(** [static async work(operate, args = {}, algorithm = '', message = '')]. *)
Definition work (c : Copy) (operate args algorithm message : JsVal)
  : M (JsVal * JsVal * JsVal) :=
  try_catch (work_body c operate (default_arg args (JObj []))
                       (default_arg algorithm (JStr []))
                       (default_arg message (JStr [])))
            (fun e => ret (failure c e)).

End WithPlatform.
End api.

End Res.

(* ================================================================== *)
(** ** A simulated platform *)
(* ================================================================== *)

(** A small stand-in for the browser, on which the protocol can be run on
    concrete inputs: a byte shift with a checksum tag over key, IV and
    ciphertext in place of AES-GCM, a checksum in place of SHA-2, an identity transform in
    place of RSA-OAEP, and a JSON reader and writer for the values of
    [JsVal] (integers only, escapes limited to the quote and the
    backslash).  The theorems below hold for every platform; this one
    only supplies runs. *)
Module Sim.

Definition shift_up (b : byte) : byte := Encoding.byte_of_N (Byte.to_N b + 1).
Definition shift_down (b : byte) : byte := Encoding.byte_of_N (Byte.to_N b + 255).

Definition checksum (bs : list byte) : list byte :=
  map (fun i =>
         Encoding.byte_of_N
           (fold_left (fun acc b => (acc * 31 + Byte.to_N b + N.of_nat i) mod 65521)%N
                      bs 7%N))
      (seq 0 32).

(** The tag binds the key, the IV and the ciphertext. *)
Definition tag_of (k iv ct : list byte) : list byte :=
  firstn 16 (checksum (k ++ iv ++ ct)).

Definition importKey (raw : list byte) : option (list byte) :=
  if Eec.Aes.Gcm.valid_key_length raw then Some raw else None.

Definition encrypt (k iv pt : list byte) : option (list byte) :=
  let ct := map shift_up pt in
  Some (ct ++ tag_of k iv ct).

Definition list_byte_eqb (a b : list byte) : bool :=
  if list_eq_dec Byte.byte_eq_dec a b then true else false.

Definition decrypt (k iv c : list byte) : option (list byte) :=
  let n := (List.length c - 16)%nat in
  if (16 <=? List.length c)%nat
     && list_byte_eqb (skipn n c) (tag_of k iv (firstn n c))
  then Some (map shift_down (firstn n c))
  else None.

Definition quote (s : jsstring) : jsstring :=
  [34%N] ++ flat_map (fun c => if ((c =? 34) || (c =? 92))%N
                               then [92%N; c] else [c]) s ++ [34%N].

(** Writer.  An undefined member is left out of an object and written
    as null in an array. *)
Fixpoint write (v : JsVal) : jsstring :=
  match v with
  | JUndefined | JNull => lit "null"
  | JBool true => lit "true"
  | JBool false => lit "false"
  | JNum z => number_to_string z
  | JStr s => quote s
  | JArr items => lit "[" ++ join (lit ",") (map write items) ++ lit "]"
  | JObj fields =>
      lit "{"
        ++ join (lit ",")
             (flat_map (fun kv : jsstring * JsVal =>
                          let (k, x) := kv in
                          match x return list jsstring with
                          | JUndefined => []
                          | _ => [quote k ++ lit ":" ++ write x]
                          end) fields)
        ++ lit "}"
  | JErr _ _ => lit "{}"
  end.

Fixpoint read_string (s : jsstring) (acc : jsstring)
  : option (jsstring * jsstring) :=
  match s with
  | [] => None
  | c :: rest =>
      if (c =? 34)%N then Some (rev acc, rest)
      else if (c =? 92)%N then
        match rest with
        | e :: rest' =>
            if ((e =? 34) || (e =? 92))%N then read_string rest' (e :: acc)
            else None
        | [] => None
        end
      else if (c <? 32)%N then None
      else read_string rest (c :: acc)
  end.

Fixpoint read_digits (s : jsstring) (acc : option N) : option N * jsstring :=
  match s with
  | c :: rest =>
      if (48 <=? c)%N && (c <=? 57)%N then
        read_digits rest
          (Some (match acc with Some a => a * 10 + (c - 48) | None => c - 48 end)%N)
      else (acc, s)
  | [] => (acc, s)
  end.

Definition starts (p s : jsstring) : option jsstring :=
  if str_eqb (firstn (List.length p) s) p then Some (skipn (List.length p) s)
  else None.

(** Reader, by recursive descent with a bound on the depth and on the
    number of members. *)
Fixpoint read_value (fuel : nat) (s : jsstring) : option (JsVal * jsstring) :=
  match fuel with
  | O => None
  | Datatypes.S f =>
      match s with
      | [] => None
      | c :: rest =>
          if (c =? 34)%N then
            match read_string rest [] with
            | Some (str, r) => Some (JStr str, r)
            | None => None
            end
          else if (c =? 91)%N then
            match rest with
            | d :: r => if (d =? 93)%N then Some (JArr [], r)
                        else read_items f rest []
            | [] => None
            end
          else if (c =? 123)%N then
            match rest with
            | d :: r => if (d =? 125)%N then Some (JObj [], r)
                        else read_members f rest []
            | [] => None
            end
          else if (c =? 45)%N then
            match read_digits rest None with
            | (Some n, r) => Some (JNum (- Z.of_N n), r)
            | (None, _) => None
            end
          else
            match starts (lit "null") s, starts (lit "true") s,
                  starts (lit "false") s with
            | Some r, _, _ => Some (JNull, r)
            | _, Some r, _ => Some (JBool true, r)
            | _, _, Some r => Some (JBool false, r)
            | _, _, _ =>
                match read_digits s None with
                | (Some n, r) => Some (JNum (Z.of_N n), r)
                | (None, _) => None
                end
            end
      end
  end
with read_items (fuel : nat) (s : jsstring) (acc : list JsVal)
     : option (JsVal * jsstring) :=
  match fuel with
  | O => None
  | Datatypes.S f =>
      match read_value f s with
      | Some (v, c :: r) =>
          if (c =? 44)%N then read_items f r (v :: acc)
          else if (c =? 93)%N then Some (JArr (rev (v :: acc)), r)
          else None
      | _ => None
      end
  end
with read_members (fuel : nat) (s : jsstring) (acc : list (jsstring * JsVal))
     : option (JsVal * jsstring) :=
  match fuel with
  | O => None
  | Datatypes.S f =>
      match s with
      | q :: s1 =>
          if (q =? 34)%N then
            match read_string s1 [] with
            | Some (k, colon :: s2) =>
                if (colon =? 58)%N then
                  match read_value f s2 with
                  | Some (v, c :: r) =>
                      if (c =? 44)%N then read_members f r ((k, v) :: acc)
                      else if (c =? 125)%N
                           then Some (JObj (rev ((k, v) :: acc)), r)
                           else None
                  | _ => None
                  end
                else None
            | _ => None
            end
          else None
      | [] => None
      end
  end.

Definition read (s : jsstring) : option JsVal :=
  match read_value (Datatypes.S (List.length s)) s with
  | Some (v, []) => Some v
  | _ => None
  end.

#[export] Instance platform : Platform := {|
  KeyPair := list byte;
  AesKey := list byte;
  subtle_digest := fun _ bs => Some (checksum bs);
  subtle_exportKey := fun kp => Some kp;
  subtle_decrypt_rsa := fun _ ct => Some ct;
  subtle_importKey := importKey;
  subtle_encrypt := encrypt;
  subtle_decrypt := decrypt;
  JSON_parse := read;
  JSON_stringify := fun v => Some (write v)
|}.

(** A server that answers every request with the same outcome. *)
Definition env (iv : list byte) (reply : FetchOutcome) : Env :=
  {| generated := Some [x01; x02; x03]; random_iv := iv;
     server := fun _ => reply |}.

Definition iv0 : list byte :=
  [x00; x01; x02; x03; x04; x05; x06; x07; x08; x09; x0a; x0b].

Definition bytes_of (s : string) : list byte := list_byte_of_string s.

(** The Base64 text of a byte array. *)
Definition b64 (bs : list byte) : JsVal :=
  JStr (Base64.encode (Encoding.fromCharCode bs)).

(** The response envelope a server holding [key] sends for [payload]. *)
Definition envelope (key : string) (payload : JsVal) (code : Z) : JsVal :=
  let k := bytes_of key in
  let pt := Encoding.encode_string (write payload) in
  JObj [(lit "code", JNum code);
        (lit "message", JStr (lit "ok"));
        (lit "data", JObj [(lit "data", b64 (map shift_up pt));
                           (lit "iv", b64 iv0);
                           (lit "tag", b64 (tag_of k iv0 (map shift_up pt)))])].

(** A response whose tag was made under another key. *)
Definition tampered : FetchOutcome :=
  Response true 200
    (Normal (envelope "WRONG KEY 123456"
               (JObj [(lit "data", JNum 1);
                      (lit "key", JStr (lit "fedcba9876543210"))]) 0)).

Definition established (key : string) : World :=
  {| S_ := {| rsa := None; aes_key := JStr (lit key); pubPem := JNull;
              session_user := JNull |};
     events := [] |}.

End Sim.

(** The rest of the stand-in: public keys that are the key pair itself,
    an identity transform for RSA-OAEP encryption as for its decryption,
    and a browser that knows two encodings, UTF-8 and x-user-defined. *)
Module SimKeys.

#[export] Instance public_keys : PublicKeys (P := Sim.platform) := {|
  PublicKey := list byte;
  publicKey := (fun kp => kp) : KeyPair (Platform := Sim.platform) -> list byte;
  subtle_importKey_spki :=
    fun _ _ der => match der with [] => None | _ => Some der end;
  subtle_encrypt_rsa := fun _ _ _ pt => Some pt
|}.

(** The x-user-defined decoder of the Encoding standard: an ASCII byte
    is its own code point, a byte from 0x80 on is U+F780 plus the byte
    minus 0x80. *)
Definition x_user_defined (bs : list byte) : jsstring :=
  map (fun b => let n := Byte.to_N b in
                if (n <? 0x80)%N then n else (0xF780 + n - 0x80)%N) bs.

#[export] Instance decoders : Decoders := {|
  other_decoder := fun label =>
    if str_eqb label (lit "x-user-defined") then Some x_user_defined else None
|}.

(** A world whose [S.rsa] holds the key pair [kp]. *)
Definition with_key (kp : list byte) : World :=
  {| S_ := {| rsa := Some (mkRSA (P := Sim.platform) (lit "RSA-OAEP")
                             (lit "SHA-256") (Some kp));
              aes_key := JNull; pubPem := JNull; session_user := JNull |};
     events := [] |}.

(** A response under the key ["0123456789abcdef"] whose payload names
    the next key, and one whose payload has no [key] member. *)
Definition rekeying : FetchOutcome :=
  Response true 200
    (Normal (Sim.envelope "0123456789abcdef"
               (JObj [(lit "data", JNum 1);
                      (lit "key", JStr (lit "fedcba9876543210"))]) 7)).

Definition keyless : FetchOutcome :=
  Response true 200
    (Normal (Sim.envelope "0123456789abcdef" (JObj [(lit "data", JNum 1)]) 0)).

End SimKeys.

(** Browsers that differ from the stand-in in one respect, and a
    response respelled on the wire. *)
Module SimFaults.

(** A browser whose [exportKey] rejects. *)
Definition no_export : Platform := {|
  KeyPair := list byte;
  AesKey := list byte;
  subtle_digest := fun _ bs => Some (Sim.checksum bs);
  subtle_exportKey := fun _ => None;
  subtle_decrypt_rsa := fun _ ct => Some ct;
  subtle_importKey := Sim.importKey;
  subtle_encrypt := Sim.encrypt;
  subtle_decrypt := Sim.decrypt;
  JSON_parse := Sim.read;
  JSON_stringify := fun v => Some (Sim.write v)
|}.

(** A browser without AES-192, as Chromium: a raw key of 24 bytes is
    refused by [importKey]. *)
Definition no_aes192 : Platform := {|
  KeyPair := list byte;
  AesKey := list byte;
  subtle_digest := fun _ bs => Some (Sim.checksum bs);
  subtle_exportKey := fun kp => Some kp;
  subtle_decrypt_rsa := fun _ ct => Some ct;
  subtle_importKey :=
    fun raw => if (List.length raw =? 24)%nat then None else Sim.importKey raw;
  subtle_encrypt := Sim.encrypt;
  subtle_decrypt := Sim.decrypt;
  JSON_parse := Sim.read;
  JSON_stringify := fun v => Some (Sim.write v)
|}.

(** A channel established earlier, on the browser whose [exportKey]
    rejects: [S] still holds the PEM text and the session identifier of
    that time. *)
Definition established_before : @World no_export :=
  {| S_ := {| rsa := None; aes_key := JStr (lit "0123456789abcdef");
              pubPem := JStr (lit "PEM of the last handshake");
              session_user := JStr (lit "0a1b2c") |};
     events := [] |}.

Definition env_no_export : @Env no_export :=
  {| generated := Some ([x01; x02; x03] : @KeyPair no_export);
     random_iv := Sim.iv0;
     server := fun _ => NetworkError JNull |}.

Definition env_no_aes192 : @Env no_aes192 :=
  {| generated := Some ([x01; x02; x03] : @KeyPair no_aes192);
     random_iv := Sim.iv0;
     server := fun _ => NetworkError JNull |}.

Definition world_no_aes192 : @World no_aes192 :=
  {| S_ := {| rsa := None; aes_key := JNull; pubPem := JNull;
              session_user := JNull |};
     events := [] |}.

(** [s] with one bit of its character at index [i] flipped. *)
Definition flip_bit (i : nat) (bit : N) (s : jsstring) : jsstring :=
  firstn i s ++ match skipn i s with
                | c :: rest => N.lxor c (2 ^ bit) :: rest
                | [] => []
                end.

(** [v] with its member [name] replaced by its image under [f]. *)
Definition map_member (name : jsstring) (f : JsVal -> JsVal) (v : JsVal) : JsVal :=
  match v with
  | JObj fields =>
      JObj (map (fun kv : jsstring * JsVal =>
                   if str_eqb (fst kv) name then (fst kv, f (snd kv)) else kv)
                fields)
  | _ => v
  end.

Definition on_text (f : jsstring -> jsstring) (v : JsVal) : JsVal :=
  match v with
  | JStr s => JStr (f s)
  | _ => v
  end.

(** The envelope of [SimKeys.rekeying], and the same envelope with one
    bit flipped in the 22nd character of its tag text or in the 47th of
    its data text, in each the last before the padding. *)
Definition genuine_envelope : JsVal :=
  Sim.envelope "0123456789abcdef"
    (JObj [(lit "data", JNum 1); (lit "key", JStr (lit "fedcba9876543210"))]) 7.

Definition respelled_envelope : JsVal :=
  map_member (lit "data") (map_member (lit "tag") (on_text (flip_bit 21 3)))
    genuine_envelope.

Definition respelled : FetchOutcome := Response true 200 (Normal respelled_envelope).

Definition respelled_data_envelope : JsVal :=
  map_member (lit "data") (map_member (lit "data") (on_text (flip_bit 46 0)))
    genuine_envelope.

Definition respelled_data : FetchOutcome :=
  Response true 200 (Normal respelled_data_envelope).

End SimFaults.

(* ================================================================== *)
(** ** Vocabulary of the properties *)
(* ================================================================== *)

Module Spec.
Section WithPlatform.
Context {P : Platform}.

(** The value [Eec.Hash.sha256] returns for [v]: the hexadecimal
    digest of its UTF-8 bytes, or the empty string of the [catch]. *)
Definition sha256_hex (v : JsVal) : JsVal :=
  match Encoding.TextEncoder_encode v with
  | Normal bs =>
      match subtle_digest (lit "SHA-256") bs with
      | Some d => JStr (Encoding.hex_of_bytes d)
      | None => JStr []
      end
  | Throw _ => JStr []
  end.

(** A header of a request. *)
Definition header (name : jsstring) (r : Request) : option JsVal :=
  lookup name (headers r).

(** A computation is quiet when it leaves [S] as it is and sends no
    request. *)
Definition quiet {A} (m : M A) : Prop :=
  forall env w, exists evs,
    snd (m env w) = {| S_ := S_ w; events := events w ++ evs |}
    /\ fetches evs = [].

(** The symmetric key is absent (never set) or empty. *)
Definition absent_or_empty (v : JsVal) : Prop :=
  v = JUndefined \/ v = JNull \/ v = JStr [].

(** The symmetric key is present and not empty. *)
Definition present_nonempty (v : JsVal) : Prop :=
  exists s, v = JStr s /\ s <> [].

(** The error of the length test of the symmetric operations. *)
Definition invalid_key_error : Exn := Error Eec.Aes.Gcm.msg_invalid_key.

(** UTF-8 byte length of a key. *)
Definition key_length (k : jsstring) : nat :=
  List.length (Encoding.encode_string k).

Definition legal_length (n : nat) : Prop := n = 16%nat \/ n = 24%nat \/ n = 32%nat.

(** A string without unpaired surrogates, all code units on 16 bits. *)
Fixpoint well_formed (s : jsstring) : bool :=
  match s with
  | [] => true
  | c :: rest =>
      if Encoding.is_high c then
        match rest with
        | d :: rest' => Encoding.is_low d && well_formed rest'
        | [] => false
        end
      else negb (Encoding.is_low c) && (c <? 0x10000)%N && well_formed rest
  end.

(** The string begins with U+FEFF. *)
Definition begins_with_bom (s : jsstring) : bool :=
  match s with
  | c :: _ => (c =? 0xFEFF)%N
  | [] => false
  end.

(** What is assumed of the provider's AES-GCM: a raw key of 16, 24 or
    32 bytes imports; with a 12-byte IV, encryption succeeds and
    decryption undoes it; decryption accepts only what encryption
    under the same key and IV produces. *)
Definition gcm_imports : Prop :=
  forall raw, Eec.Aes.Gcm.valid_key_length raw = true ->
              exists ck, subtle_importKey raw = Some ck.

Definition gcm_inverts : Prop :=
  forall ck iv pt, List.length iv = 12%nat ->
    exists c, subtle_encrypt ck iv pt = Some c
              /\ subtle_decrypt ck iv c = Some pt.

Definition gcm_authentic : Prop :=
  forall ck iv c pt, subtle_decrypt ck iv c = Some pt ->
                     subtle_encrypt ck iv pt = Some c.

(** [JSON.parse('')] throws. *)
Definition json_rejects_empty : Prop := JSON_parse [] = None.

(** The fields [data] and [tag] carry, in Base64, the output of the
    provider's AES-GCM encryption of some plaintext under [key] and the
    IV carried by [iv]. *)
Definition genuine (key data iv tag : JsVal) : Prop :=
  exists raw ck ivs cts tags pt,
    Encoding.TextEncoder_encode key = Normal raw
    /\ subtle_importKey raw = Some ck
    /\ Base64.atob_val iv = Normal ivs
    /\ Base64.atob_val data = Normal cts
    /\ Base64.atob_val tag = Normal tags
    /\ subtle_encrypt ck (Encoding.bytes_of_binary ivs) pt
       = Some (Encoding.bytes_of_binary cts ++ Encoding.bytes_of_binary tags).

(** A Unicode scalar value. *)
Definition scalar (cp : N) : Prop :=
  (cp < 0x110000 /\ ~ (0xD800 <= cp <= 0xDFFF))%N.

(** All elements are below [n]. *)
Definition small (n : N) (l : list N) : Prop := Forall (fun x => x < n)%N l.

(** The sextets [Base64.encode] writes, padding left out. *)
Fixpoint sextets (bs : list N) : list N :=
  match bs with
  | [] => []
  | [a] => [a / 4; (a mod 4) * 16]
  | [a; b] => [a / 4; (a mod 4) * 16 + b / 16; (b mod 16) * 4]
  | a :: b :: c :: rest =>
      a / 4 :: (a mod 4) * 16 + b / 16 :: (b mod 16) * 4 + c / 64 :: c mod 64
        :: sextets rest
  end%N.

(** The PEM text [getPublicKey_pem] makes of an exported key. *)
Definition pem_of (spki : list byte) : jsstring :=
  lit "-----BEGIN PUBLIC KEY-----" ++ [10%N]
    ++ join [10%N] (RSA.chunks 64 (Base64.encode (Encoding.fromCharCode spki)) [] 64)
    ++ [10%N] ++ lit "-----END PUBLIC KEY-----".

(** [S] when the handshake reaches its [fetch]: [S.rsa] and [S.pubPem]
    are the new ones. *)
Definition after_export (s : State) (kp : KeyPair) (spki : list byte) : State :=
  {| rsa := Some {| name := lit "RSA-OAEP"; hash := lit "SHA-256";
                    key := Some kp |};
     aes_key := aes_key s;
     pubPem := JStr (pem_of spki);
     session_user := session_user s |}.

(** The request of the handshake. *)
Definition rs_request (spki : list byte) : Request :=
  {| url := lit "/rs"; method := lit "POST"; headers := [];
     credentials := None;
     body := FormData [(lit "user_key_pub_pem", JStr (pem_of spki))] |}.

(** One call of [Res.api.work]: its arguments and the inputs of the run. *)
Record Call : Type := mkCall {
  call_operate : JsVal;
  call_args : JsVal;
  call_algorithm : JsVal;
  call_message : JsVal;
  call_env : Env
}.

Definition call (c : Copy) (cl : Call) : World -> Completion (JsVal * JsVal * JsVal) * World :=
  Res.api.work c (call_operate cl) (call_args cl) (call_algorithm cl)
    (call_message cl) (call_env cl).

(** A successful request/response cycle: the [try] block of the call
    runs to its [return].  The result is the [key] member of the
    decrypted payload and the world after the call. *)
Definition cycle (c : Copy) (cl : Call) (w : World) : option (JsVal * World) :=
  match (res <- Res.api.send c (call_operate cl)
                  (Res.api.default_arg (call_args cl) (JObj []))
                  (Res.api.default_arg (call_algorithm cl) (JStr []))
                  (Res.api.default_arg (call_message cl) (JStr [])) ;;
         Res.api.receive res) (call_env cl) w with
  | (Normal (result, parsed), w1) =>
      match Res.api.rotate result parsed (call_env cl) w1,
            get parsed (lit "key") with
      | (Normal _, w2), Normal k => Some (k, w2)
      | _, _ => None
      end
  | (Throw _, _) => None
  end.

(** Successive successful cycles: the keys their payloads carried,
    oldest first, and the world after the last one. *)
Fixpoint cycles (c : Copy) (cs : list Call) (w : World)
  : option (list JsVal * World) :=
  match cs with
  | [] => Some ([], w)
  | cl :: rest =>
      match cycle c cl w with
      | Some (k, w1) =>
          match cycles c rest w1 with
          | Some (ks, w2) => Some (k :: ks, w2)
          | None => None
          end
      | None => None
      end
  end.

(** The events a run adds to the world. *)
Definition added (w w' : World) : list Event :=
  skipn (List.length (events w)) (events w').

(** The provider imports the UTF-8 bytes of [k] as a raw AES-GCM key. *)
Definition imports (k : jsstring) : Prop :=
  exists ck, subtle_importKey (Encoding.encode_string k) = Some ck.

(** The tag is a function of the key, the IV and the ciphertext: two
    outputs of the provider's encryption under one key and IV that have
    the same bytes before their 16-byte tags have the same tag. *)
Definition gcm_tag_binds : Prop :=
  forall ck iv pt pt' ct tag tag',
    List.length tag = 16%nat -> List.length tag' = 16%nat ->
    subtle_encrypt ck iv pt = Some (ct ++ tag) ->
    subtle_encrypt ck iv pt' = Some (ct ++ tag') ->
    tag = tag'.

(** The digits of lowercase hexadecimal, and the hexadecimal text of a
    byte array as the specification has it: two digits per byte, the
    high one first.  It is written without the code's own writer
    ([Encoding.hex_of_bytes]), which it is compared with. *)
Definition hex_digits : jsstring := lit "0123456789abcdef".

Definition hex_text (d : list byte) : jsstring :=
  flat_map (fun b => [nth (N.to_nat (Byte.to_N b / 16)) hex_digits 0%N;
                      nth (N.to_nat (Byte.to_N b mod 16)) hex_digits 0%N]) d.

End WithPlatform.
End Spec.
Export Spec.

(** Further vocabulary, for the properties of the code outside the two
    protocols' main lines. *)
Module Terms.

(** The member [name] of [v], undefined where the read would throw. *)
Definition member (v : JsVal) (name : jsstring) : JsVal :=
  match get v name with
  | Normal x => x
  | Throw _ => JUndefined
  end.

(** The request of a handshake that sends [pem]. *)
Definition rs_request_of (pem : jsstring) : Request :=
  {| url := lit "/rs"; method := lit "POST"; headers := [];
     credentials := None;
     body := FormData [(lit "user_key_pub_pem", JStr pem)] |}.

(** One call of [Res.api.work] with the default algorithm and message,
    answered by [reply]. *)
Definition a_call (reply : FetchOutcome) : Call :=
  {| call_operate := JStr (lit "get_user"); call_args := JObj [];
     call_algorithm := JUndefined; call_message := JUndefined;
     call_env := Sim.env Sim.iv0 reply |}.

(** Calls made one after the other: their results, oldest first, and
    the world after the last. *)
Fixpoint calls {P : Platform} (c : Copy) (cs : list Call) (w : World)
  : list (Completion (JsVal * JsVal * JsVal)) * World :=
  match cs with
  | [] => ([], w)
  | cl :: rest =>
      let (r, w1) := call c cl w in
      let (rs, w2) := calls c rest w1 in
      (r :: rs, w2)
  end.

(** The call returned the failure triple. *)
Definition failed (c : Copy) (r : Completion (JsVal * JsVal * JsVal)) : Prop :=
  exists e, r = Normal (Res.api.failure c e).

(** [l] is the beginning of [full]. *)
Definition prefix_of {A} (l full : list A) : Prop := exists rest, l ++ rest = full.

(** The [encoding] argument is left out or is a label of UTF-8. *)
Definition names_utf8 (encoding : JsVal) : Prop :=
  encoding = JUndefined
  \/ exists label, encoding = JStr label /\ Label.is_utf8 label = true.

(** A character of the Base64 alphabet, or the padding sign. *)
Definition base64_char (c : N) : Prop := In c Base64.alphabet \/ c = Base64.pad.

(** A character that is neither white space nor a hyphen. *)
Definition plain (c : N) : Prop :=
  RSA.is_js_whitespace c = false /\ c <> 45%N.

(** The two digits [b.toString(16).padStart(2, '0')] writes for a byte. *)
Definition hex_pair (b : byte) : jsstring :=
  [Encoding.hex_digit (Byte.to_N b / 16); Encoding.hex_digit (Byte.to_N b mod 16)].

(** A digit, or a letter from a to f. *)
Definition lower_hex (c : N) : bool :=
  ((48 <=? c) && (c <=? 57) || (97 <=? c) && (c <=? 102))%N.

(** All code units are ASCII. *)
Definition ascii_only (s : jsstring) : Prop := Forall (fun c => c < 128)%N s.

(** Lines of a wrapped text: every line but the last has [n] characters,
    the last has between 1 and [n]. *)
Fixpoint wrapped (n : nat) (lines : list jsstring) : Prop :=
  match lines with
  | [] => True
  | [l] => (1 <= List.length l <= n)%nat
  | l :: rest => List.length l = n /\ wrapped n rest
  end.

(** What is assumed of the provider's RSA-OAEP: decryption with the
    private key of a pair undoes encryption with its public key. *)
Definition rsa_inverts {P : Platform} {K : PublicKeys} : Prop :=
  forall kp n seed pt c,
    subtle_encrypt_rsa n (publicKey kp) seed pt = Some c ->
    subtle_decrypt_rsa kp c = Some pt.

(** The options object [{ PublicKey_pem, use_myPublicKey, output }]. *)
Definition options (use_my pem out : JsVal) : JsVal :=
  JObj [(lit "PublicKey_pem", pem); (lit "use_myPublicKey", use_my);
        (lit "output", out)].

End Terms.
Export Terms.

(* ================================================================== *)
(** * Properties *)
(* ================================================================== *)

Unset Implicit Arguments.

(** ** Running a computation *)

Section Running.
Context {P : Platform}.

Lemma bind_normal {A B} (m : M A) (f : A -> M B) {env w a w'} :
  m env w = (Normal a, w') -> bind m f env w = f a env w'.
Proof. unfold bind; intros ->; reflexivity. Qed.

Lemma bind_throw {A B} (m : M A) (f : A -> M B) {env w e w'} :
  m env w = (Throw e, w') -> bind m f env w = (Throw e, w').
Proof. unfold bind; intros ->; reflexivity. Qed.

Lemma catch_normal {A} (m : M A) (h : Exn -> M A) {env w a w'} :
  m env w = (Normal a, w') -> try_catch m h env w = (Normal a, w').
Proof. unfold try_catch; intros ->; reflexivity. Qed.

Lemma catch_throw {A} (m : M A) (h : Exn -> M A) {env w e w'} :
  m env w = (Throw e, w') -> try_catch m h env w = h e env w'.
Proof. unfold try_catch; intros ->; reflexivity. Qed.

Lemma catch_default_total {A} (m : M A) (d : A) env w :
  exists a, fst (try_catch m (fun _ => ret d) env w) = Normal a.
Proof.
  unfold try_catch, ret. destruct (m env w) as [[a|e] w1]; cbn; eauto.
Qed.

Lemma world_eta (w : World) : w = {| S_ := S_ w; events := events w ++ [] |}.
Proof. destruct w; cbn; now rewrite app_nil_r. Qed.

Lemma fetches_app (a b : list Event) : fetches (a ++ b) = fetches a ++ fetches b.
Proof. unfold fetches. apply flat_map_app. Qed.

Lemma added_app (w : World) (s : State) (evs : list Event) :
  added w {| S_ := s; events := events w ++ evs |} = evs.
Proof.
  unfold added; cbn. induction (events w) as [|x l IH]; cbn; auto.
Qed.

Lemma added_same (w : World) : added w w = [].
Proof. unfold added. apply skipn_all. Qed.

(** *** Quiet computations *)

Lemma quiet_ret {A} (a : A) : quiet (ret a).
Proof. intros env w; exists []; split; [apply world_eta | reflexivity]. Qed.

Lemma quiet_throw {A} e : quiet (@throw _ A e).
Proof. intros env w; exists []; split; [apply world_eta | reflexivity]. Qed.

Lemma quiet_lift {A} (c : Completion A) : quiet (lift c).
Proof. intros env w; exists []; split; [apply world_eta | reflexivity]. Qed.

Lemma quiet_read_S : quiet read_S.
Proof. intros env w; exists []; split; [apply world_eta | reflexivity]. Qed.

Lemma quiet_bind {A B} (m : M A) (f : A -> M B) :
  quiet m -> (forall a, quiet (f a)) -> quiet (bind m f).
Proof.
  intros Hm Hf env w. destruct (Hm env w) as (e1 & H1 & F1).
  unfold bind. destruct (m env w) as [[a|e] w1]; cbn in H1; subst w1.
  - destruct (Hf a env {| S_ := S_ w; events := events w ++ e1 |})
      as (e2 & H2 & F2).
    exists (e1 ++ e2). rewrite H2. cbn.
    rewrite app_assoc, fetches_app, F1, F2. auto.
  - exists e1. auto.
Qed.

Lemma quiet_try_catch {A} (m : M A) (h : Exn -> M A) :
  quiet m -> (forall e, quiet (h e)) -> quiet (try_catch m h).
Proof.
  intros Hm Hf env w. destruct (Hm env w) as (e1 & H1 & F1).
  unfold try_catch. destruct (m env w) as [[a|e] w1]; cbn in H1; subst w1.
  - exists e1. auto.
  - destruct (Hf e env {| S_ := S_ w; events := events w ++ e1 |})
      as (e2 & H2 & F2).
    exists (e1 ++ e2). rewrite H2. cbn.
    rewrite app_assoc, fetches_app, F1, F2. auto.
Qed.

Lemma quiet_provider {A} ev (r : option A) e :
  fetches [ev] = [] -> quiet (provider ev r e).
Proof. intros H env w; exists [ev]; split; [reflexivity | exact H]. Qed.

Lemma quiet_getRandomValues : quiet Eec.Aes.Gcm.getRandomValues.
Proof. intros env w; exists [EvGetRandomValues]; split; reflexivity. Qed.

Lemma quiet_run {A} {m : M A} {env w r w1} :
  quiet m -> m env w = (r, w1) ->
  exists evs, w1 = {| S_ := S_ w; events := events w ++ evs |}
              /\ fetches evs = [].
Proof.
  intros Q H. destruct (Q env w) as (evs & E & F). rewrite H in E. eauto.
Qed.

End Running.

Ltac munfold :=
  cbv beta iota delta [bind ret lift throw try_catch provider read_S write_S
                       fetch ask] in *.

Ltac divlia := zify; Z.to_euclidean_division_equations; lia.

Ltac quiet_tac :=
  repeat first
    [ apply quiet_bind; [|intro]
    | apply quiet_try_catch; [|intro]
    | apply quiet_ret | apply quiet_throw | apply quiet_lift
    | apply quiet_read_S
    | apply quiet_provider; reflexivity
    | apply quiet_getRandomValues
    | match goal with |- quiet (if ?b then _ else _) => destruct b end
    | match goal with |- quiet (match ?x with _ => _ end) => destruct x end ].

(** ** The primitive layer *)

Section Primitives.
Context {P : Platform}.

Lemma quiet_encryptStr data key : quiet (Eec.Aes.Gcm.encryptStr data key).
Proof.
  unfold Eec.Aes.Gcm.encryptStr, Eec.Aes.Gcm.encryptStr_body,
    Eec.Aes.Gcm.encrypt_with, Eec.Aes.Gcm.importKey, Eec.Aes.Gcm.b64,
    Eec.Aes.Gcm.check_key.
  quiet_tac.
Qed.

Lemma quiet_decryptStr data iv tag key :
  quiet (Eec.Aes.Gcm.decryptStr data iv tag key).
Proof.
  unfold Eec.Aes.Gcm.decryptStr, Eec.Aes.Gcm.decryptStr_body,
    Eec.Aes.Gcm.decrypt_with, Eec.Aes.Gcm.importKey, Eec.Aes.Gcm.unb64,
    Eec.Aes.Gcm.check_key.
  quiet_tac.
Qed.

Lemma quiet_sha256 v : quiet (Eec.Hash.sha256 v).
Proof. unfold Eec.Hash.sha256. quiet_tac. Qed.

Lemma sha256_value v env w :
  fst (Eec.Hash.sha256 v env w) = Normal (sha256_hex v).
Proof.
  unfold Eec.Hash.sha256, sha256_hex. munfold.
  destruct (Encoding.TextEncoder_encode v); cbn; [|reflexivity].
  destruct (subtle_digest _ _); reflexivity.
Qed.

(** [encryptStr] never throws and never touches [S]. *)
Lemma encryptStr_run data key env w :
  exists v evs,
    Eec.Aes.Gcm.encryptStr data key env w
    = (Normal v, {| S_ := S_ w; events := events w ++ evs |})
    /\ fetches evs = [].
Proof.
  destruct (catch_default_total (Eec.Aes.Gcm.encryptStr_body data key)
              (JObj []) env w) as [v Hv].
  fold (Eec.Aes.Gcm.encryptStr data key) in Hv.
  destruct (Eec.Aes.Gcm.encryptStr data key env w) as [r w1] eqn:E.
  destruct (quiet_run (quiet_encryptStr data key) E) as (evs & -> & F).
  cbn in Hv; subst r. eauto.
Qed.

(** [decryptStr] never throws, returns a string and never touches [S]. *)
Lemma decryptStr_run data iv tag key env w :
  exists s evs,
    Eec.Aes.Gcm.decryptStr data iv tag key env w
    = (Normal (JStr s), {| S_ := S_ w; events := events w ++ evs |})
    /\ fetches evs = [].
Proof.
  destruct (Eec.Aes.Gcm.decryptStr data iv tag key env w) as [r w1] eqn:E.
  destruct (quiet_run (quiet_decryptStr data iv tag key) E) as (evs & -> & F).
  revert E. unfold Eec.Aes.Gcm.decryptStr, Eec.Aes.Gcm.decryptStr_body, try_catch.
  unfold bind at 1.
  destruct (Eec.Aes.Gcm.decrypt_with data iv tag key env w) as [[d|e] w2];
    unfold ret; intros [= <- ->]; eauto.
Qed.

Lemma sha256_run v env w :
  exists evs,
    Eec.Hash.sha256 v env w
    = (Normal (sha256_hex v), {| S_ := S_ w; events := events w ++ evs |})
    /\ fetches evs = [].
Proof.
  pose proof (sha256_value v env w) as Hv.
  destruct (Eec.Hash.sha256 v env w) as [r w1] eqn:E.
  destruct (quiet_run (quiet_sha256 v) E) as (evs & -> & F).
  cbn in Hv; subst r. eauto.
Qed.

Lemma valid_key_length_legal (raw : list byte) :
  Eec.Aes.Gcm.valid_key_length raw = true <-> legal_length (List.length raw).
Proof.
  unfold Eec.Aes.Gcm.valid_key_length, legal_length. cbn.
  rewrite !orb_true_iff, !Nat.eqb_eq. intuition congruence.
Qed.

Lemma check_key_invalid (k : jsstring) env w :
  ~ legal_length (key_length k) ->
  Eec.Aes.Gcm.check_key (JStr k) env w
  = (Throw (Error Eec.Aes.Gcm.msg_invalid_key), w).
Proof.
  intros H. unfold Eec.Aes.Gcm.check_key, bind, lift, Encoding.TextEncoder_encode.
  cbn [ToString].
  destruct (Eec.Aes.Gcm.valid_key_length (Encoding.encode_string k)) eqn:E.
  - apply valid_key_length_legal in E. contradiction.
  - reflexivity.
Qed.

End Primitives.

(** C9 (amended).  For a key whose UTF-8 byte length is not 16, 24 or
    32, each of [encryptStr], [decryptStr], [encryptBytes] and
    [decryptBytes] stops at the length test: its [try] block throws the
    invalid-key error with the world as it was (no event added, so neither
    [importKey] nor [encrypt] nor [decrypt] nor [getRandomValues] was
    called).  The operation itself does not fail: its [catch] takes the
    error and the operation returns its failure value, the empty object,
    the empty string or the empty array. *)
Theorem C9_invalid_key_rejected_before_provider
  {P : Platform} (k : jsstring) (data iv tag : JsVal) (bytes : list byte)
  (env : Env) (w : World) :
  ~ legal_length (key_length k) ->
  Eec.Aes.Gcm.encryptStr_body data (JStr k) env w = (Throw invalid_key_error, w)
  /\ Eec.Aes.Gcm.decryptStr_body data iv tag (JStr k) env w = (Throw invalid_key_error, w)
  /\ Eec.Aes.Gcm.encryptBytes_body bytes (JStr k) env w = (Throw invalid_key_error, w)
  /\ Eec.Aes.Gcm.decryptBytes_body data iv tag (JStr k) env w = (Throw invalid_key_error, w)
  /\ Eec.Aes.Gcm.encryptStr data (JStr k) env w = (Normal (JObj []), w)
  /\ Eec.Aes.Gcm.decryptStr data iv tag (JStr k) env w = (Normal (JStr []), w)
  /\ Eec.Aes.Gcm.encryptBytes bytes (JStr k) env w = (Normal (JObj []), w)
  /\ Eec.Aes.Gcm.decryptBytes data iv tag (JStr k) env w = (Normal [], w).
Proof.
  intros H.
  pose proof (check_key_invalid k env w H) as C.
  assert (E : forall d, Eec.Aes.Gcm.encrypt_with (JStr k) d env w = (Throw invalid_key_error, w)).
  { intros d. unfold Eec.Aes.Gcm.encrypt_with. apply (bind_throw _ _ C). }
  assert (D : Eec.Aes.Gcm.decrypt_with data iv tag (JStr k) env w = (Throw invalid_key_error, w)).
  { unfold Eec.Aes.Gcm.decrypt_with. apply (bind_throw _ _ C). }
  assert (DS : Eec.Aes.Gcm.decryptStr_body data iv tag (JStr k) env w = (Throw invalid_key_error, w)).
  { unfold Eec.Aes.Gcm.decryptStr_body. apply (bind_throw _ _ D). }
  repeat split.
  - apply E.
  - exact DS.
  - apply E.
  - exact D.
  - unfold Eec.Aes.Gcm.encryptStr, Eec.Aes.Gcm.encryptStr_body.
    rewrite (catch_throw _ _ (E _)). reflexivity.
  - unfold Eec.Aes.Gcm.decryptStr. rewrite (catch_throw _ _ DS). reflexivity.
  - unfold Eec.Aes.Gcm.encryptBytes, Eec.Aes.Gcm.encryptBytes_body.
    rewrite (catch_throw _ _ (E _)). reflexivity.
  - unfold Eec.Aes.Gcm.decryptBytes, Eec.Aes.Gcm.decryptBytes_body.
    rewrite (catch_throw _ _ D). reflexivity.
Qed.

Lemma C9_witness :
  ~ legal_length (key_length (lit "short key"))
  /\ Eec.Aes.Gcm.encryptStr (P := Sim.platform) (JStr (lit "hello"))
       (JStr (lit "short key")) (Sim.env Sim.iv0 (NetworkError JNull))
       (Sim.established "short key")
     = (Normal (JObj []), Sim.established "short key").
Proof.
  assert (H : ~ legal_length (key_length (lit "short key"))).
  { unfold legal_length; cbn; lia. }
  split; [exact H|].
  apply (C9_invalid_key_rejected_before_provider (P := Sim.platform)
           (lit "short key") (JStr (lit "hello")) JNull JNull []
           (Sim.env Sim.iv0 (NetworkError JNull))
           (Sim.established "short key") H).
Defined.

(** C9, as stated, fails: with a key of nine bytes none of the four
    operations fails.  Each returns its failure value, no provider call
    made; and the empty string [decryptStr] returns is also what it
    returns, under a key of legal length, for the encryption of the empty
    text. *)
Lemma C9_counterexample :
  let env := Sim.env Sim.iv0 (NetworkError JNull) in
  let w := Sim.established "" in
  let bad := JStr (lit "short key") in
  let good := JStr (lit "0123456789abcdef") in
  let blob :=
    match fst (Eec.Aes.Gcm.encryptStr (P := Sim.platform) (JStr []) good env w) with
    | Normal b => b
    | Throw _ => JUndefined
    end in
  let data := member blob (lit "data") in
  let iv := member blob (lit "iv") in
  let tag := member blob (lit "tag") in
  let r1 := Eec.Aes.Gcm.encryptStr (P := Sim.platform) (JStr (lit "hello")) bad env w in
  let r2 := Eec.Aes.Gcm.decryptStr (P := Sim.platform) data iv tag bad env w in
  let r3 := Eec.Aes.Gcm.encryptBytes (P := Sim.platform) [x68; x69] bad env w in
  let r4 := Eec.Aes.Gcm.decryptBytes (P := Sim.platform) data iv tag bad env w in
  key_length (lit "short key") = 9%nat
  /\ ~ legal_length (key_length (lit "short key"))
  /\ fst r1 = Normal (JObj []) /\ events (snd r1) = []
  /\ fst r2 = Normal (JStr []) /\ events (snd r2) = []
  /\ fst r3 = Normal (JObj []) /\ events (snd r3) = []
  /\ fst r4 = Normal [] /\ events (snd r4) = []
  /\ legal_length (key_length (lit "0123456789abcdef"))
  /\ (exists t, tag = JStr t /\ List.length t = 24%nat)
  /\ fst (Eec.Aes.Gcm.decryptStr (P := Sim.platform) data iv tag good env w)
     = Normal (JStr []).
Proof.
  cbv zeta. split; [reflexivity|].
  split; [unfold legal_length; cbn; lia|].
  do 8 (split; [vm_compute; reflexivity|]).
  split; [left; reflexivity|].
  split; [eexists; split; vm_compute; reflexivity|].
  vm_compute. reflexivity.
Qed.

(** ** The secure request *)

Section SecureRequest.
Context {P : Platform}.

Lemma check_fails c env w :
  truthy (aes_key (S_ w)) = false ->
  Res.api.check c env w = (Throw (Error Res.msg_no_channel), w).
Proof.
  intros H. unfold Res.api.check. munfold. rewrite H.
  destruct c; reflexivity.
Qed.

Lemma check_passes_copy2 env w :
  truthy (aes_key (S_ w)) = true ->
  Res.api.check Copy2 env w = (Normal tt, w).
Proof. intros H. unfold Res.api.check. munfold. rewrite H. reflexivity. Qed.

Lemma check_passes_copy1 env w :
  truthy (aes_key (S_ w)) = true -> truthy (session_user (S_ w)) = true ->
  Res.api.check Copy1 env w = (Normal tt, w).
Proof.
  intros H1 H2. unfold Res.api.check. munfold. rewrite H1, H2. reflexivity.
Qed.

Lemma absent_or_empty_falsy v : absent_or_empty v -> truthy v = false.
Proof. intros [-> | [-> | ->]]; reflexivity. Qed.

Lemma present_nonempty_truthy v : present_nonempty v -> truthy v = true.
Proof. intros (s & -> & H). destruct s; [contradiction | reflexivity]. Qed.

(** A call whose entry check fails returns the failure triple and leaves
    the world as it was. *)
Lemma work_without_channel c operate args algorithm message env w :
  truthy (aes_key (S_ w)) = false ->
  Res.api.work c operate args algorithm message env w
  = (Normal (Res.api.failure c (Error Res.msg_no_channel)), w).
Proof.
  intros H. unfold Res.api.work, Res.api.work_body, Res.api.send.
  rewrite (catch_throw _ _
             (bind_throw _ _ (bind_throw _ _ (check_fails c env w H)))).
  reflexivity.
Qed.

End SecureRequest.

(** C2.  With the symmetric key absent or empty, [Res.api.work] returns
    the failure triple at once: the world after the call is the world
    before it, so no request was sent and no provider was called.  With
    the key present and not empty the entry check of the second copy
    passes; the check of the first copy passes when [S.session_user] is
    set as well, and fails when it is not. *)
Theorem C2_entry_check
  {P : Platform} (c : Copy) (operate args algorithm message : JsVal)
  (env : Env) (w : World) :
  (absent_or_empty (aes_key (S_ w)) ->
     Res.api.work c operate args algorithm message env w
     = (Normal (Res.api.failure c (Error Res.msg_no_channel)), w)
     /\ fetches (added w (snd (Res.api.work c operate args algorithm message env w))) = [])
  /\ (present_nonempty (aes_key (S_ w)) ->
        Res.api.check Copy2 env w = (Normal tt, w)
        /\ (truthy (session_user (S_ w)) = true ->
              Res.api.check Copy1 env w = (Normal tt, w))
        /\ (truthy (session_user (S_ w)) = false ->
              Res.api.check Copy1 env w = (Throw (Error Res.msg_no_channel), w))).
Proof.
  split.
  - intros H. apply absent_or_empty_falsy in H.
    rewrite (work_without_channel c operate args algorithm message env w H).
    split; [reflexivity|]. cbn [snd]. now rewrite added_same.
  - intros H. apply present_nonempty_truthy in H. repeat split.
    + now apply check_passes_copy2.
    + intros H2. now apply check_passes_copy1.
    + intros H2. unfold Res.api.check. munfold. rewrite H, H2. reflexivity.
Qed.

Lemma C2_witness :
  absent_or_empty (aes_key (S_ (Sim.established "")))
  /\ Res.api.work (P := Sim.platform) Copy1 (JStr (lit "get_user")) (JObj [])
       JUndefined JUndefined (Sim.env Sim.iv0 (NetworkError JNull))
       (Sim.established "")
     = (Normal (JBool false, JStr (lit "error"), JNum 999), Sim.established "")
  /\ present_nonempty (aes_key (S_ (Sim.established "0123456789abcdef")))
  /\ Res.api.check (P := Sim.platform) Copy2
       (Sim.env Sim.iv0 (NetworkError JNull)) (Sim.established "0123456789abcdef")
     = (Normal tt, Sim.established "0123456789abcdef").
Proof.
  assert (H1 : absent_or_empty (aes_key (S_ (Sim.established "")))).
  { right; right; reflexivity. }
  assert (H2 : present_nonempty (aes_key (S_ (Sim.established "0123456789abcdef")))).
  { eexists; split; [reflexivity | discriminate]. }
  split; [exact H1|]. split.
  - exact (proj1 (proj1 (C2_entry_check (P := Sim.platform) Copy1
                           (JStr (lit "get_user")) (JObj []) JUndefined JUndefined
                           (Sim.env Sim.iv0 (NetworkError JNull))
                           (Sim.established "")) H1)).
  - split; [exact H2|].
    exact (proj1 (proj2 (C2_entry_check (P := Sim.platform) Copy2
                           JNull JNull JNull JNull
                           (Sim.env Sim.iv0 (NetworkError JNull))
                           (Sim.established "0123456789abcdef")) H2)).
Defined.

Section SecureRequestRuns.
Context {P : Platform}.

Lemma get_normal v n : nullish v = false -> exists x, get v n = Normal x.
Proof. destruct v; cbn; intros; try discriminate; eauto. Qed.

Lemma get_throw v n e : get v n = Throw e -> nullish v = true.
Proof. destruct v; cbn; intros; try discriminate; auto. Qed.

Lemma get_normal_inv v n x : get v n = Normal x -> nullish v = false.
Proof. destruct v; cbn; intros; try discriminate; auto. Qed.

Lemma quiet_stringify v : quiet (Res.api.stringify v).
Proof. unfold Res.api.stringify. quiet_tac. Qed.

Lemma quiet_parse v : quiet (Res.api.parse v).
Proof. unfold Res.api.parse. quiet_tac. Qed.

Lemma quiet_check c : quiet (Res.api.check c).
Proof. unfold Res.api.check. quiet_tac. Qed.

Lemma quiet_receive res : quiet (Res.api.receive res).
Proof.
  unfold Res.api.receive. destruct res as [e|ok status json].
  - apply quiet_throw.
  - destruct (negb ok); [apply quiet_throw|].
    do 6 (apply quiet_bind; [first [apply quiet_lift | apply quiet_read_S]|intro]).
    apply quiet_bind; [apply quiet_decryptStr|intro].
    apply quiet_bind; [apply quiet_parse|intro]. apply quiet_ret.
Qed.

(** The part of [send] before the write of [S.session_user]. *)
Lemma send_normal c operate args algorithm message env w res w1 :
  Res.api.send c operate args algorithm message env w = (Normal res, w1) ->
  exists evs req,
    w1 = {| S_ := set_session_user (sha256_hex (aes_key (S_ w))) (S_ w);
            events := events w ++ evs ++ [EvFetch req] |}
    /\ fetches evs = []
    /\ header (lit "session_user") req = Some (sha256_hex (aes_key (S_ w)))
    /\ res = server env req.
Proof.
  unfold Res.api.send, Res.api.check, Res.api.stringify. munfold.
  destruct (match c with Copy1 => _ | Copy2 => _ end); [discriminate|].
  destruct (JSON_stringify _) as [t1|]; [|discriminate].
  destruct (negb (truthy algorithm)).
  - destruct (encryptStr_run (JStr t1) (aes_key (S_ w)) env w) as (v & e1 & -> & F1).
    destruct (JSON_stringify _) as [t2|]; [|discriminate].
    cbn [S_ events].
    destruct (sha256_run (aes_key (S_ w)) env {| S_ := S_ w; events := events w ++ e1 |})
      as (e2 & -> & F2).
    cbn [S_ events]. intros [= <- <-].
    exists (e1 ++ e2). eexists. rewrite <- !app_assoc. split; [reflexivity|].
    rewrite fetches_app, F1, F2. repeat split.
  - destruct (JSON_stringify _) as [t2|]; [|discriminate].
    destruct (sha256_run (aes_key (S_ w)) env w) as (e2 & -> & F2).
    cbn [S_ events]. intros [= <- <-].
    exists e2. eexists. rewrite <- !app_assoc. split; [reflexivity|]. repeat split; auto.
Qed.

Lemma send_throw c operate args algorithm message env w e w1 :
  Res.api.send c operate args algorithm message env w = (Throw e, w1) ->
  exists evs, w1 = {| S_ := S_ w; events := events w ++ evs |} /\ fetches evs = [].
Proof.
  unfold Res.api.send, Res.api.check, Res.api.stringify. munfold.
  destruct (match c with Copy1 => _ | Copy2 => _ end).
  { intros [= <- <-]. exists []. split; [apply world_eta | reflexivity]. }
  destruct (JSON_stringify _) as [t1|].
  2:{ intros [= <- <-]. exists []. split; [apply world_eta | reflexivity]. }
  destruct (negb (truthy algorithm)).
  - destruct (encryptStr_run (JStr t1) (aes_key (S_ w)) env w) as (v & e1 & -> & F1).
    destruct (JSON_stringify _) as [t2|].
    2:{ intros [= <- <-]. eauto. }
    cbn [S_ events].
    destruct (sha256_run (aes_key (S_ w)) env {| S_ := S_ w; events := events w ++ e1 |})
      as (e2 & -> & F2).
    discriminate.
  - destruct (JSON_stringify _) as [t2|].
    2:{ intros [= <- <-]. exists []. split; [apply world_eta | reflexivity]. }
    destruct (sha256_run (aes_key (S_ w)) env w) as (e2 & -> & F2).
    discriminate.
Qed.

Lemma receive_normal res env w result parsed w1 :
  Res.api.receive res env w = (Normal (result, parsed), w1) ->
  nullish result = false.
Proof.
  unfold Res.api.receive. destruct res as [e|ok status json]; [discriminate|].
  destruct (negb ok); [discriminate|]. munfold.
  destruct json as [r|e]; [|discriminate].
  destruct (get r (lit "data")) as [blob|e] eqn:G; [|discriminate].
  apply get_normal_inv in G.
  destruct (get blob (lit "data")); [|discriminate].
  destruct (get blob (lit "iv")); [|discriminate].
  destruct (get blob (lit "tag")); [|discriminate].
  destruct (Eec.Aes.Gcm.decryptStr _ _ _ _ _ _) as [[t|e] w2]; [|discriminate].
  unfold Res.api.parse. munfold.
  destruct t; try discriminate.
  destruct (JSON_parse s); [|discriminate].
  intros [= <- <- <-]. exact G.
Qed.

(** [rotate] installs the key of the payload, or throws before writing. *)
Lemma rotate_run result parsed env w :
  nullish result = false ->
  (exists k t, get parsed (lit "key") = Normal k
               /\ Res.api.rotate result parsed env w
                  = (Normal t, {| S_ := set_aes_key k (S_ w); events := events w |}))
  \/ (exists e, Res.api.rotate result parsed env w = (Throw e, w)).
Proof.
  intros R. unfold Res.api.rotate. munfold.
  destruct (get parsed (lit "key")) as [k|e] eqn:G.
  - left. exists k.
    destruct (get_normal parsed (lit "data") (get_normal_inv _ _ _ G)) as [d ->].
    destruct (get_normal result (lit "message") R) as [m ->].
    destruct (get_normal result (lit "code") R) as [cd ->].
    eauto.
  - right. eauto.
Qed.


Lemma catch_bind_normal {A B} (m : M A) (f : A -> M B) (h : Exn -> M B)
  {env w a w1} :
  m env w = (Normal a, w1) ->
  try_catch (bind m f) h env w = try_catch (f a) h env w1.
Proof. intros H. unfold try_catch. now rewrite (bind_normal _ _ H). Qed.

(** What follows the [fetch]: no further request; either the [catch]
    returns the failure triple with [S] as the request left it, or the
    payload was decrypted and parsed and its [key] member is the new
    [S.aes_key], nothing else of [S] changing. *)
Lemma after_send c res env w1 :
  exists r s' evs,
    try_catch (rp <- Res.api.receive res ;; Res.api.rotate (fst rp) (snd rp))
              (fun e => ret (Res.api.failure c e)) env w1
    = (Normal r, {| S_ := s'; events := events w1 ++ evs |})
    /\ fetches evs = []
    /\ ((exists e, r = Res.api.failure c e /\ s' = S_ w1)
        \/ (exists result parsed k,
              Res.api.receive res env w1
              = (Normal (result, parsed),
                 {| S_ := S_ w1; events := events w1 ++ evs |})
              /\ get parsed (lit "key") = Normal k
              /\ s' = set_aes_key k (S_ w1))).
Proof.
  destruct (Res.api.receive res env w1) as [[[result parsed]|e] w2] eqn:R;
    destruct (quiet_run (quiet_receive res) R) as (evs & -> & F).
  - pose proof (receive_normal _ _ _ _ _ _ R) as NN.
    rewrite (catch_bind_normal _ _ _ R). cbn [fst snd].
    destruct (rotate_run result parsed env
                {| S_ := S_ w1; events := events w1 ++ evs |} NN)
      as [(k & t & G & E) | (e & E)].
    + rewrite (catch_normal _ _ E). cbn [S_ events].
      exists t, (set_aes_key k (S_ w1)), evs. split; [reflexivity|].
      split; [exact F|]. right. exists result, parsed, k. auto.
    + rewrite (catch_throw _ _ E). unfold ret.
      exists (Res.api.failure c e), (S_ w1), evs. repeat split; eauto.
  - rewrite (catch_throw _ _ (bind_throw _ _ R)). unfold ret.
    exists (Res.api.failure c e), (S_ w1), evs. repeat split; eauto.
Qed.

(** A failed call has not rotated the key. *)
Lemma work_body_throw_keeps_key c operate args algorithm message env w e w' :
  Res.api.work_body c operate args algorithm message env w = (Throw e, w') ->
  aes_key (S_ w') = aes_key (S_ w)
  /\ rsa (S_ w') = rsa (S_ w) /\ pubPem (S_ w') = pubPem (S_ w).
Proof.
  unfold Res.api.work_body.
  destruct (Res.api.send c operate args algorithm message env w)
    as [[res|e1] w1] eqn:Es.
  - rewrite (bind_normal _ _ Es).
    destruct (send_normal _ _ _ _ _ _ _ _ _ Es) as (e0 & req & -> & _).
    set (w1 := {| S_ := _; events := _ |}).
    destruct (Res.api.receive res env w1) as [[[result parsed]|e2] w2] eqn:R;
      destruct (quiet_run (quiet_receive res) R) as (evs & -> & F).
    + pose proof (receive_normal _ _ _ _ _ _ R) as NN.
      rewrite (bind_normal _ _ R). cbn [fst snd].
      destruct (rotate_run result parsed env
                  {| S_ := S_ w1; events := events w1 ++ evs |} NN)
        as [(k & t & G & E) | (e3 & E)]; rewrite E.
      * discriminate.
      * intros [= <- <-]. cbn. auto.
    + rewrite (bind_throw _ _ R). intros [= <- <-]. cbn. auto.
  - rewrite (bind_throw _ _ Es). intros [= <- <-].
    destruct (send_throw _ _ _ _ _ _ _ _ _ Es) as (evs & -> & _). cbn. auto.
Qed.

End SecureRequestRuns.

(** C3 (amended).  When the response to the request of a call is not 2xx,
    the call returns the failure triple with code 999, and [S.aes_key],
    [S.rsa] and [S.pubPem] are what they were before the call;
    [S.session_user], written before the request went out, is the SHA-256
    hexadecimal hash of that unchanged key. *)
Theorem C3_non_2xx_keeps_key
  {P : Platform} (c : Copy) (operate args algorithm message : JsVal)
  (env : Env) (w w1 : World) (status : Z) (json : Completion JsVal) :
  Res.api.send c operate (Res.api.default_arg args (JObj []))
    (Res.api.default_arg algorithm (JStr []))
    (Res.api.default_arg message (JStr [])) env w
  = (Normal (Response false status json), w1) ->
  Res.api.work c operate args algorithm message env w
  = (Normal (Res.api.failure c (Res.http_error status)), w1)
  /\ snd (Res.api.failure c (Res.http_error status)) = JNum 999
  /\ aes_key (S_ w1) = aes_key (S_ w)
  /\ rsa (S_ w1) = rsa (S_ w)
  /\ pubPem (S_ w1) = pubPem (S_ w)
  /\ session_user (S_ w1) = sha256_hex (aes_key (S_ w)).
Proof.
  intros Es. split.
  - unfold Res.api.work, Res.api.work_body.
    rewrite (catch_bind_normal _ _ _ Es). reflexivity.
  - split; [destruct c; reflexivity|].
    destruct (send_normal _ _ _ _ _ _ _ _ _ Es) as (evs & req & -> & _).
    cbn. auto.
Qed.

Lemma C3_witness :
  let env := Sim.env Sim.iv0 (Response false 500 (Normal JNull)) in
  let w := Sim.established "0123456789abcdef" in
  let sent := Res.api.send (P := Sim.platform) Copy2 (JStr (lit "get_user"))
                (JObj []) (JStr []) (JStr []) env w in
  sent = (Normal (Response false 500 (Normal JNull)), snd sent)
  /\ Res.api.work (P := Sim.platform) Copy2 (JStr (lit "get_user"))
       JUndefined JUndefined JUndefined env w
     = (Normal (JBool false, Res.http_error 500, JNum 999), snd sent)
  /\ aes_key (S_ (snd sent)) = JStr (lit "0123456789abcdef").
Proof.
  intros env w sent.
  assert (H : sent = (Normal (Response false 500 (Normal JNull)), snd sent)).
  { vm_compute. reflexivity. }
  split; [exact H|].
  pose proof (C3_non_2xx_keeps_key (P := Sim.platform) Copy2
                (JStr (lit "get_user")) JUndefined JUndefined JUndefined
                env w (snd sent) 500 (Normal JNull) H) as T.
  split; [exact (proj1 T) | exact (proj1 (proj2 (proj2 T)))].
Defined.

(** C3, as stated, fails: on a channel just established ([S.session_user]
    still null) a request answered with status 500 comes back with code
    999 and the key in place, but the channel state is not what it was:
    [S.session_user] now holds the hash. *)
Lemma C3_counterexample :
  let env := Sim.env Sim.iv0 (Response false 500 (Normal JNull)) in
  let w := Sim.established "0123456789abcdef" in
  let r := Res.api.work (P := Sim.platform) Copy2 (JStr (lit "get_user"))
             (JObj []) (JStr []) (JStr []) env w in
  fst r = Normal (JBool false, Res.http_error 500, JNum 999)
  /\ aes_key (S_ (snd r)) = aes_key (S_ w)
  /\ session_user (S_ w) = JNull
  /\ session_user (S_ (snd r)) = sha256_hex (P := Sim.platform) (aes_key (S_ w))
  /\ session_user (S_ (snd r)) <> session_user (S_ w)
  /\ S_ (snd r) <> S_ w.
Proof.
  cbv zeta. repeat split; try (vm_compute; reflexivity).
  - intros H. vm_compute in H. discriminate.
  - intros H. apply (f_equal session_user) in H. vm_compute in H. discriminate.
Qed.

(** C7 (what the code does).  When the [try] block of [Res.api.work]
    throws, the call returns a triple whose first element is [false] and
    whose third is 999, and the key is not rotated.  The second element is
    the string ["error"] in the first copy; in the second copy it is the
    caught value itself, an Error object for every exception the block
    raises, which is where the code departs from the specification and
    from its own [@returns {Promise<[any, string, number]>}]. *)
Theorem C7_failure_triple
  {P : Platform} (c : Copy) (operate args algorithm message : JsVal)
  (env : Env) (w w' : World) (e : Exn) :
  Res.api.work_body c operate (Res.api.default_arg args (JObj []))
    (Res.api.default_arg algorithm (JStr []))
    (Res.api.default_arg message (JStr [])) env w = (Throw e, w') ->
  exists second,
    Res.api.work c operate args algorithm message env w
    = (Normal (JBool false, second, JNum 999), w')
    /\ aes_key (S_ w') = aes_key (S_ w)
    /\ (c = Copy1 -> second = JStr (lit "error"))
    /\ (c = Copy2 -> second = e).
Proof.
  intros H. exists (snd (fst (Res.api.failure c e))).
  unfold Res.api.work. rewrite (catch_throw _ _ H). unfold ret.
  split; [destruct c; reflexivity|].
  split; [apply (work_body_throw_keeps_key _ _ _ _ _ _ _ _ _ H)|].
  split; intros ->; reflexivity.
Qed.

Lemma C7_witness :
  let env := Sim.env Sim.iv0 (Response false 500 (Normal JNull)) in
  let w := Sim.established "0123456789abcdef" in
  let body := Res.api.work_body (P := Sim.platform) Copy2
                (JStr (lit "get_user")) (JObj []) (JStr []) (JStr []) env w in
  body = (Throw (JErr (lit "Error") (Res.msg_http_error ++ lit "500")), snd body)
  /\ exists second,
       Res.api.work (P := Sim.platform) Copy2 (JStr (lit "get_user"))
         JUndefined JUndefined JUndefined env w
       = (Normal (JBool false, second, JNum 999), snd body)
       /\ second = JErr (lit "Error") (Res.msg_http_error ++ lit "500").
Proof.
  intros env w body.
  assert (H : body = (Throw (JErr (lit "Error") (Res.msg_http_error ++ lit "500")),
                      snd body)).
  { vm_compute. reflexivity. }
  split; [exact H|].
  destruct (C7_failure_triple (P := Sim.platform) Copy2 (JStr (lit "get_user"))
              JUndefined JUndefined JUndefined env w (snd body) _ H)
    as (second & E & _ & _ & E2).
  exists second. split; [exact E | exact (E2 eq_refl)].
Defined.

(** C6 (what the code does).  With an algorithm that is not empty the
    branch that would compress is empty: once the entry check has passed,
    the call goes on, builds the envelope with [content] undefined and
    [compression] true, and sends it; the one request of the call carries
    the serialisation of that envelope. *)
Theorem C6_algorithm_sends_envelope_without_content
  {P : Platform} (c : Copy) (operate args algorithm message : JsVal)
  (env : Env) (w : World) (t1 t2 : jsstring) :
  truthy algorithm = true ->
  Res.api.check c env w = (Normal tt, w) ->
  JSON_stringify
    (JObj [(lit "operate", operate);
           (lit "args", Res.api.default_arg args (JObj []))]) = Some t1 ->
  JSON_stringify
    (JObj [(lit "message", Res.api.default_arg message (JStr []));
           (lit "compression", JBool true);
           (lit "algorithm", algorithm);
           (lit "content", JUndefined)]) = Some t2 ->
  exists req,
    fetches (added w (snd (Res.api.work c operate args algorithm message env w)))
    = [req]
    /\ url req = lit "/api"
    /\ body req = Text t2.
Proof.
  intros T C S1 S2.
  assert (DA : Res.api.default_arg algorithm (JStr []) = algorithm).
  { destruct algorithm; try reflexivity; discriminate. }
  assert (NE : Res.api.not_empty_string algorithm = true).
  { destruct algorithm as [| | | | [|]| | |]; try reflexivity; discriminate. }
  set (req := {| url := lit "/api"; method := lit "POST";
                 headers := [(lit "Content-Type", JStr (lit "application/json"));
                             (lit "session_user", sha256_hex (aes_key (S_ w)))];
                 credentials := Some (lit "include");
                 body := Text t2 |}).
  destruct (sha256_run (aes_key (S_ w)) env w) as (e2 & Hh & F2).
  assert (Es : Res.api.send c operate (Res.api.default_arg args (JObj []))
                 (Res.api.default_arg algorithm (JStr []))
                 (Res.api.default_arg message (JStr [])) env w
               = (Normal (server env req),
                  {| S_ := set_session_user (sha256_hex (aes_key (S_ w))) (S_ w);
                     events := (events w ++ e2) ++ [EvFetch req] |})).
  { unfold Res.api.send. rewrite (bind_normal _ _ C).
    unfold Res.api.stringify. rewrite DA, S1, T. cbn [negb]. munfold.
    rewrite NE, S2, Hh. reflexivity. }
  unfold Res.api.work, Res.api.work_body.
  rewrite (catch_bind_normal _ _ _ Es).
  match goal with
  | |- context [try_catch _ _ env ?w1] =>
      destruct (after_send c (server env req) env w1) as (r & s' & evs & -> & F & _)
  end.
  exists req. cbn [snd events]. rewrite <- !app_assoc, added_app.
  rewrite !fetches_app, F2, F. cbn. auto.
Qed.

Lemma C6_witness :
  let env := Sim.env Sim.iv0 (Response false 400 (Normal JNull)) in
  let w := Sim.established "0123456789abcdef" in
  truthy (JStr (lit "gzip")) = true
  /\ Res.api.check (P := Sim.platform) Copy2 env w = (Normal tt, w)
  /\ exists req,
       fetches (added w (snd (Res.api.work (P := Sim.platform) Copy2
                                (JStr (lit "get_user")) (JObj [])
                                (JStr (lit "gzip")) (JStr []) env w)))
       = [req]
       /\ url req = lit "/api"
       /\ body req
          = Text (lit "{" ++ [34%N] ++ lit "message" ++ [34%N] ++ lit ":"
                    ++ [34%N; 34%N] ++ lit "," ++ [34%N] ++ lit "compression"
                    ++ [34%N] ++ lit ":true," ++ [34%N] ++ lit "algorithm"
                    ++ [34%N] ++ lit ":" ++ [34%N] ++ lit "gzip" ++ [34%N]
                    ++ lit "}").
Proof.
  intros env w.
  split; [reflexivity|]. split; [reflexivity|].
  exact (C6_algorithm_sends_envelope_without_content (P := Sim.platform) Copy2
           (JStr (lit "get_user")) (JObj []) (JStr (lit "gzip")) (JStr [])
           env w _ _ eq_refl eq_refl eq_refl eq_refl).
Defined.

(** ** Rekeying *)

Section Rekeying.
Context {P : Platform}.

Lemma bind_inv {A B} (m : M A) (f : A -> M B) env w b w2 :
  bind m f env w = (Normal b, w2) ->
  exists a w1, m env w = (Normal a, w1) /\ f a env w1 = (Normal b, w2).
Proof.
  unfold bind. destruct (m env w) as [[a|e] w1]; [eauto | discriminate].
Qed.

(** A successful cycle is a call that returned from its [try] block, and
    it leaves the key of the payload in [S.aes_key]. *)
Lemma cycle_rotates c cl w k w2 :
  cycle c cl w = Some (k, w2) ->
  aes_key (S_ w2) = k /\ exists t, call c cl w = (Normal t, w2).
Proof.
  unfold cycle, call, Res.api.work, Res.api.work_body.
  set (snd_ := Res.api.send _ _ _ _ _).
  destruct ((res <- snd_ ;; Res.api.receive res) (call_env cl) w)
    as [[[result parsed]|e] w1] eqn:E; [|discriminate].
  destruct (bind_inv _ _ _ _ _ _ E) as (res & w0 & Es & R).
  pose proof (receive_normal _ _ _ _ _ _ R) as NN.
  destruct (rotate_run result parsed (call_env cl) w1 NN)
    as [(k' & t & G & Er) | (e & Er)]; rewrite Er, ?G; [|discriminate].
  intros [= <- <-]. split; [reflexivity|].
  exists t. rewrite (catch_bind_normal _ _ _ Es).
  rewrite (catch_bind_normal _ _ _ R). cbn [fst snd].
  now rewrite (catch_normal _ _ Er).
Qed.

Lemma cycles_last c cs : forall w0 keys w,
  cycles c cs w0 = Some (keys, w) ->
  List.length keys = List.length cs
  /\ (cs <> [] -> aes_key (S_ w) = last keys JUndefined).
Proof.
  induction cs as [|cl rest IH]; intros w0 keys w; cbn [cycles].
  - intros [= <- <-]. split; [reflexivity | congruence].
  - destruct (cycle c cl w0) as [[k w1]|] eqn:C; [|discriminate].
    destruct (cycles c rest w1) as [[ks w2]|] eqn:Cs; [|discriminate].
    intros [= <- <-]. destruct (IH _ _ _ Cs) as (L & K).
    split; [cbn; congruence|]. intros _.
    destruct rest as [|cl' rest'].
    + cbn in Cs. injection Cs as <- <-. cbn.
      apply (cycle_rotates _ _ _ _ _ C).
    + destruct ks as [|k' ks']; [discriminate|].
      change (last (k :: k' :: ks') JUndefined) with (last (k' :: ks') JUndefined).
      apply K. discriminate.
Qed.

(** The requests of one call: none, or one whose [session_user] header is
    the hash of the key the call found in [S]. *)
Lemma call_requests c cl w :
  forall req, In req (fetches (added w (snd (call c cl w)))) ->
              header (lit "session_user") req = Some (sha256_hex (aes_key (S_ w))).
Proof.
  intros req. unfold call, Res.api.work, Res.api.work_body.
  set (snd_ := Res.api.send _ _ _ _ _).
  destruct (snd_ (call_env cl) w) as [[res|e] w1] eqn:Es; subst snd_.
  - rewrite (catch_bind_normal _ _ _ Es).
    destruct (send_normal _ _ _ _ _ _ _ _ _ Es) as (e0 & rq & -> & F0 & H & _).
    match goal with
    | |- context [try_catch _ _ _ ?w1] =>
        destruct (after_send c res (call_env cl) w1) as (r & s' & evs & -> & F & _)
    end.
    cbn [snd events]. rewrite <- !app_assoc, added_app.
    rewrite !fetches_app, F0, F. cbn. intros [<- | []]. exact H.
  - rewrite (catch_throw _ _ (bind_throw _ _ Es)). unfold ret. cbn [snd].
    destruct (send_throw _ _ _ _ _ _ _ _ _ Es) as (evs & -> & F).
    rewrite added_app, F. intros [].
Qed.

End Rekeying.

(** *** Hexadecimal text of a digest *)

Section HexText.

Lemma hex_pair_text (b : byte) :
  [Encoding.hex_digit (Byte.to_N b / 16); Encoding.hex_digit (Byte.to_N b mod 16)]
  = [nth (N.to_nat (Byte.to_N b / 16)) hex_digits 0%N;
     nth (N.to_nat (Byte.to_N b mod 16)) hex_digits 0%N].
Proof. destruct b; reflexivity. Qed.

(** The code's writer produces the hexadecimal text of the
    specification. *)
Lemma hex_of_bytes_text (d : list byte) : Encoding.hex_of_bytes d = hex_text d.
Proof.
  unfold Encoding.hex_of_bytes, hex_text.
  induction d as [|b d IH]; [reflexivity|].
  cbn [flat_map]. rewrite IH. cbv zeta. now rewrite hex_pair_text.
Qed.

End HexText.

(** C1.  After N >= 1 successful cycles, [S.aes_key] is the key member
    of the payload decrypted in cycle N, and every request the next call
    sends carries as its [session_user] header the SHA-256 hexadecimal
    hash of that key: when the provider's SHA-256 digest of the key's
    UTF-8 bytes is [d], the header is the text that writes each byte of
    [d] as two digits of [0123456789abcdef].  The header is what
    [Eec.Hash.sha256] computes from that key during that call; it depends
    on nothing older, neither on the key of the handshake nor on the key
    of cycle N-1. *)
Theorem C1_session_identifier_follows_key
  {P : Platform} (c : Copy) (cs : list Call) (next : Call)
  (w0 w : World) (keys : list JsVal) :
  (1 <= List.length cs)%nat ->
  cycles c cs w0 = Some (keys, w) ->
  exists k,
    nth_error keys (List.length cs - 1) = Some k
    /\ aes_key (S_ w) = k
    /\ (forall bs d,
          Encoding.TextEncoder_encode k = Normal bs ->
          subtle_digest (lit "SHA-256") bs = Some d ->
          forall req, In req (fetches (added w (snd (call c next w)))) ->
                      header (lit "session_user") req = Some (JStr (hex_text d)))
    /\ (forall req, In req (fetches (added w (snd (call c next w)))) ->
                    header (lit "session_user") req = Some (sha256_hex k)).
Proof.
  intros N H. destruct (cycles_last c cs _ _ _ H) as (L & K).
  assert (NE : cs <> []) by (destruct cs; [cbn in N; lia | discriminate]).
  exists (last keys JUndefined). split; [|split; [|split]].
  - rewrite <- L. destruct keys as [|k0 ks] using rev_ind.
    + destruct cs; [congruence | discriminate].
    + rewrite last_last, length_app. cbn.
      rewrite nth_error_app2 by lia.
      replace (List.length ks + 1 - 1 - List.length ks)%nat with 0%nat by lia.
      reflexivity.
  - auto.
  - intros bs d E D req Hr. rewrite <- (K NE) in E.
    rewrite (call_requests c next w req Hr).
    unfold sha256_hex. now rewrite E, D, hex_of_bytes_text.
  - rewrite <- (K NE). apply call_requests.
Qed.

(** Two cycles on the simulated platform: the server answers the first
    request under the handshake key with the key ["fedcba9876543210"], and
    the second under that key with ["00112233445566778899aabb"]; the third
    request carries the 64 digits of the digest of that last key. *)
Lemma C1_witness :
  let reply key next :=
    Response true 200
      (Normal (Sim.envelope key
                 (JObj [(lit "data", JNum 1); (lit "key", JStr (lit next))]) 0)) in
  let cl key next :=
    {| call_operate := JStr (lit "get_user"); call_args := JObj [];
       call_algorithm := JUndefined; call_message := JUndefined;
       call_env := Sim.env Sim.iv0 (reply key next) |} in
  let cs := [cl "0123456789abcdef"%string "fedcba9876543210"%string;
             cl "fedcba9876543210"%string "00112233445566778899aabb"%string] in
  let run := cycles (P := Sim.platform) Copy2 cs (Sim.established "0123456789abcdef"%string) in
  let third := cl "00112233445566778899aabb"%string "x"%string in
  let d := Sim.checksum (Encoding.encode_string (lit "00112233445566778899aabb")) in
  (1 <= List.length cs)%nat
  /\ option_map fst run
     = Some [JStr (lit "fedcba9876543210"); JStr (lit "00112233445566778899aabb")]
  /\ List.length (hex_text d) = 64%nat
  /\ match run with
     | Some (_, w) =>
         map (header (lit "session_user"))
           (fetches (added w (snd (call (P := Sim.platform) Copy2 third w))))
     | None => []
     end = [Some (JStr (hex_text d))]
  /\ exists keys w,
       run = Some (keys, w)
       /\ exists k,
            nth_error keys (List.length cs - 1) = Some k
            /\ aes_key (S_ w) = k
            /\ (forall bs d,
                  Encoding.TextEncoder_encode k = Normal bs ->
                  subtle_digest (Platform := Sim.platform) (lit "SHA-256") bs = Some d ->
                  forall req,
                    In req (fetches (added w (snd (call (P := Sim.platform) Copy2 third w)))) ->
                    header (lit "session_user") req = Some (JStr (hex_text d)))
            /\ (forall req,
                  In req (fetches (added w (snd (call (P := Sim.platform) Copy2 third w)))) ->
                  header (lit "session_user") req = Some (sha256_hex (P := Sim.platform) k)).
Proof.
  intros reply cl cs run third d.
  assert (N : (1 <= List.length cs)%nat) by (cbn; lia).
  assert (K : option_map fst run
              = Some [JStr (lit "fedcba9876543210");
                      JStr (lit "00112233445566778899aabb")])
    by (vm_compute; reflexivity).
  split; [exact N|]. split; [exact K|].
  split; [vm_compute; reflexivity|].
  split; [vm_compute; reflexivity|].
  destruct run as [[keys w]|] eqn:R; [|discriminate K].
  exists keys, w. split; [reflexivity|].
  exact (C1_session_identifier_follows_key (P := Sim.platform) Copy2 cs
           third (Sim.established "0123456789abcdef"%string) w keys N R).
Defined.

(** ** Tampered responses *)

Section Tampering.
Context {P : Platform}.

(** The [try] block of [decryptStr] throws on fields that are not
    genuine, whatever the step at which it stops. *)
Lemma decrypt_with_not_genuine data iv tag key env w :
  gcm_authentic -> ~ genuine key data iv tag ->
  exists e w', Eec.Aes.Gcm.decrypt_with data iv tag key env w = (Throw e, w').
Proof.
  intros A NG.
  unfold Eec.Aes.Gcm.decrypt_with, Eec.Aes.Gcm.check_key,
    Eec.Aes.Gcm.importKey, Eec.Aes.Gcm.unb64.
  munfold.
  destruct (Encoding.TextEncoder_encode key) as [raw|e] eqn:K; [|eauto].
  destruct (Eec.Aes.Gcm.valid_key_length raw); [|eauto].
  destruct (subtle_importKey raw) as [ck|] eqn:I; [|eauto].
  destruct (Base64.atob_val iv) as [ivs|e] eqn:B1; [|eauto].
  destruct (Base64.atob_val data) as [cts|e] eqn:B2; [|eauto].
  destruct (Base64.atob_val tag) as [tags|e] eqn:B3; [|eauto].
  destruct (subtle_decrypt ck _ _) as [pt|] eqn:D; [|eauto].
  exfalso. apply NG. exists raw, ck, ivs, cts, tags, pt.
  repeat split; auto.
Qed.

Lemma decryptStr_not_genuine data iv tag key env w :
  gcm_authentic -> ~ genuine key data iv tag ->
  (exists e w', Eec.Aes.Gcm.decryptStr_body data iv tag key env w = (Throw e, w'))
  /\ fst (Eec.Aes.Gcm.decryptStr data iv tag key env w) = Normal (JStr []).
Proof.
  intros A NG.
  destruct (decrypt_with_not_genuine data iv tag key env w A NG) as (e & w' & D).
  assert (B : Eec.Aes.Gcm.decryptStr_body data iv tag key env w = (Throw e, w')).
  { unfold Eec.Aes.Gcm.decryptStr_body. apply (bind_throw _ _ D). }
  split; [eauto|].
  unfold Eec.Aes.Gcm.decryptStr. now rewrite (catch_throw _ _ B).
Qed.

(** The response of a tampered exchange never gets past [JSON.parse]. *)
Lemma receive_not_genuine res env w :
  gcm_authentic -> json_rejects_empty ->
  (forall status result blob data iv tag,
     res = Response true status (Normal result) ->
     get result (lit "data") = Normal blob ->
     get blob (lit "data") = Normal data ->
     get blob (lit "iv") = Normal iv ->
     get blob (lit "tag") = Normal tag ->
     ~ genuine (aes_key (S_ w)) data iv tag) ->
  exists e w', Res.api.receive res env w = (Throw e, w').
Proof.
  intros A J NG. unfold Res.api.receive.
  destruct res as [e|ok status json]; [unfold throw; eauto|].
  destruct ok; cbn [negb]; [|unfold throw; eauto].
  munfold.
  destruct json as [result|e]; [|eauto].
  destruct (get result (lit "data")) as [blob|e] eqn:G0; [|eauto].
  destruct (get blob (lit "data")) as [data|e] eqn:G1; [|eauto].
  destruct (get blob (lit "iv")) as [iv|e] eqn:G2; [|eauto].
  destruct (get blob (lit "tag")) as [tag|e] eqn:G3; [|eauto].
  specialize (NG status result blob data iv tag eq_refl G0 G1 G2 G3).
  destruct (decryptStr_not_genuine data iv tag (aes_key (S_ w)) env w A NG)
    as (_ & D).
  destruct (Eec.Aes.Gcm.decryptStr data iv tag (aes_key (S_ w)) env w)
    as [r w2]. cbn in D. subst r.
  unfold Res.api.parse. munfold. rewrite J. eauto.
Qed.

End Tampering.

Section TagTampering.
Context {P : Platform}.

(** A genuine response whose 16 tag bytes are replaced by others is not
    genuine any more, the tag being determined by what it authenticates. *)
Lemma retagged_not_genuine key data iv tag tag' ts ts' :
  gcm_tag_binds ->
  genuine key data iv tag ->
  Base64.atob_val tag = Normal ts -> Base64.atob_val tag' = Normal ts' ->
  List.length ts = 16%nat -> List.length ts' = 16%nat ->
  Encoding.bytes_of_binary ts' <> Encoding.bytes_of_binary ts ->
  ~ genuine key data iv tag'.
Proof.
  intros B (raw & ck & ivs & cts & tags & pt & K & I & B1 & B2 & B3 & E) T T' L L' D
         (raw' & ck' & ivs' & cts' & tags' & pt' & K' & I' & B1' & B2' & B3' & E').
  rewrite K in K'. injection K' as <-. rewrite I in I'. injection I' as <-.
  rewrite B1 in B1'. injection B1' as <-. rewrite B2 in B2'. injection B2' as <-.
  rewrite T in B3. injection B3 as <-. rewrite T' in B3'. injection B3' as <-.
  apply D. symmetry.
  refine (B ck _ pt pt' _ _ _ _ _ E E');
    unfold Encoding.bytes_of_binary; now rewrite length_map.
Qed.

End TagTampering.

(** C4 (amended).  Assume the provider's AES-GCM decryption accepts only
    the output of its encryption under the same key and IV, and that
    [JSON.parse] rejects the empty text.  If the bytes that the [data] and
    [tag] of every response decode to are not such an output under the
    current key and the response's IV, the call returns the failure triple
    and [S.aes_key] keeps its value.  On such fields the [try] block of
    [decryptStr] throws and [decryptStr] itself returns the empty string.
    Such are, on a provider whose tag is determined by key, IV and
    ciphertext, the fields of a genuine response with other bytes for its
    16-byte tag. *)
Theorem C4_tampered_response_rejected
  {P : Platform} (c : Copy) (operate args algorithm message : JsVal)
  (env : Env) (w : World) :
  gcm_authentic -> json_rejects_empty ->
  ((forall req status result blob data iv tag,
      server env req = Response true status (Normal result) ->
      get result (lit "data") = Normal blob ->
      get blob (lit "data") = Normal data ->
      get blob (lit "iv") = Normal iv ->
      get blob (lit "tag") = Normal tag ->
      ~ genuine (aes_key (S_ w)) data iv tag) ->
   exists e w',
     Res.api.work c operate args algorithm message env w
     = (Normal (Res.api.failure c e), w')
     /\ aes_key (S_ w') = aes_key (S_ w))
  /\ (forall data iv tag env' w0,
        ~ genuine (aes_key (S_ w)) data iv tag ->
        (exists e w', Eec.Aes.Gcm.decryptStr_body data iv tag (aes_key (S_ w)) env' w0
                      = (Throw e, w'))
        /\ fst (Eec.Aes.Gcm.decryptStr data iv tag (aes_key (S_ w)) env' w0)
           = Normal (JStr []))
  /\ (gcm_tag_binds ->
      forall data iv tag tag' ts ts',
        genuine (aes_key (S_ w)) data iv tag ->
        Base64.atob_val tag = Normal ts -> Base64.atob_val tag' = Normal ts' ->
        List.length ts = 16%nat -> List.length ts' = 16%nat ->
        Encoding.bytes_of_binary ts' <> Encoding.bytes_of_binary ts ->
        ~ genuine (aes_key (S_ w)) data iv tag').
Proof.
  intros A J. split; [|split].
  2:{ intros. now apply decryptStr_not_genuine. }
  2:{ intros B data iv tag tag' ts ts'. now apply retagged_not_genuine. }
  intros NG.
  assert (T : exists e w',
             Res.api.work_body c operate (Res.api.default_arg args (JObj []))
               (Res.api.default_arg algorithm (JStr []))
               (Res.api.default_arg message (JStr [])) env w = (Throw e, w')).
  { unfold Res.api.work_body.
    match goal with
    | |- context [Res.api.send ?a ?b ?x ?y ?z] =>
        destruct (Res.api.send a b x y z env w) as [[res|e] w1] eqn:Es
    end.
    - rewrite (bind_normal _ _ Es).
      destruct (send_normal _ _ _ _ _ _ _ _ _ Es) as (e0 & req & -> & _ & _ & ->).
      match goal with
      | |- context [Res.api.receive ?res] =>
          destruct (receive_not_genuine res env
                      {| S_ := set_session_user (sha256_hex (aes_key (S_ w))) (S_ w);
                         events := events w ++ e0 ++ [EvFetch req] |} A J)
            as (e & w' & R)
      end.
      + intros status result blob data iv tag Hs. apply (NG req status result blob data iv tag Hs).
      + rewrite (bind_throw _ _ R). eauto.
    - rewrite (bind_throw _ _ Es). eauto. }
  destruct T as (e & w' & T). exists e, w'.
  unfold Res.api.work. rewrite (catch_throw _ _ T). split; [reflexivity|].
  apply (work_body_throw_keeps_key _ _ _ _ _ _ _ _ _ T).
Qed.

(** *** The simulated platform obeys the assumptions *)

Lemma app_same_length {A} (a c b d : list A) :
  List.length a = List.length c -> a ++ b = c ++ d -> a = c /\ b = d.
Proof.
  revert c. induction a as [|x a IH]; intros [|y c] L E; try discriminate.
  - auto.
  - cbn in E. injection E as -> E. injection L as L.
    destruct (IH c L E) as [-> ->]. auto.
Qed.

Lemma app_same_tail_length {A} (a c b d : list A) :
  List.length b = List.length d -> a ++ b = c ++ d -> a = c /\ b = d.
Proof.
  intros L E. apply (app_same_length a c b d); [|exact E].
  apply (f_equal (@List.length A)) in E. rewrite !length_app in E. lia.
Qed.

Lemma shift_up_down b : Sim.shift_up (Sim.shift_down b) = b.
Proof. destruct b; reflexivity. Qed.

Lemma shift_down_up b : Sim.shift_down (Sim.shift_up b) = b.
Proof. destruct b; reflexivity. Qed.

Lemma tag_of_length (k iv ct : list byte) :
  List.length (Sim.tag_of k iv ct) = 16%nat.
Proof.
  unfold Sim.tag_of, Sim.checksum.
  rewrite firstn_length_le; [reflexivity|].
  rewrite length_map, length_seq. lia.
Qed.

Lemma Sim_authentic : gcm_authentic (P := Sim.platform).
Proof.
  intros ck iv c pt. cbn. unfold Sim.decrypt, Sim.encrypt.
  destruct (_ && _) eqn:E; [|discriminate].
  apply andb_true_iff in E as [_ E]. unfold Sim.list_byte_eqb in E.
  destruct (list_eq_dec _ _ _) as [T|]; [|discriminate].
  intros [= <-]. rewrite map_map.
  rewrite (map_ext _ (fun b => b)) by apply shift_up_down.
  rewrite map_id, <- T. now rewrite firstn_skipn.
Qed.

Lemma Sim_inverts : gcm_inverts (P := Sim.platform).
Proof.
  intros ck iv pt L. cbn. unfold Sim.decrypt, Sim.encrypt.
  eexists; split; [reflexivity|].
  set (ct := map Sim.shift_up pt).
  pose proof (tag_of_length ck iv ct) as T.
  assert (N : (List.length (ct ++ Sim.tag_of ck iv ct) - 16 = List.length ct)%nat).
  { rewrite length_app, T. lia. }
  rewrite N, firstn_app, skipn_app, firstn_all, skipn_all, Nat.sub_diag.
  cbn [firstn skipn app]. rewrite app_nil_r.
  replace (16 <=? List.length (ct ++ Sim.tag_of ck iv ct))%nat with true
    by (symmetry; apply Nat.leb_le; rewrite length_app, T; lia).
  unfold Sim.list_byte_eqb. destruct (list_eq_dec _ _ _); [|congruence].
  cbn. unfold ct. rewrite map_map, (map_ext _ (fun b => b)) by apply shift_down_up.
  now rewrite map_id.
Qed.

Lemma Sim_imports : gcm_imports (P := Sim.platform).
Proof. intros raw H. cbn. unfold Sim.importKey. rewrite H. eauto. Qed.

Lemma Sim_tag_binds : gcm_tag_binds (P := Sim.platform).
Proof.
  intros ck iv pt pt' ct tag tag' L L' E E'. cbn in E, E'.
  unfold Sim.encrypt in E, E'. cbv zeta in E, E'.
  injection E as E. injection E' as E'.
  apply app_same_tail_length in E as [Ea Eb]; [|now rewrite tag_of_length].
  apply app_same_tail_length in E' as [Ea' Eb']; [|now rewrite tag_of_length].
  rewrite <- Eb, <- Eb', Ea, Ea'. reflexivity.
Qed.

(** The response [Sim.tampered] carries the ciphertext and the IV of a
    genuine response and a tag made under another key. *)
Lemma C4_witness :
  let env := Sim.env Sim.iv0 Sim.tampered in
  let w := Sim.established "0123456789abcdef" in
  let payload := JObj [(lit "data", JNum 1);
                       (lit "key", JStr (lit "fedcba9876543210"))] in
  let blob key := member (Sim.envelope key payload 0) (lit "data") in
  let sent := blob "0123456789abcdef"%string in
  let received := blob "WRONG KEY 123456"%string in
  gcm_authentic (P := Sim.platform)
  /\ json_rejects_empty (P := Sim.platform)
  /\ gcm_tag_binds (P := Sim.platform)
  /\ genuine (P := Sim.platform) (aes_key (S_ w)) (member sent (lit "data"))
       (member sent (lit "iv")) (member sent (lit "tag"))
  /\ member received (lit "data") = member sent (lit "data")
  /\ member received (lit "iv") = member sent (lit "iv")
  /\ ~ genuine (P := Sim.platform) (aes_key (S_ w)) (member received (lit "data"))
         (member received (lit "iv")) (member received (lit "tag"))
  /\ exists e w',
       Res.api.work (P := Sim.platform) Copy2 (JStr (lit "get_user")) (JObj [])
         JUndefined JUndefined env w
       = (Normal (Res.api.failure Copy2 e), w')
       /\ aes_key (S_ w') = aes_key (S_ w).
Proof.
  intros env w payload blob sent received.
  pose proof (C4_tampered_response_rejected (P := Sim.platform) Copy2
                (JStr (lit "get_user")) (JObj []) JUndefined JUndefined env w
                Sim_authentic eq_refl) as (T1 & _ & T3).
  assert (G : genuine (P := Sim.platform) (aes_key (S_ w)) (member sent (lit "data"))
                (member sent (lit "iv")) (member sent (lit "tag"))).
  { set (pt := Encoding.encode_string (Sim.write payload)).
    exists (Sim.bytes_of "0123456789abcdef"), (Sim.bytes_of "0123456789abcdef"),
      (Encoding.fromCharCode Sim.iv0),
      (Encoding.fromCharCode (map Sim.shift_up pt)),
      (Encoding.fromCharCode
         (Sim.tag_of (Sim.bytes_of "0123456789abcdef") Sim.iv0 (map Sim.shift_up pt))),
      pt.
    split; [vm_compute; reflexivity|]. split; [vm_compute; reflexivity|].
    split; [vm_compute; reflexivity|]. split; [vm_compute; reflexivity|].
    split; [vm_compute; reflexivity|]. vm_compute. reflexivity. }
  assert (NG : ~ genuine (P := Sim.platform) (aes_key (S_ w))
                   (member received (lit "data")) (member received (lit "iv"))
                   (member received (lit "tag"))).
  { eapply (T3 Sim_tag_binds _ _ (member sent (lit "tag"))).
    - exact G.
    - vm_compute. reflexivity.
    - vm_compute. reflexivity.
    - reflexivity.
    - reflexivity.
    - vm_compute. discriminate. }
  split; [exact Sim_authentic|]. split; [reflexivity|].
  split; [exact Sim_tag_binds|]. split; [exact G|].
  split; [reflexivity|]. split; [reflexivity|]. split; [exact NG|].
  apply T1.
  intros req status result b data iv tag Hs G0 G1 G2 G3.
  cbn in Hs. injection Hs as _ <-.
  vm_compute in G0. injection G0 as <-.
  vm_compute in G1. injection G1 as <-.
  vm_compute in G2. injection G2 as <-.
  vm_compute in G3. injection G3 as <-.
  exact NG.
Defined.

(** C4, as stated, fails.  Flipping one bit of the tag text of a genuine
    response, in its last character before the padding, changes none of
    the bytes [atob] reads: the response is accepted and the key rotates.
    The same holds of its data text.  And where the fields are rejected,
    [decryptStr] does not fail: it returns the empty string. *)
Lemma C4_counterexample :
  let w := Sim.established "0123456789abcdef" in
  let field n v := member (member v (lit "data")) (lit n) in
  let work reply :=
    Res.api.work (P := Sim.platform) Copy2 (JStr (lit "get_user")) (JObj [])
      JUndefined JUndefined (Sim.env Sim.iv0 reply) w in
  let r := work SimFaults.respelled in
  let r' := work SimFaults.respelled_data in
  let wrong := member (Sim.envelope "WRONG KEY 123456" (JObj []) 0) (lit "data") in
  (exists t, field "tag"%string SimFaults.genuine_envelope = JStr t
             /\ field "tag"%string SimFaults.respelled_envelope
                = JStr (SimFaults.flip_bit 21 3 t)
             /\ List.length t = 24%nat
             /\ nth 21 t 0%N = 103%N
             /\ nth 21 (SimFaults.flip_bit 21 3 t) 0%N = 111%N
             /\ SimFaults.flip_bit 21 3 t <> t)
  /\ fst r = Normal (JNum 1, JStr (lit "ok"), JNum 7)
  /\ aes_key (S_ (snd r)) = JStr (lit "fedcba9876543210")
  /\ aes_key (S_ (snd r)) <> aes_key (S_ w)
  /\ (exists t, field "data"%string SimFaults.genuine_envelope = JStr t
                /\ field "data"%string SimFaults.respelled_data_envelope
                   = JStr (SimFaults.flip_bit 46 0 t)
                /\ List.length t = 48%nat
                /\ N.lxor (nth 46 t 0%N) (nth 46 (SimFaults.flip_bit 46 0 t) 0%N) = 1%N
                /\ SimFaults.flip_bit 46 0 t <> t)
  /\ fst r' = Normal (JNum 1, JStr (lit "ok"), JNum 7)
  /\ aes_key (S_ (snd r')) = JStr (lit "fedcba9876543210")
  /\ fst (Eec.Aes.Gcm.decryptStr (P := Sim.platform) (member wrong (lit "data"))
            (member wrong (lit "iv")) (member wrong (lit "tag")) (aes_key (S_ w))
            (Sim.env Sim.iv0 SimFaults.respelled) w)
     = Normal (JStr []).
Proof.
  cbv zeta. split; [|split; [|split; [|split; [|split; [|split; [|split]]]]]].
  - eexists. split; [vm_compute; reflexivity|].
    split; [vm_compute; reflexivity|]. split; [vm_compute; reflexivity|].
    split; [vm_compute; reflexivity|]. split; [vm_compute; reflexivity|].
    vm_compute. discriminate.
  - vm_compute. reflexivity.
  - vm_compute. reflexivity.
  - vm_compute. discriminate.
  - eexists. split; [vm_compute; reflexivity|].
    split; [vm_compute; reflexivity|]. split; [vm_compute; reflexivity|].
    split; [vm_compute; reflexivity|].
    vm_compute. discriminate.
  - vm_compute. reflexivity.
  - vm_compute. reflexivity.
  - vm_compute. reflexivity.
Qed.

(** ** The handshake *)

Section Handshake.
Context {P : Platform}.

Lemma to_N_le_255 (bs : list byte) :
  forallb (fun c => c <=? 255)%N (Encoding.fromCharCode bs) = true.
Proof.
  unfold Encoding.fromCharCode. rewrite forallb_forall. intros c H.
  apply in_map_iff in H as (b & <- & _). apply N.leb_le, Byte.to_N_bounded.
Qed.

Lemma btoa_bytes (bs : list byte) :
  Base64.btoa (Encoding.fromCharCode bs)
  = Normal (Base64.encode (Encoding.fromCharCode bs)).
Proof. unfold Base64.btoa. now rewrite to_N_le_255. Qed.

Lemma chunks_pending n s : forall cur room,
  cur <> [] -> RSA.chunks n s cur room <> [].
Proof.
  induction s as [|c rest IH]; intros cur room H; cbn [RSA.chunks].
  - destruct cur; [contradiction | discriminate].
  - destruct (RSA.is_line_terminator c).
    + destruct cur; [contradiction | discriminate].
    + destruct room; [discriminate|]. apply IH. discriminate.
Qed.

Lemma first_char_not_terminator (b : byte) :
  RSA.is_line_terminator (Base64.char_of (Byte.to_N b / 4)) = false.
Proof. destruct b; reflexivity. Qed.

Lemma chunks_start n c rest room :
  RSA.is_line_terminator c = false ->
  RSA.chunks n (c :: rest) [] (Datatypes.S room) = RSA.chunks n rest [c] room.
Proof. intros H. cbn [RSA.chunks]. now rewrite H. Qed.

Lemma encode_head (a : byte) (bs : list byte) :
  exists rest,
    Base64.encode (Encoding.fromCharCode (a :: bs))
    = Base64.char_of (Byte.to_N a / 4) :: rest.
Proof.
  destruct bs as [|b [|c bs]]; cbn [Encoding.fromCharCode map Base64.encode];
    eauto.
Qed.

Lemma pem_lines (spki : list byte) :
  spki <> [] ->
  RSA.match_chunks 64 (Base64.encode (Encoding.fromCharCode spki))
  = Some (RSA.chunks 64 (Base64.encode (Encoding.fromCharCode spki)) [] 64).
Proof.
  intros H. unfold RSA.match_chunks.
  destruct (RSA.chunks 64 _ [] 64) eqn:E; [|reflexivity].
  exfalso. revert E.
  destruct spki as [|a bs]; [contradiction|].
  destruct (encode_head a bs) as [rest ->].
  rewrite (chunks_start _ _ _ _ (first_char_not_terminator a)).
  apply chunks_pending. discriminate.
Qed.

(** The handshake up to the [fetch]: [S.rsa] and [S.pubPem] are
    overwritten, the key is not. *)
Lemma rs_work_body_to_fetch env w kp spki :
  generated env = Some kp -> subtle_exportKey kp = Some spki -> spki <> [] ->
  Res.rs.work_body env w
  = Res.rs.install (server env (rs_request spki)) env
      {| S_ := after_export (S_ w) kp spki;
         events := events w ++ [EvGenerateKey; EvExportKey; EvFetch (rs_request spki)] |}.
Proof.
  intros G X NE. unfold Res.rs.work_body, RSA.init, RSA.getPublicKey_pem, RSA.this,
    RSA._arrayBufferToBase64.
  munfold. cbn [S_ rsa set_rsa events key name hash RSA.new]. rewrite G.
  cbn [S_ rsa set_rsa events key name hash RSA.new]. rewrite X.
  rewrite btoa_bytes, (pem_lines spki NE).
  cbn [S_ rsa set_rsa set_pubPem events pubPem aes_key session_user].
  unfold Res.rs.install, after_export, pem_of, rs_request. rewrite <- !app_assoc.
  destruct (server env _) as [e|ok status json]; reflexivity.
Qed.

(** The handshake of a run whose key cannot be exported (the provider
    rejects, or hands back no bytes) stops there: [S.rsa] is the new
    object, everything else is as it was, and nothing was sent. *)
Lemma rs_work_body_no_export env w kp :
  generated env = Some kp ->
  subtle_exportKey kp = None \/ subtle_exportKey kp = Some [] ->
  Res.rs.work_body env w
  = (Throw (Error RSA.msg_export_failed),
     {| S_ := set_rsa (Some {| name := lit "RSA-OAEP"; hash := lit "SHA-256";
                               key := Some kp |}) (S_ w);
        events := events w ++ [EvGenerateKey; EvExportKey] |}).
Proof.
  intros G X. unfold Res.rs.work_body, RSA.init, RSA.getPublicKey_pem, RSA.this,
    RSA._arrayBufferToBase64.
  munfold. cbn [S_ rsa set_rsa events key name hash RSA.new]. rewrite G.
  cbn [S_ rsa set_rsa events key name hash RSA.new].
  destruct X as [-> | ->]; cbn; rewrite <- app_assoc; reflexivity.
Qed.

Lemma quiet_rsa_decrypt cipherText input : quiet (RSA.decrypt cipherText input).
Proof.
  unfold RSA.decrypt, RSA.this.
  apply quiet_bind; [quiet_tac|intro r].
  apply quiet_try_catch; [|intro; apply quiet_throw].
  apply quiet_bind; [quiet_tac|intro kp].
  apply quiet_bind.
  - destruct (str_eqb input (lit "hex")).
    + destruct cipherText; try apply quiet_throw.
      destruct (RSA.match_chunks 2 s); quiet_tac.
    + quiet_tac.
  - intro bs. quiet_tac.
Qed.

(** After the [fetch] the handshake either installs the key and returns
    true, or throws with [S] as it was. *)
Lemma install_run res env w1 :
  (exists k evs,
     Res.rs.install res env w1
     = (Normal (JBool true),
        {| S_ := set_aes_key (JStr k) (S_ w1); events := events w1 ++ evs |}))
  \/ (exists e evs,
        Res.rs.install res env w1
        = (Throw e, {| S_ := S_ w1; events := events w1 ++ evs |})).
Proof.
  unfold Res.rs.install. destruct res as [e|ok status json].
  { right. exists e, []. unfold throw. now rewrite <- world_eta. }
  destruct (negb ok).
  { right. eexists _, []. unfold throw. now rewrite <- world_eta. }
  munfold. destruct json as [result|e].
  2:{ right. exists e, []. now rewrite <- world_eta. }
  destruct (get result (lit "data")) as [encryptedKey|e].
  2:{ right. exists e, []. now rewrite <- world_eta. }
  destruct (RSA.decrypt encryptedKey (lit "hex") env w1) as [[k|e] w2] eqn:D;
    destruct (quiet_run (quiet_rsa_decrypt _ _) D) as (evs & -> & _).
  - left. exists k, evs. reflexivity.
  - right. exists e, evs. reflexivity.
Qed.

Lemma rsa_decrypt_hex env w r kp hex parts pt :
  rsa (S_ w) = Some r -> key r = Some kp ->
  RSA.match_chunks 2 hex = Some parts ->
  subtle_decrypt_rsa kp (map (fun b => RSA.to_uint8 (RSA.parseInt16 b)) parts)
  = Some pt ->
  exists evs,
    RSA.decrypt (JStr hex) (lit "hex") env w
    = (Normal (Encoding.TextDecoder_decode pt),
       {| S_ := S_ w; events := events w ++ evs |}).
Proof.
  intros R K C D. unfold RSA.decrypt, RSA.this. munfold. rewrite R, K.
  change (str_eqb (lit "hex") (lit "hex")) with true. cbv iota.
  rewrite C, D. cbn [S_ events]. eauto.
Qed.

End Handshake.

(** C10 (amended).  A handshake that generated its key pair and then
    fails, at whatever later step (the export of the public key, the
    [fetch], the status test, the JSON body, its [data], the RSA
    decryption), returns [false] without throwing.  [S.rsa] holds the new
    key pair; [S.pubPem] holds its PEM export when the export gave at
    least one byte, and its value from before the call otherwise;
    [S.aes_key] and [S.session_user] keep the values they had before the
    call. *)
Theorem C10_failed_handshake_side_effects
  {P : Platform} (env : Env) (w w' : World) (kp : KeyPair) (e : Exn) :
  generated env = Some kp ->
  Res.rs.work_body env w = (Throw e, w') ->
  Res.rs.work env w = (Normal (JBool false), w')
  /\ rsa (S_ w')
     = Some {| name := lit "RSA-OAEP"; hash := lit "SHA-256"; key := Some kp |}
  /\ pubPem (S_ w')
     = match subtle_exportKey kp with
       | Some (b :: bs) => JStr (pem_of (b :: bs))
       | _ => pubPem (S_ w)
       end
  /\ aes_key (S_ w') = aes_key (S_ w)
  /\ session_user (S_ w') = session_user (S_ w).
Proof.
  intros G T. split.
  - unfold Res.rs.work. now rewrite (catch_throw _ _ T).
  - destruct (subtle_exportKey kp) as [[|b bs]|] eqn:X.
    + rewrite (rs_work_body_no_export env w kp G (or_intror X)) in T.
      injection T as <- <-. cbn. auto.
    + rewrite (rs_work_body_to_fetch env w kp (b :: bs) G X ltac:(discriminate)) in T.
      match type of T with
      | Res.rs.install ?res env ?w1 = _ =>
          destruct (install_run res env w1) as [(k & evs & E) | (e' & evs & E)];
          rewrite E in T
      end.
      * discriminate.
      * injection T as <- <-. cbn. auto.
    + rewrite (rs_work_body_no_export env w kp G (or_introl X)) in T.
      injection T as <- <-. cbn. auto.
Qed.

(** C5 (amended).  In a handshake whose server answer decrypts under the
    private key, the recovered string is installed in [S.aes_key] as it
    is and the handshake returns [true]: no test of its byte length stands
    between the decryption and the assignment. *)
Theorem C5_handshake_installs_any_key
  {P : Platform} (env : Env) (w : World) (kp : KeyPair) (spki : list byte)
  (status : Z) (result : JsVal) (hex : jsstring) (parts : list jsstring)
  (pt : list byte) :
  generated env = Some kp ->
  subtle_exportKey kp = Some spki -> spki <> [] ->
  (forall req, server env req = Response true status (Normal result)) ->
  get result (lit "data") = Normal (JStr hex) ->
  RSA.match_chunks 2 hex = Some parts ->
  subtle_decrypt_rsa kp (map (fun b => RSA.to_uint8 (RSA.parseInt16 b)) parts)
  = Some pt ->
  exists w',
    Res.rs.work env w = (Normal (JBool true), w')
    /\ aes_key (S_ w') = JStr (Encoding.TextDecoder_decode pt).
Proof.
  intros G X NE Sv Gd C D. unfold Res.rs.work, try_catch.
  rewrite (rs_work_body_to_fetch env w kp spki G X NE), Sv.
  unfold Res.rs.install. cbn [negb]. munfold. rewrite Gd.
  match goal with
  | |- context [RSA.decrypt _ _ env ?w1] =>
      destruct (rsa_decrypt_hex env w1 _ kp hex parts pt eq_refl eq_refl C D)
        as (evs & ->)
  end.
  eexists. split; reflexivity.
Qed.


Lemma C5_witness :
  let reply := Response true 200
                 (Normal (JObj [(lit "data", JStr (lit "68656c6c6f"))])) in
  let env := Sim.env Sim.iv0 reply in
  let w := {| S_ := State_new; events := [] |} in
  generated env = Some [x01; x02; x03]
  /\ exists w',
       Res.rs.work (P := Sim.platform) env w = (Normal (JBool true), w')
       /\ aes_key (S_ w') = JStr (lit "hello").
Proof.
  intros reply env w. split; [reflexivity|].
  exact (C5_handshake_installs_any_key (P := Sim.platform) env w
           [x01; x02; x03] [x01; x02; x03] 200
           (JObj [(lit "data", JStr (lit "68656c6c6f"))]) (lit "68656c6c6f")
           [lit "68"; lit "65"; lit "6c"; lit "6c"; lit "6f"]
           (Sim.bytes_of "hello")
           eq_refl eq_refl ltac:(discriminate) (fun _ => eq_refl) eq_refl
           eq_refl eq_refl).
Defined.

(** C5, as stated, fails: the server's ciphertext decrypts to the five
    bytes of ["hello"]; the handshake returns [true] and that string is
    the installed key, though 5 is none of 16, 24 and 32. *)
Lemma C5_counterexample :
  let reply := Response true 200
                 (Normal (JObj [(lit "data", JStr (lit "68656c6c6f"))])) in
  let r := Res.rs.work (P := Sim.platform) (Sim.env Sim.iv0 reply)
             {| S_ := State_new; events := [] |} in
  fst r = Normal (JBool true)
  /\ aes_key (S_ (snd r)) = JStr (lit "hello")
  /\ key_length (lit "hello") = 5%nat
  /\ ~ legal_length (key_length (lit "hello")).
Proof.
  cbv zeta. repeat split; try (vm_compute; reflexivity).
  unfold legal_length. cbn. lia.
Qed.

Lemma C10_witness :
  let env := Sim.env Sim.iv0 (Response false 503 (Normal JNull)) in
  let w := Sim.established "0123456789abcdef" in
  let body := Res.rs.work_body (P := Sim.platform) env w in
  generated env = Some [x01; x02; x03]
  /\ body = (Throw (Res.http_error 503), snd body)
  /\ Res.rs.work (P := Sim.platform) env w = (Normal (JBool false), snd body)
  /\ rsa (S_ (snd body))
     = Some (mkRSA (P := Sim.platform) (lit "RSA-OAEP") (lit "SHA-256")
               (Some [x01; x02; x03]))
  /\ pubPem (S_ (snd body)) = JStr (pem_of [x01; x02; x03])
  /\ aes_key (S_ (snd body)) = JStr (lit "0123456789abcdef")
  /\ session_user (S_ (snd body)) = JNull.
Proof.
  intros env w body.
  assert (F : fst body = Throw (Res.http_error 503)) by (vm_compute; reflexivity).
  assert (H : body = (Throw (Res.http_error 503), snd body)).
  { rewrite <- F. apply surjective_pairing. }
  split; [reflexivity|]. split; [exact H|].
  exact (C10_failed_handshake_side_effects (P := Sim.platform) env w (snd body)
           [x01; x02; x03] _ eq_refl H).
Defined.

(** C10, as stated, fails on a run that stops at the export of the
    public key, which comes after the generation of the pair: the
    handshake returns [false] and [S.rsa] is the new object, but
    [S.pubPem] still holds the text of the handshake before; and
    [S.session_user] keeps its value as [S.aes_key] does. *)
Lemma C10_counterexample :
  let r := Res.rs.work (P := SimFaults.no_export) SimFaults.env_no_export
             SimFaults.established_before in
  generated SimFaults.env_no_export = Some [x01; x02; x03]
  /\ fst r = Normal (JBool false)
  /\ events (snd r) = [EvGenerateKey; EvExportKey]
  /\ option_map (fun o => (name o, hash o, key o)) (rsa (S_ (snd r)))
     = Some (lit "RSA-OAEP", lit "SHA-256", Some [x01; x02; x03])
  /\ pubPem (S_ (snd r)) = JStr (lit "PEM of the last handshake")
  /\ pubPem (S_ (snd r)) = pubPem (S_ SimFaults.established_before)
  /\ aes_key (S_ (snd r)) = aes_key (S_ SimFaults.established_before)
  /\ session_user (S_ (snd r)) = session_user (S_ SimFaults.established_before)
  /\ session_user (S_ (snd r)) = JStr (lit "0a1b2c").
Proof. cbv zeta. repeat split; vm_compute; reflexivity. Qed.

(** ** The codecs *)

Section Base64Facts.

(** Induction three elements at a time, as [Base64.encode] recurses. *)
Lemma list_ind3 {A} (Q : list A -> Prop) :
  Q [] -> (forall a, Q [a]) -> (forall a b, Q [a; b]) ->
  (forall a b c l, Q l -> Q (a :: b :: c :: l)) ->
  forall l, Q l.
Proof.
  intros H0 H1 H2 H3.
  fix IH 1. intros [|a [|b [|c l]]];
    [exact H0 | apply H1 | apply H2 | apply H3; apply IH].
Qed.

Lemma char_of_facts (v : N) :
  (v < 64)%N ->
  Base64.value_of (Base64.char_of v) = Some v
  /\ Base64.is_ascii_whitespace (Base64.char_of v) = false
  /\ (Base64.char_of v =? Base64.pad)%N = false.
Proof.
  intros H.
  assert (E : exists n, (n < 64)%nat /\ v = N.of_nat n).
  { exists (N.to_nat v). split; [lia | now rewrite N2Nat.id]. }
  destruct E as (n & L & ->). clear H.
  do 64 (destruct n as [|n]; [vm_compute; auto|]). lia.
Qed.

Lemma sextets_small (bs : list N) : small 256 bs -> small 64 (sextets bs).
Proof.
  induction bs as [| a | a b | a b c l IH] using list_ind3; intros H; cbn [sextets].
  - apply Forall_nil.
  - inversion_clear H. unfold small.
    repeat (apply Forall_cons; [divlia|]). apply Forall_nil.
  - inversion_clear H as [|? ? ? H1]. inversion_clear H1. unfold small.
    repeat (apply Forall_cons; [divlia|]). apply Forall_nil.
  - inversion_clear H as [|? ? ? H1]. inversion_clear H1 as [|? ? ? H2].
    inversion_clear H2. unfold small.
    do 4 (apply Forall_cons; [divlia|]). now apply IH.
Qed.

Lemma decode_sextets (bs : list N) :
  small 256 bs -> Base64.decode_values (sextets bs) = bs.
Proof.
  induction bs as [| a | a b | a b c l IH] using list_ind3; intros H;
    cbn [sextets Base64.decode_values].
  - reflexivity.
  - inversion_clear H. f_equal. divlia.
  - inversion_clear H as [|? ? ? H1]. inversion_clear H1.
    f_equal; [divlia|]. f_equal. divlia.
  - inversion_clear H as [|? ? ? H1]. inversion_clear H1 as [|? ? ? H2].
    inversion_clear H2.
    rewrite IH by assumption.
    f_equal; [divlia|]. f_equal; [divlia|]. f_equal. divlia.
Qed.

Lemma values_of_chars (vs : list N) :
  small 64 vs -> Base64.values_of (map Base64.char_of vs) = Some vs.
Proof.
  induction 1 as [|v vs Hv _ IH]; cbn [map Base64.values_of]; [reflexivity|].
  destruct (char_of_facts v Hv) as (-> & _). now rewrite IH.
Qed.

Lemma length_sextets (bs : list N) :
  Nat.modulo (List.length (sextets bs)) 4 <> 1%nat.
Proof.
  induction bs as [| a | a b | a b c l IH] using list_ind3;
    cbn [sextets List.length]; try (cbn; lia).
  change (Datatypes.S (Datatypes.S (Datatypes.S (Datatypes.S (List.length (sextets l))))))
    with (4 + List.length (sextets l))%nat.
  rewrite Nat.add_comm.
  replace (List.length (sextets l) + 4)%nat
    with (List.length (sextets l) + 1 * 4)%nat by lia.
  rewrite Nat.Div0.mod_add. exact IH.
Qed.

Lemma length_encode (bs : list N) :
  exists k, List.length (Base64.encode bs) = (4 * k)%nat.
Proof.
  induction bs as [| a | a b | a b c l [k IH]] using list_ind3;
    cbn [Base64.encode List.length].
  - exists 0%nat. reflexivity.
  - exists 1%nat. reflexivity.
  - exists 1%nat. reflexivity.
  - exists (Datatypes.S k). lia.
Qed.

Lemma strip_end_cons (x : N) (l : list N) :
  (2 <= List.length l)%nat ->
  Base64.strip_end (x :: l) = x :: Base64.strip_end l.
Proof.
  destruct l as [|a [|b l]]; cbn [List.length]; try lia. reflexivity.
Qed.

Lemma strip_end_encode (bs : list N) :
  small 256 bs ->
  Base64.strip_end (Base64.encode bs) = map Base64.char_of (sextets bs).
Proof.
  induction bs as [| a | a b | a b c l IH] using list_ind3; intros H.
  - reflexivity.
  - cbn [Base64.encode sextets map].
    rewrite !strip_end_cons by (cbn; lia). reflexivity.
  - inversion_clear H as [|? ? ? H1]. inversion_clear H1.
    cbn [Base64.encode sextets map].
    rewrite !strip_end_cons by (cbn; lia).
    cbn [Base64.strip_end]. rewrite N.eqb_refl.
    destruct (char_of_facts ((b mod 16) * 4)%N ltac:(divlia)) as (_ & _ & ->).
    reflexivity.
  - inversion_clear H as [|? ? ? H1]. inversion_clear H1 as [|? ? ? H2].
    inversion_clear H2.
    cbn [Base64.encode sextets map].
    rewrite !strip_end_cons by (cbn; lia).
    destruct (length_encode l) as [k L].
    destruct (Base64.encode l) as [|e1 E] eqn:EE.
    + destruct l as [|? [|? [|? ?]]]; try discriminate.
      cbn [Base64.strip_end sextets map].
      destruct (char_of_facts (c mod 64)%N ltac:(divlia)) as (_ & _ & ->).
      reflexivity.
    + do 2 rewrite strip_end_cons by (cbn [List.length] in *; lia).
      rewrite IH by assumption. reflexivity.
Qed.

Lemma filter_encode (bs : list N) :
  small 256 bs ->
  filter (fun c => negb (Base64.is_ascii_whitespace c)) (Base64.encode bs)
  = Base64.encode bs.
Proof.
  assert (W : forall v, (v < 64)%N ->
              negb (Base64.is_ascii_whitespace (Base64.char_of v)) = true).
  { intros v Hv. destruct (char_of_facts v Hv) as (_ & -> & _). reflexivity. }
  induction bs as [| a | a b | a b c l IH] using list_ind3; intros H.
  - reflexivity.
  - inversion_clear H. cbn [Base64.encode filter].
    rewrite !W by divlia. reflexivity.
  - inversion_clear H as [|? ? ? H1]. inversion_clear H1.
    cbn [Base64.encode filter]. rewrite !W by divlia. reflexivity.
  - inversion_clear H as [|? ? ? H1]. inversion_clear H1 as [|? ? ? H2].
    inversion_clear H2.
    cbn [Base64.encode filter]. rewrite !W by divlia.
    now rewrite IH.
Qed.

(** [atob] undoes [btoa] on binary strings. *)
Lemma atob_encode (bs : list N) :
  small 256 bs -> Base64.atob (Base64.encode bs) = Normal bs.
Proof.
  intros H. unfold Base64.atob, Base64.strip_padding.
  rewrite (filter_encode bs H).
  destruct (length_encode bs) as [k ->].
  replace (4 * k)%nat with (k * 4)%nat by lia. rewrite Nat.Div0.mod_mul.
  cbn [Nat.eqb]. rewrite (strip_end_encode bs H), length_map.
  pose proof (length_sextets bs) as L.
  destruct (Nat.eqb_spec (Nat.modulo (List.length (sextets bs)) 4) 1);
    [contradiction|].
  rewrite (values_of_chars _ (sextets_small bs H)).
  now rewrite (decode_sextets bs H).
Qed.

Lemma bytes_small (bs : list byte) : small 256 (Encoding.fromCharCode bs).
Proof.
  unfold small, Encoding.fromCharCode. apply Forall_forall. intros x H.
  apply in_map_iff in H as (b & <- & _).
  pose proof (Byte.to_N_bounded b). lia.
Qed.

Lemma byte_of_to_N (b : byte) : Encoding.byte_of_N (Byte.to_N b) = b.
Proof.
  unfold Encoding.byte_of_N.
  rewrite N.mod_small by (pose proof (Byte.to_N_bounded b); lia).
  now rewrite Byte.of_to_N.
Qed.

Lemma bytes_of_binary_fromCharCode (bs : list byte) :
  Encoding.bytes_of_binary (Encoding.fromCharCode bs) = bs.
Proof.
  unfold Encoding.bytes_of_binary, Encoding.fromCharCode. rewrite map_map.
  rewrite (map_ext _ (fun b => b)) by apply byte_of_to_N. apply map_id.
Qed.

End Base64Facts.

Section Utf8Facts.

Lemma leb_true a b : (a <= b)%N -> (a <=? b)%N = true.
Proof. apply N.leb_le. Qed.

Lemma leb_false a b : (b < a)%N -> (a <=? b)%N = false.
Proof. apply N.leb_gt. Qed.

Lemma lead_1 b : (b <= 0x7F)%N -> Encoding.lead b = Encoding.Emit b.
Proof. intros H. unfold Encoding.lead. now rewrite leb_true. Qed.

Lemma lead_2 b :
  (0xC2 <= b <= 0xDF)%N ->
  Encoding.lead b = Encoding.Start (b mod 0x20) 1 0x80 0xBF.
Proof.
  intros H. unfold Encoding.lead.
  rewrite (leb_false b 0x7F), (leb_true 0xC2 b), (leb_true b 0xDF) by lia.
  reflexivity.
Qed.

Lemma lead_3 b :
  (0xE0 <= b <= 0xEF)%N ->
  Encoding.lead b
  = Encoding.Start (b mod 0x10) 2
      (if (b =? 0xE0)%N then 0xA0%N else 0x80%N)
      (if (b =? 0xED)%N then 0x9F%N else 0xBF%N).
Proof.
  intros H. unfold Encoding.lead.
  rewrite (leb_false b 0x7F), (leb_false b 0xDF), (leb_true 0xE0 b),
    (leb_true b 0xEF) by lia.
  rewrite andb_false_r. reflexivity.
Qed.

Lemma lead_4 b :
  (0xF0 <= b <= 0xF4)%N ->
  Encoding.lead b
  = Encoding.Start (b mod 0x08) 3
      (if (b =? 0xF0)%N then 0x90%N else 0x80%N)
      (if (b =? 0xF4)%N then 0x8F%N else 0xBF%N).
Proof.
  intros H. unfold Encoding.lead.
  rewrite (leb_false b 0x7F), (leb_false b 0xDF), (leb_false b 0xEF),
    (leb_true 0xF0 b), (leb_true b 0xF4) by lia.
  rewrite !andb_false_r. reflexivity.
Qed.

Lemma cont_last b rest c lo hi :
  (lo <= b <= hi)%N ->
  Encoding.decode_scalars (b :: rest) (Some (c, 1, lo, hi)%N)
  = (c * 0x40 + b mod 0x40)%N :: Encoding.decode_scalars rest None.
Proof.
  intros H. cbn [Encoding.decode_scalars].
  rewrite (leb_true lo b), (leb_true b hi) by lia. reflexivity.
Qed.

Lemma cont_more b rest c r lo hi :
  (lo <= b <= hi)%N -> (r <> 1)%N ->
  Encoding.decode_scalars (b :: rest) (Some (c, r, lo, hi))
  = Encoding.decode_scalars rest
      (Some (c * 0x40 + b mod 0x40, r - 1, 0x80, 0xBF)%N).
Proof.
  intros H R. cbn [Encoding.decode_scalars].
  rewrite (leb_true lo b), (leb_true b hi) by lia.
  destruct (N.eqb_spec r 1); [contradiction | reflexivity].
Qed.

Lemma start_lead b rest :
  Encoding.decode_scalars (b :: rest) None
  = Encoding.after_lead b (Encoding.decode_scalars rest).
Proof. reflexivity. Qed.

(** One code point: its bytes decode to it. *)
Lemma decode_utf8_of_scalar cp rest :
  scalar cp ->
  Encoding.decode_scalars (Encoding.utf8_of_scalar cp ++ rest) None
  = cp :: Encoding.decode_scalars rest None.
Proof.
  intros [H NS]. unfold Encoding.utf8_of_scalar.
  destruct (N.ltb_spec cp 0x80).
  { cbn [app]. rewrite start_lead. unfold Encoding.after_lead.
    now rewrite lead_1 by lia. }
  destruct (N.ltb_spec cp 0x800).
  { cbn [app]. rewrite start_lead. unfold Encoding.after_lead.
    rewrite lead_2 by divlia. rewrite cont_last by divlia.
    f_equal. divlia. }
  destruct (N.ltb_spec cp 0x10000).
  { cbn [app]. rewrite start_lead. unfold Encoding.after_lead.
    rewrite lead_3 by divlia.
    rewrite cont_more; [| | lia].
    2:{ destruct (N.eqb_spec (0xE0 + cp / 0x1000) 0xE0);
        destruct (N.eqb_spec (0xE0 + cp / 0x1000) 0xED); divlia. }
    rewrite cont_last by divlia. f_equal. divlia. }
  cbn [app]. rewrite start_lead. unfold Encoding.after_lead.
  rewrite lead_4 by divlia.
  rewrite cont_more; [| | lia].
  2:{ destruct (N.eqb_spec (0xF0 + cp / 0x40000) 0xF0);
      destruct (N.eqb_spec (0xF0 + cp / 0x40000) 0xF4); divlia. }
  rewrite cont_more by divlia.
  rewrite cont_last by divlia. f_equal. divlia.
Qed.

Lemma decode_utf8 (cps : list N) :
  Forall scalar cps ->
  Encoding.decode_scalars (flat_map Encoding.utf8_of_scalar cps) None = cps.
Proof.
  induction 1 as [|cp cps H _ IH]; [reflexivity|].
  cbn [flat_map]. rewrite decode_utf8_of_scalar by assumption. now rewrite IH.
Qed.

Lemma utf8_small (cps : list N) :
  Forall scalar cps -> small 256 (flat_map Encoding.utf8_of_scalar cps).
Proof.
  induction 1 as [|cp cps [H NS] _ IH]; [apply Forall_nil|].
  cbn [flat_map]. apply Forall_app. split; [|exact IH].
  unfold Encoding.utf8_of_scalar.
  destruct (N.ltb_spec cp 0x80); [|destruct (N.ltb_spec cp 0x800);
    [|destruct (N.ltb_spec cp 0x10000)]];
    repeat (apply Forall_cons; [divlia|]); apply Forall_nil.
Qed.

Lemma to_N_byte_of_N (l : list N) :
  small 256 l -> map Byte.to_N (map Encoding.byte_of_N l) = l.
Proof.
  induction 1 as [|x l H _ IH]; [reflexivity|].
  cbn [map]. rewrite IH. f_equal. unfold Encoding.byte_of_N.
  rewrite N.mod_small by assumption.
  destruct (Byte.of_N x) as [b|] eqn:E.
  - now apply Byte.to_of_N.
  - apply Byte.of_N_None_iff in E. lia.
Qed.

End Utf8Facts.

Section Utf16Facts.

Lemma is_high_spec c : Encoding.is_high c = true <-> (0xD800 <= c <= 0xDBFF)%N.
Proof. unfold Encoding.is_high. rewrite andb_true_iff, !N.leb_le. tauto. Qed.

Lemma is_low_spec c : Encoding.is_low c = true <-> (0xDC00 <= c <= 0xDFFF)%N.
Proof. unfold Encoding.is_low. rewrite andb_true_iff, !N.leb_le. tauto. Qed.

(** The scalar values of a well-formed string are scalar values, they
    spell the string back in UTF-16, and the first is U+FEFF only if the
    string begins with it. *)
Lemma scalar_values_well_formed (n : nat) : forall p,
  (List.length p <= n)%nat -> well_formed p = true ->
  Forall scalar (Encoding.scalar_values p)
  /\ flat_map Encoding.utf16_of_scalar (Encoding.scalar_values p) = p
  /\ (begins_with_bom p = false ->
      Encoding.strip_bom (Encoding.scalar_values p) = Encoding.scalar_values p).
Proof.
  induction n as [|n IH]; intros p L W.
  { destruct p; [|cbn in L; lia].
    repeat split; first [apply Forall_nil | reflexivity]. }
  destruct p as [|c rest];
    [repeat split; first [apply Forall_nil | reflexivity]|].
  cbn [well_formed Encoding.scalar_values] in *.
  destruct (Encoding.is_high c) eqn:Hh.
  - destruct rest as [|d rest']; [discriminate|].
    apply andb_true_iff in W as [Hl W]. rewrite Hl.
    apply is_high_spec in Hh. apply is_low_spec in Hl.
    destruct (IH rest' ltac:(cbn [List.length] in L; lia) W) as (F & U & _).
    split; [|split].
    + apply Forall_cons; [|exact F]. unfold scalar. lia.
    + cbn [flat_map]. rewrite U. unfold Encoding.utf16_of_scalar.
      destruct (N.ltb_spec (65536 + (c - 55296) * 1024 + (d - 56320)) 65536);
        [lia|].
      cbn [app]. f_equal; [divlia|]. f_equal. divlia.
    + intros _. cbn [Encoding.strip_bom].
      destruct (N.eqb_spec (65536 + (c - 55296) * 1024 + (d - 56320)) 65279);
        [lia | reflexivity].
  - apply andb_true_iff in W as [W1 W]. apply andb_true_iff in W1 as [Hl Hc].
    apply negb_true_iff in Hl. rewrite Hl. apply N.ltb_lt in Hc.
    assert (Hh' : ~ (0xD800 <= c <= 0xDBFF)%N).
    { intros X. apply is_high_spec in X. congruence. }
    assert (Hl' : ~ (0xDC00 <= c <= 0xDFFF)%N).
    { intros X. apply is_low_spec in X. congruence. }
    destruct (IH rest ltac:(cbn [List.length] in L; lia) W) as (F & U & _).
    split; [|split].
    + apply Forall_cons; [|exact F]. unfold scalar. lia.
    + cbn [flat_map]. rewrite U. unfold Encoding.utf16_of_scalar.
      destruct (N.ltb_spec c 65536); [reflexivity | lia].
    + cbn [begins_with_bom Encoding.strip_bom]. intros ->. reflexivity.
Qed.

(** [TextDecoder.decode] undoes [TextEncoder.encode] on a well-formed
    string that does not begin with U+FEFF. *)
Lemma decode_encode_string (p : jsstring) :
  well_formed p = true -> begins_with_bom p = false ->
  Encoding.TextDecoder_decode (Encoding.encode_string p) = p.
Proof.
  intros W B.
  destruct (scalar_values_well_formed (List.length p) p (le_n _) W)
    as (F & U & S).
  unfold Encoding.TextDecoder_decode, Encoding.encode_string.
  rewrite (to_N_byte_of_N _ (utf8_small _ F)), (decode_utf8 _ F), (S B).
  exact U.
Qed.

(** With the mark in front, the mark is lost. *)
Lemma decode_encode_bom (p : jsstring) :
  well_formed p = true ->
  Encoding.TextDecoder_decode (Encoding.encode_string (0xFEFF%N :: p)) = p.
Proof.
  intros W.
  assert (W' : well_formed (0xFEFF%N :: p) = true) by (cbn; exact W).
  destruct (scalar_values_well_formed _ _ (le_n _) W') as (F & _ & _).
  destruct (scalar_values_well_formed _ _ (le_n _) W) as (_ & U & _).
  unfold Encoding.TextDecoder_decode, Encoding.encode_string.
  rewrite (to_N_byte_of_N _ (utf8_small _ F)), (decode_utf8 _ F).
  change (Encoding.scalar_values (0xFEFF%N :: p))
    with (0xFEFF%N :: Encoding.scalar_values p).
  cbn [Encoding.strip_bom N.eqb Pos.eqb]. exact U.
Qed.

End Utf16Facts.

(** ** The symmetric round trip *)

Section RoundTrip.
Context {P : Platform}.

Lemma unb64_b64 (bs : list byte) env w :
  Eec.Aes.Gcm.unb64 (JStr (Base64.encode (Encoding.fromCharCode bs))) env w
  = (Normal bs, w).
Proof.
  unfold Eec.Aes.Gcm.unb64, Base64.atob_val. cbn [ToString]. munfold.
  rewrite (atob_encode _ (bytes_small bs)).
  now rewrite bytes_of_binary_fromCharCode.
Qed.

Lemma b64_run (bs : list byte) env w :
  Eec.Aes.Gcm.b64 bs env w
  = (Normal (JStr (Base64.encode (Encoding.fromCharCode bs))), w).
Proof. unfold Eec.Aes.Gcm.b64. munfold. now rewrite btoa_bytes. Qed.

(** A provider that imports every raw key of 16, 24 or 32 bytes imports
    every key of legal length. *)
Lemma legal_key_imports (k : jsstring) :
  gcm_imports -> legal_length (key_length k) -> imports k.
Proof.
  intros Imp K. apply valid_key_length_legal in K. exact (Imp _ K).
Qed.

(** What [decryptStr] returns on the three fields [encryptStr] made,
    whatever the plaintext: the decoding of its encoding. *)
Lemma encrypt_then_decrypt (k p : jsstring) env w env' w' :
  imports k -> gcm_inverts ->
  legal_length (key_length k) ->
  List.length (random_iv env) = 12%nat ->
  exists blob w1 data iv tag,
    Eec.Aes.Gcm.encryptStr (JStr p) (JStr k) env w = (Normal blob, w1)
    /\ get blob (lit "data") = Normal data
    /\ get blob (lit "iv") = Normal iv
    /\ get blob (lit "tag") = Normal tag
    /\ fst (Eec.Aes.Gcm.decryptStr data iv tag (JStr k) env' w')
       = Normal (JStr (Encoding.TextDecoder_decode (Encoding.encode_string p))).
Proof.
  intros Imp Inv K IV.
  apply valid_key_length_legal in K. unfold key_length in K.
  destruct Imp as [ck I].
  destruct (Inv ck (random_iv env) (Encoding.encode_string p) IV) as (c & E & D).
  set (ct := Eec.Aes.Gcm.slice_ciphertext c).
  set (tg := Eec.Aes.Gcm.slice_tag c).
  pose (b := fun bs => JStr (Base64.encode (Encoding.fromCharCode bs))).
  exists (JObj [(lit "iv", b (random_iv env)); (lit "data", b ct); (lit "tag", b tg)]).
  eexists. exists (b ct), (b (random_iv env)), (b tg).
  split; [|split; [reflexivity|split; [reflexivity|split; [reflexivity|]]]].
  - unfold Eec.Aes.Gcm.encryptStr, Eec.Aes.Gcm.encryptStr_body,
      Eec.Aes.Gcm.encrypt_with, Eec.Aes.Gcm.check_key, Eec.Aes.Gcm.importKey,
      Eec.Aes.Gcm.getRandomValues, Encoding.TextEncoder_encode.
    cbn [ToString]. munfold. rewrite K, I. cbn [S_ events]. rewrite E.
    rewrite !b64_run. reflexivity.
  - unfold Eec.Aes.Gcm.decryptStr, Eec.Aes.Gcm.decryptStr_body,
      Eec.Aes.Gcm.decrypt_with, Eec.Aes.Gcm.check_key, Eec.Aes.Gcm.importKey,
      Encoding.TextEncoder_encode.
    cbn [ToString]. unfold b. munfold. rewrite K, I.
    rewrite !unb64_b64.
    unfold ct, tg, Eec.Aes.Gcm.slice_ciphertext, Eec.Aes.Gcm.slice_tag.
    rewrite firstn_skipn, D. reflexivity.
Qed.

End RoundTrip.

(** C8 (amended).  On a provider whose AES-GCM decryption undoes its
    encryption under a 12-byte IV, with the 12 bytes [getRandomValues]
    gives as IV: for every key whose UTF-8 length is 16, 24 or 32 and
    whose bytes the provider imports as an AES-GCM key, and every
    plaintext that is well-formed UTF-16 (no unpaired surrogate) and does
    not begin with U+FEFF, [decryptStr] applied to the [data], [iv] and
    [tag] that [encryptStr] returned, with the same key, returns the
    plaintext. *)
Theorem C8_round_trip
  {P : Platform} (k p : jsstring) (env env' : Env) (w w' : World) :
  imports k -> gcm_inverts ->
  legal_length (key_length k) ->
  List.length (random_iv env) = 12%nat ->
  well_formed p = true -> begins_with_bom p = false ->
  exists blob w1 data iv tag,
    Eec.Aes.Gcm.encryptStr (JStr p) (JStr k) env w = (Normal blob, w1)
    /\ get blob (lit "data") = Normal data
    /\ get blob (lit "iv") = Normal iv
    /\ get blob (lit "tag") = Normal tag
    /\ fst (Eec.Aes.Gcm.decryptStr data iv tag (JStr k) env' w') = Normal (JStr p).
Proof.
  intros Imp Inv K IV W B.
  destruct (encrypt_then_decrypt k p env w env' w' Imp Inv K IV)
    as (blob & w1 & data & iv & tag & E & G1 & G2 & G3 & D).
  rewrite (decode_encode_string p W B) in D.
  exists blob, w1, data, iv, tag. auto.
Qed.

Lemma C8_witness :
  let k := lit "0123456789abcdef" in
  let p := lit "Hello, World!" in
  let env := Sim.env Sim.iv0 (NetworkError JNull) in
  let w := Sim.established "" in
  imports (P := Sim.platform) k
  /\ gcm_inverts (P := Sim.platform)
  /\ legal_length (key_length k)
  /\ List.length (random_iv env) = 12%nat
  /\ well_formed p = true /\ begins_with_bom p = false
  /\ exists blob w1 data iv tag,
       Eec.Aes.Gcm.encryptStr (P := Sim.platform) (JStr p) (JStr k) env w
       = (Normal blob, w1)
       /\ get blob (lit "data") = Normal data
       /\ get blob (lit "iv") = Normal iv
       /\ get blob (lit "tag") = Normal tag
       /\ fst (Eec.Aes.Gcm.decryptStr (P := Sim.platform) data iv tag (JStr k) env w)
          = Normal (JStr p).
Proof.
  intros k p env w.
  assert (K : legal_length (key_length k)) by (left; reflexivity).
  assert (I : imports (P := Sim.platform) k) by exact (legal_key_imports k Sim_imports K).
  split; [exact I|]. split; [exact Sim_inverts|].
  split; [exact K|]. repeat (split; [reflexivity|]).
  exact (C8_round_trip (P := Sim.platform) k p env env w w
           I Sim_inverts K eq_refl eq_refl eq_refl).
Defined.

(** C8, as stated, fails on two kinds of plaintext and on one kind of
    provider.  A plaintext that begins with U+FEFF comes back without it,
    the decoder taking it for a byte order mark; an unpaired surrogate
    comes back as U+FFFD, the encoder having replaced it.  And on a
    browser that has no AES-192, though its decryption inverts its
    encryption, a key of 24 bytes is refused at its import: [encryptStr]
    returns the empty object, whose fields [decryptStr] turns into the
    empty string. *)
Lemma C8_counterexample :
  let k := JStr (lit "0123456789abcdef") in
  let env := Sim.env Sim.iv0 (NetworkError JNull) in
  let w := Sim.established "" in
  let field p n :=
    match fst (Eec.Aes.Gcm.encryptStr (P := Sim.platform) (JStr p) k env w) with
    | Normal blob =>
        match get blob (lit n) with Normal v => v | Throw _ => JUndefined end
    | Throw _ => JUndefined
    end in
  let back p :=
    fst (Eec.Aes.Gcm.decryptStr (P := Sim.platform)
           (field p "data"%string) (field p "iv"%string) (field p "tag"%string)
           k env w) in
  let k24 := lit "0123456789abcdef01234567" in
  let blob24 :=
    fst (Eec.Aes.Gcm.encryptStr (P := SimFaults.no_aes192) (JStr (lit "hi"))
           (JStr k24) SimFaults.env_no_aes192 SimFaults.world_no_aes192) in
  legal_length (key_length (lit "0123456789abcdef"))
  /\ back (0xFEFF%N :: lit "hi") = Normal (JStr (lit "hi"))
  /\ lit "hi" <> 0xFEFF%N :: lit "hi"
  /\ back [0xD800%N] = Normal (JStr [0xFFFD%N])
  /\ [0xFFFD%N] <> [0xD800%N]
  /\ gcm_inverts (P := SimFaults.no_aes192)
  /\ legal_length (key_length k24)
  /\ blob24 = Normal (JObj [])
  /\ fst (Eec.Aes.Gcm.decryptStr (P := SimFaults.no_aes192)
            (member (JObj []) (lit "data")) (member (JObj []) (lit "iv"))
            (member (JObj []) (lit "tag")) (JStr k24)
            SimFaults.env_no_aes192 SimFaults.world_no_aes192)
     = Normal (JStr [])
  /\ lit "hi" <> [].
Proof.
  cbv zeta. split; [left; reflexivity|].
  split; [vm_compute; reflexivity|]. split; [discriminate|].
  split; [vm_compute; reflexivity|]. split; [discriminate|].
  split; [exact Sim_inverts|].
  split; [right; left; reflexivity|].
  split; [vm_compute; reflexivity|].
  split; [vm_compute; reflexivity | discriminate].
Qed.

(** The mark is lost on every provider, not only on the simulated one:
    under the conditions of the round trip (a key of legal length that
    the provider imports, decryption undoing encryption, a 12-byte IV), a
    well-formed plaintext put after U+FEFF comes back without the mark. *)
Lemma bom_is_lost
  {P : Platform} (k p : jsstring) (env env' : Env) (w w' : World) :
  imports k -> gcm_inverts ->
  legal_length (key_length k) ->
  List.length (random_iv env) = 12%nat ->
  well_formed p = true ->
  exists blob w1 data iv tag,
    Eec.Aes.Gcm.encryptStr (JStr (0xFEFF%N :: p)) (JStr k) env w = (Normal blob, w1)
    /\ get blob (lit "data") = Normal data
    /\ get blob (lit "iv") = Normal iv
    /\ get blob (lit "tag") = Normal tag
    /\ fst (Eec.Aes.Gcm.decryptStr data iv tag (JStr k) env' w') = Normal (JStr p).
Proof.
  intros Imp Inv K IV W.
  destruct (encrypt_then_decrypt k (0xFEFF%N :: p) env w env' w' Imp Inv K IV)
    as (blob & w1 & data & iv & tag & E & G1 & G2 & G3 & D).
  rewrite (decode_encode_bom p W) in D.
  exists blob, w1, data, iv, tag. auto.
Qed.

(** ** Further properties *)

(** Base64 text is not canonical for [atob]: the spare bits of the last
    sextet are dropped, so two texts that differ can carry the same bytes.
    This is why a tampered field is one whose bytes are not a genuine
    encryption, whatever its text. *)
Lemma base64_text_not_canonical :
  Base64.atob (lit "YR==") = Base64.atob (lit "YQ==")
  /\ Base64.atob (lit "YQ==") = Normal (lit "a").
Proof. split; vm_compute; reflexivity. Qed.

(** Base64 round trip of the wire format: decoding what [encryptStr]
    writes for a byte array gives the array back. *)
Lemma wire_base64_round_trip
  {P : Platform} (bs : list byte) (env env' : Env) (w w' : World) :
  exists v,
    Eec.Aes.Gcm.b64 bs env w = (Normal v, w)
    /\ Eec.Aes.Gcm.unb64 v env' w' = (Normal bs, w').
Proof.
  exists (JStr (Base64.encode (Encoding.fromCharCode bs))).
  split; [apply b64_run | apply unb64_b64].
Qed.

(** In the first copy the entry check wants [S.session_user], which only
    [work] assigns, and only after the check: on a channel where nothing
    else has set it, every call fails at the check and leaves the world as
    it was, so the next call fails as well. *)
Lemma copy1_never_starts
  {P : Platform} (operate args algorithm message : JsVal) (env : Env) (w : World) :
  truthy (session_user (S_ w)) = false ->
  Res.api.work Copy1 operate args algorithm message env w
  = (Normal (JBool false, JStr (lit "error"), JNum 999), w).
Proof.
  intros H. unfold Res.api.work, Res.api.work_body, Res.api.send.
  assert (C : Res.api.check Copy1 env w = (Throw (Error Res.msg_no_channel), w)).
  { unfold Res.api.check. munfold. rewrite H, orb_true_r. reflexivity. }
  rewrite (catch_throw _ _ (bind_throw _ _ (bind_throw _ _ C))).
  reflexivity.
Qed.

Lemma copy1_never_starts_witness :
  let w := {| S_ := {| rsa := None; aes_key := JStr (lit "0123456789abcdef");
                       pubPem := JNull; session_user := JNull |};
              events := [] |} in
  truthy (session_user (S_ w)) = false
  /\ Res.api.work (P := Sim.platform) Copy1 (JStr (lit "get_user")) (JObj [])
       (JStr []) (JStr []) (Sim.env Sim.iv0 Sim.tampered) w
     = (Normal (JBool false, JStr (lit "error"), JNum 999), w).
Proof.
  intros w. split; [reflexivity|].
  exact (copy1_never_starts (P := Sim.platform) (JStr (lit "get_user")) (JObj [])
           (JStr []) (JStr []) (Sim.env Sim.iv0 Sim.tampered) w eq_refl).
Defined.

(** The UTF-8 codec pair is the identity on well-formed strings that do
    not begin with U+FEFF. *)
Lemma text_codec_round_trip (p : jsstring) :
  well_formed p = true -> begins_with_bom p = false ->
  Encoding.TextEncoder_encode (JStr p) = Normal (Encoding.encode_string p)
  /\ Encoding.TextDecoder_decode (Encoding.encode_string p) = p.
Proof.
  intros W B. split; [reflexivity | now apply decode_encode_string].
Qed.

Lemma text_codec_round_trip_witness :
  let p := [0x48; 0xE9; 0x20AC; 0xD83D; 0xDE00]%N in
  well_formed p = true /\ begins_with_bom p = false
  /\ Encoding.TextDecoder_decode (Encoding.encode_string p) = p.
Proof.
  intros p. split; [reflexivity|]. split; [reflexivity|].
  exact (proj2 (text_codec_round_trip p eq_refl eq_refl)).
Defined.

(** Neither protocol lets an exception out: [Res.api.work] always returns
    a triple and [Res.rs.work] always returns a boolean. *)
Lemma protocols_never_throw
  {P : Platform} (c : Copy) (operate args algorithm message : JsVal)
  (env : Env) (w : World) :
  (exists t w', Res.api.work c operate args algorithm message env w = (Normal t, w'))
  /\ (exists b w', Res.rs.work env w = (Normal (JBool b), w')).
Proof.
  split.
  - unfold Res.api.work, try_catch.
    match goal with
    | |- context [Res.api.work_body ?a ?b ?x ?y ?z env w] =>
        destruct (Res.api.work_body a b x y z env w) as [[t|e] w']
    end; unfold ret; eauto.
  - unfold Res.rs.work, try_catch.
    destruct (Res.rs.work_body env w) as [[v|e] w'] eqn:E; unfold ret; [|eauto].
    exists true, w'. f_equal. f_equal.
    unfold Res.rs.work_body in E.
    do 6 (apply bind_inv in E as (? & ? & _ & E)).
    match type of E with
    | Res.rs.install ?res env ?w1 = _ =>
        destruct (install_run res env w1) as [(k & evs & R) | (e & evs & R)];
        rewrite R in E
    end; [now injection E | discriminate].
Qed.

Lemma bom_is_lost_witness :
  let k := lit "0123456789abcdef" in
  let env := Sim.env Sim.iv0 (NetworkError JNull) in
  let w := Sim.established "" in
  legal_length (key_length k)
  /\ exists blob w1 data iv tag,
       Eec.Aes.Gcm.encryptStr (P := Sim.platform)
         (JStr (0xFEFF%N :: lit "hi")) (JStr k) env w = (Normal blob, w1)
       /\ get blob (lit "data") = Normal data
       /\ get blob (lit "iv") = Normal iv
       /\ get blob (lit "tag") = Normal tag
       /\ fst (Eec.Aes.Gcm.decryptStr (P := Sim.platform) data iv tag (JStr k) env w)
          = Normal (JStr (lit "hi")).
Proof.
  intros k env w.
  assert (K : legal_length (key_length k)) by (left; reflexivity).
  split; [exact K|].
  exact (bom_is_lost (P := Sim.platform) k (lit "hi") env env w w
           (legal_key_imports k Sim_imports K) Sim_inverts K eq_refl eq_refl).
Defined.

(* ================================================================== *)
(** * The code around the protocols *)
(* ================================================================== *)

(** ** Calls on a channel whose key cannot be used *)

Section MoreRuns.
Context {P : Platform}.

(** The request of a call that reaches its [fetch]. *)
Lemma send_request c operate args algorithm message env w res w1 :
  Res.api.send c operate args algorithm message env w = (Normal res, w1) ->
  exists evs req,
    w1 = {| S_ := set_session_user (sha256_hex (aes_key (S_ w))) (S_ w);
            events := events w ++ evs ++ [EvFetch req] |}
    /\ fetches evs = []
    /\ url req = lit "/api" /\ method req = lit "POST"
    /\ credentials req = Some (lit "include")
    /\ headers req = [(lit "Content-Type", JStr (lit "application/json"));
                      (lit "session_user", sha256_hex (aes_key (S_ w)))]
    /\ res = server env req.
Proof.
  unfold Res.api.send, Res.api.check, Res.api.stringify. munfold.
  destruct (match c with Copy1 => _ | Copy2 => _ end); [discriminate|].
  destruct (JSON_stringify _) as [t1|]; [|discriminate].
  destruct (negb (truthy algorithm)).
  - destruct (encryptStr_run (JStr t1) (aes_key (S_ w)) env w) as (v & e1 & -> & F1).
    destruct (JSON_stringify _) as [t2|]; [|discriminate].
    cbn [S_ events].
    destruct (sha256_run (aes_key (S_ w)) env {| S_ := S_ w; events := events w ++ e1 |})
      as (e2 & -> & F2).
    cbn [S_ events]. intros [= <- <-].
    exists (e1 ++ e2). eexists. rewrite <- !app_assoc. split; [reflexivity|].
    rewrite fetches_app, F1, F2. repeat split.
  - destruct (JSON_stringify _) as [t2|]; [|discriminate].
    destruct (sha256_run (aes_key (S_ w)) env w) as (e2 & -> & F2).
    cbn [S_ events]. intros [= <- <-].
    exists e2. eexists. rewrite <- !app_assoc. split; [reflexivity|]. repeat split; auto.
Qed.

Lemma decryptStr_invalid_key data iv tag k env w :
  ~ legal_length (key_length k) ->
  Eec.Aes.Gcm.decryptStr data iv tag (JStr k) env w = (Normal (JStr []), w).
Proof.
  intros H. unfold Eec.Aes.Gcm.decryptStr, Eec.Aes.Gcm.decryptStr_body,
    Eec.Aes.Gcm.decrypt_with.
  rewrite (catch_throw _ _
             (bind_throw _ _ (bind_throw _ _ (check_key_invalid k env w H)))).
  reflexivity.
Qed.


Lemma receive_invalid_key res env w k :
  json_rejects_empty ->
  aes_key (S_ w) = JStr k -> ~ legal_length (key_length k) ->
  exists e, Res.api.receive res env w = (Throw e, w).
Proof.
  intros J K L. unfold Res.api.receive.
  destruct res as [e|ok status json]; [unfold throw; eauto|].
  destruct (negb ok); [unfold throw; eauto|]. munfold.
  destruct json as [r|e]; [|eauto].
  destruct (get r (lit "data")) as [blob|e]; [|eauto].
  destruct (get blob (lit "data")) as [d|e]; [|eauto].
  destruct (get blob (lit "iv")) as [i|e]; [|eauto].
  destruct (get blob (lit "tag")) as [t|e]; [|eauto].
  rewrite K, (decryptStr_invalid_key d i t k env w L).
  unfold Res.api.parse. munfold. rewrite J. eauto.
Qed.

(** One call made with a key that cannot be used. *)
Lemma invalid_key_call c operate args algorithm message env w k :
  json_rejects_empty ->
  aes_key (S_ w) = JStr k -> ~ legal_length (key_length k) ->
  exists e w',
    Res.api.work c operate args algorithm message env w
    = (Normal (Res.api.failure c e), w')
    /\ aes_key (S_ w') = JStr k.
Proof.
  intros J K L. unfold Res.api.work.
  match goal with
  | |- context [Res.api.work_body ?a ?b ?x ?y ?z] =>
      destruct (Res.api.work_body a b x y z env w) as [[t|e] w'] eqn:E
  end.
  - exfalso. unfold Res.api.work_body in E.
    apply bind_inv in E as (res & w1 & Es & E).
    apply bind_inv in E as (rp & w2 & R & _).
    destruct (send_normal _ _ _ _ _ _ _ _ _ Es) as (evs & req & -> & _).
    match type of R with
    | Res.api.receive res env ?w1 = _ =>
        destruct (receive_invalid_key res env w1 k J K L) as [e R']
    end.
    rewrite R' in R. discriminate.
  - rewrite (catch_throw _ _ E). unfold ret. exists e, w'. split; [reflexivity|].
    destruct (work_body_throw_keeps_key _ _ _ _ _ _ _ _ _ E) as (A & _).
    congruence.
Qed.

(** Calls made without a key all fail and change nothing. *)
Lemma calls_without_channel c cs w :
  truthy (aes_key (S_ w)) = false ->
  Forall (failed c) (fst (calls c cs w)) /\ snd (calls c cs w) = w.
Proof.
  intros T. induction cs as [|cl rest IH]; [split; [constructor | reflexivity]|].
  cbn [calls].
  assert (E : call c cl w = (Normal (Res.api.failure c (Error Res.msg_no_channel)), w)).
  { unfold call. now apply work_without_channel. }
  rewrite E. destruct (calls c rest w) as [rs w2]. cbn [fst snd] in *.
  destruct IH as (F & ->). split; [|reflexivity].
  constructor; [eexists; reflexivity | exact F].
Qed.

End MoreRuns.

Lemma Sim_rejects_empty : json_rejects_empty (P := Sim.platform).
Proof. reflexivity. Qed.

(** A key whose byte length is not an AES key size stays where it is.
    With such a key in [S.aes_key] (the handshake installs whatever the
    server sent), every call of any sequence of calls to [Res.api.work]
    returns the failure triple, whatever the servers answer: no response
    can be decrypted, and [JSON.parse] rejects the empty text.
    [S.aes_key] still holds the key after the last call. *)
Theorem invalid_key_never_recovers
  {P : Platform} (c : Copy) (cs : list Call) (w : World) (k : jsstring) :
  json_rejects_empty ->
  aes_key (S_ w) = JStr k -> ~ legal_length (key_length k) ->
  Forall (failed c) (fst (calls c cs w))
  /\ aes_key (S_ (snd (calls c cs w))) = JStr k.
Proof.
  intros J K L. revert w K.
  induction cs as [|cl rest IH]; intros w K.
  - split; [constructor | exact K].
  - cbn [calls].
    destruct (invalid_key_call c (call_operate cl) (call_args cl)
                (call_algorithm cl) (call_message cl) (call_env cl) w k J K L)
      as (e & w1 & E & K1).
    fold (call c cl w) in E. rewrite E.
    destruct (IH w1 K1) as (F & K2).
    destruct (calls c rest w1) as [rs w2]. cbn [fst snd] in *.
    split; [|exact K2]. constructor; [eexists; reflexivity | exact F].
Qed.

Lemma invalid_key_never_recovers_witness :
  let w := Sim.established "hello" in
  let cs := [a_call Sim.tampered; a_call SimKeys.rekeying;
             a_call (NetworkError JNull)] in
  json_rejects_empty (P := Sim.platform)
  /\ aes_key (S_ w) = JStr (lit "hello")
  /\ ~ legal_length (key_length (lit "hello"))
  /\ Forall (failed Copy2) (fst (calls (P := Sim.platform) Copy2 cs w))
  /\ aes_key (S_ (snd (calls (P := Sim.platform) Copy2 cs w))) = JStr (lit "hello").
Proof.
  intros w cs.
  assert (L : ~ legal_length (key_length (lit "hello"))).
  { intros [H | [H | H]]; discriminate H. }
  split; [exact Sim_rejects_empty|]. split; [reflexivity|]. split; [exact L|].
  exact (invalid_key_never_recovers (P := Sim.platform) Copy2 cs w
           (lit "hello") Sim_rejects_empty eq_refl L).
Defined.



(** A payload without a usable [key] member ends the channel.  When a
    cycle succeeds and the [key] member of its decrypted payload is
    missing, null, empty or otherwise falsy, that value is what
    [S.aes_key] holds afterwards, and all the calls made later fail and
    leave the world untouched: nothing is sent until a new handshake. *)
Theorem keyless_payload_closes_channel
  {P : Platform} (c : Copy) (cl : Call) (later : list Call) (w w2 : World)
  (k : JsVal) :
  cycle c cl w = Some (k, w2) -> truthy k = false ->
  aes_key (S_ w2) = k
  /\ Forall (failed c) (fst (calls c later w2))
  /\ snd (calls c later w2) = w2.
Proof.
  intros C T. destruct (cycle_rotates _ _ _ _ _ C) as (K & _).
  split; [exact K|]. apply calls_without_channel. now rewrite K.
Qed.

Lemma keyless_payload_closes_channel_witness :
  let later := [a_call SimKeys.rekeying; a_call SimKeys.rekeying] in
  exists k w2,
    cycle (P := Sim.platform) Copy2 (a_call SimKeys.keyless)
      (Sim.established "0123456789abcdef") = Some (k, w2)
    /\ truthy k = false
    /\ aes_key (S_ w2) = k
    /\ Forall (failed Copy2) (fst (calls (P := Sim.platform) Copy2 later w2))
    /\ snd (calls (P := Sim.platform) Copy2 later w2) = w2.
Proof.
  intros later.
  destruct (cycle (P := Sim.platform) Copy2 (a_call SimKeys.keyless)
              (Sim.established "0123456789abcdef")) as [[k w2]|] eqn:E;
    [|vm_compute in E; discriminate E].
  exists k, w2. split; [reflexivity|].
  assert (T : truthy k = false).
  { vm_compute in E. injection E as <- _. reflexivity. }
  split; [exact T|].
  exact (keyless_payload_closes_channel (P := Sim.platform) Copy2
           (a_call SimKeys.keyless) later
           (Sim.established "0123456789abcdef") w2 k E T).
Defined.

(** ** What a call sends and returns *)

(** The footprint of [Res.api.work].  Whatever its arguments, the state,
    the provider and the server, a call leaves [S.rsa] and [S.pubPem] as
    they were and sends at most one request.  When it sends none, [S] is
    untouched.  When it sends one, that request is a POST to [/api] with
    credentials included, a JSON content type and the hash of the key
    found in [S] as [session_user], and that hash is what
    [S.session_user] holds after the call. *)
Theorem api_work_footprint
  {P : Platform} (c : Copy) (operate args algorithm message : JsVal)
  (env : Env) (w : World) :
  rsa (S_ (snd (Res.api.work c operate args algorithm message env w))) = rsa (S_ w)
  /\ pubPem (S_ (snd (Res.api.work c operate args algorithm message env w)))
     = pubPem (S_ w)
  /\ (fetches (added w (snd (Res.api.work c operate args algorithm message env w)))
      = []
      /\ S_ (snd (Res.api.work c operate args algorithm message env w)) = S_ w
      \/ exists req,
           fetches (added w (snd (Res.api.work c operate args algorithm message env w)))
           = [req]
           /\ url req = lit "/api" /\ method req = lit "POST"
           /\ credentials req = Some (lit "include")
           /\ header (lit "Content-Type") req = Some (JStr (lit "application/json"))
           /\ header (lit "session_user") req = Some (sha256_hex (aes_key (S_ w)))
           /\ session_user (S_ (snd (Res.api.work c operate args algorithm message
                                       env w)))
              = sha256_hex (aes_key (S_ w))).
Proof.
  unfold Res.api.work, Res.api.work_body.
  set (snd_ := Res.api.send _ _ _ _ _).
  destruct (snd_ env w) as [[res|e] w1] eqn:Es; subst snd_.
  - rewrite (catch_bind_normal _ _ _ Es).
    destruct (send_request _ _ _ _ _ _ _ _ _ Es)
      as (e0 & rq & -> & F0 & U & Me & Cr & Hd & _).
    match goal with
    | |- context [try_catch _ _ _ ?w1] =>
        destruct (after_send c res env w1) as (r & s' & evs & -> & F & HS)
    end.
    cbn [snd events S_].
    assert (A : rsa s' = rsa (S_ w) /\ pubPem s' = pubPem (S_ w)
                /\ session_user s' = sha256_hex (aes_key (S_ w))).
    { destruct HS as [(e & _ & ->) | (result & parsed & k & _ & _ & ->)];
        cbn; auto. }
    destruct A as (A1 & A2 & A3). split; [exact A1|]. split; [exact A2|].
    right. exists rq. rewrite <- !app_assoc, added_app.
    rewrite !fetches_app, F0, F. cbn [fetches flat_map app].
    unfold header. rewrite Hd. repeat split; auto.
  - rewrite (catch_throw _ _ (bind_throw _ _ Es)). unfold ret. cbn [snd].
    destruct (send_throw _ _ _ _ _ _ _ _ _ Es) as (evs & -> & F).
    cbn [S_]. split; [reflexivity|]. split; [reflexivity|].
    left. now rewrite added_app.
Qed.

(** What a successful call returns.  When the response is 2xx, its body
    is [result], the blob under [result.data] decrypts under the current
    key to a text that parses to [parsed], the call returns
    [[parsed.data, result.message, result.code]] and installs
    [parsed.key]: the first element and the new key come out of the
    encrypted payload, the message and the code out of the part of the
    response that is not encrypted. *)
Theorem successful_call_result
  {P : Platform} (c : Copy) (operate args algorithm message : JsVal)
  (env : Env) (w w1 : World) (status : Z)
  (result blob data iv tag parsed : JsVal) (text : jsstring) :
  Res.api.send c operate (Res.api.default_arg args (JObj []))
    (Res.api.default_arg algorithm (JStr []))
    (Res.api.default_arg message (JStr [])) env w
  = (Normal (Response true status (Normal result)), w1) ->
  get result (lit "data") = Normal blob ->
  get blob (lit "data") = Normal data ->
  get blob (lit "iv") = Normal iv ->
  get blob (lit "tag") = Normal tag ->
  fst (Eec.Aes.Gcm.decryptStr data iv tag (aes_key (S_ w)) env w1)
  = Normal (JStr text) ->
  JSON_parse text = Some parsed ->
  nullish parsed = false ->
  exists w2,
    Res.api.work c operate args algorithm message env w
    = (Normal (member parsed (lit "data"), member result (lit "message"),
               member result (lit "code")), w2)
    /\ aes_key (S_ w2) = member parsed (lit "key").
Proof.
  intros Es G0 G1 G2 G3 D J NN.
  destruct (send_normal _ _ _ _ _ _ _ _ _ Es) as (e0 & req & W1 & _).
  assert (K1 : aes_key (S_ w1) = aes_key (S_ w)) by (rewrite W1; reflexivity).
  destruct (decryptStr_run data iv tag (aes_key (S_ w)) env w1)
    as (s & evs & Dr & _).
  rewrite Dr in D. cbn in D. injection D as ->.
  pose proof (get_normal_inv _ _ _ G0) as NR.
  destruct (get_normal parsed (lit "key") NN) as [k Gk].
  destruct (get_normal parsed (lit "data") NN) as [d Gd].
  destruct (get_normal result (lit "message") NR) as [m Gm].
  destruct (get_normal result (lit "code") NR) as [cd Gc].
  unfold Res.api.work, Res.api.work_body.
  rewrite (catch_bind_normal _ _ _ Es).
  eexists. split.
  - unfold Res.api.receive, Res.api.rotate, Res.api.parse. cbn [negb].
    munfold. rewrite G0, G1, G2, G3, K1, Dr, J. cbn [fst snd S_ events].
    rewrite Gk, Gd, Gm, Gc. unfold member. rewrite Gd, Gm, Gc. reflexivity.
  - unfold member. rewrite Gk. reflexivity.
Qed.

Lemma successful_call_result_witness :
  let payload := JObj [(lit "data", JNum 1);
                       (lit "key", JStr (lit "fedcba9876543210"))] in
  let env := Sim.env Sim.iv0 SimKeys.rekeying in
  let w := Sim.established "0123456789abcdef" in
  let sent := Res.api.send (P := Sim.platform) Copy2 (JStr (lit "get_user"))
                (JObj []) (JStr []) (JStr []) env w in
  sent = (Normal SimKeys.rekeying, snd sent)
  /\ JSON_parse (Platform := Sim.platform) (Sim.write payload) = Some payload
  /\ exists w2,
       Res.api.work (P := Sim.platform) Copy2 (JStr (lit "get_user")) (JObj [])
         JUndefined JUndefined env w
       = (Normal (JNum 1, JStr (lit "ok"), JNum 7), w2)
       /\ aes_key (S_ w2) = JStr (lit "fedcba9876543210").
Proof.
  intros payload env w sent.
  assert (H : sent = (Normal SimKeys.rekeying, snd sent)) by (vm_compute; reflexivity).
  assert (J : JSON_parse (Platform := Sim.platform) (Sim.write payload)
              = Some payload) by (vm_compute; reflexivity).
  split; [exact H|]. split; [exact J|].
  refine (successful_call_result (P := Sim.platform) Copy2
            (JStr (lit "get_user")) (JObj []) JUndefined JUndefined
            env w (snd sent) 200
            (Sim.envelope "0123456789abcdef" payload 7)
            _ _ _ _ payload (Sim.write payload) H _ _ _ _ _ J eq_refl).
  - reflexivity.
  - reflexivity.
  - reflexivity.
  - reflexivity.
  - vm_compute. reflexivity.
Defined.

Section RequestBlob.
Context {P : Platform}.

(** The blob [encryptStr] returns, with the world it leaves. *)
Lemma encryptStr_blob (k p : jsstring) env w env' w' :
  imports k -> gcm_inverts ->
  legal_length (key_length k) ->
  List.length (random_iv env) = 12%nat ->
  exists data iv tag evs,
    Eec.Aes.Gcm.encryptStr (JStr p) (JStr k) env w
    = (Normal (JObj [(lit "iv", iv); (lit "data", data); (lit "tag", tag)]),
       {| S_ := S_ w; events := events w ++ evs |})
    /\ fetches evs = []
    /\ fst (Eec.Aes.Gcm.decryptStr data iv tag (JStr k) env' w')
       = Normal (JStr (Encoding.TextDecoder_decode (Encoding.encode_string p))).
Proof.
  intros Imp Inv K IV.
  apply valid_key_length_legal in K. unfold key_length in K.
  destruct Imp as [ck I].
  destruct (Inv ck (random_iv env) (Encoding.encode_string p) IV) as (c & E & D).
  set (ct := Eec.Aes.Gcm.slice_ciphertext c).
  set (tg := Eec.Aes.Gcm.slice_tag c).
  pose (b := fun bs => JStr (Base64.encode (Encoding.fromCharCode bs))).
  exists (b ct), (b (random_iv env)), (b tg).
  eexists. split; [|split].
  - unfold Eec.Aes.Gcm.encryptStr, Eec.Aes.Gcm.encryptStr_body,
      Eec.Aes.Gcm.encrypt_with, Eec.Aes.Gcm.check_key, Eec.Aes.Gcm.importKey,
      Eec.Aes.Gcm.getRandomValues, Encoding.TextEncoder_encode.
    cbn [ToString]. munfold. rewrite K, I. cbn [S_ events]. rewrite E.
    rewrite !b64_run. cbn [S_ events]. rewrite <- !app_assoc. reflexivity.
  - reflexivity.
  - unfold Eec.Aes.Gcm.decryptStr, Eec.Aes.Gcm.decryptStr_body,
      Eec.Aes.Gcm.decrypt_with, Eec.Aes.Gcm.check_key, Eec.Aes.Gcm.importKey,
      Encoding.TextEncoder_encode.
    cbn [ToString]. unfold b. munfold. rewrite K, I.
    rewrite !unb64_b64.
    unfold ct, tg, Eec.Aes.Gcm.slice_ciphertext, Eec.Aes.Gcm.slice_tag.
    rewrite firstn_skipn, D. reflexivity.
Qed.

End RequestBlob.

(** What a call sends.  On a provider whose AES-GCM decryption inverts
    its encryption under a 12-byte IV, with a key of legal length that the
    provider imports, a 12-byte IV from [getRandomValues], no algorithm,
    and [JSON.stringify] serialising [{ operate, args }] (to a well-formed
    text) and the envelope: the one request of a call has as body the
    serialisation of the envelope whose [content] is an object with the
    members [iv], [data] and [tag], in that order, and those three decrypt
    under the key to the serialisation of [{ operate, args }].  (In the
    first copy [S.session_user] must be set for the call to start.) *)
Theorem request_carries_encrypted_operation
  {P : Platform} (c : Copy) (operate args message : JsVal)
  (env env' : Env) (w w' : World) (k t1 : jsstring) :
  imports k -> gcm_inverts ->
  aes_key (S_ w) = JStr k -> legal_length (key_length k) ->
  (c = Copy1 -> truthy (session_user (S_ w)) = true) ->
  List.length (random_iv env) = 12%nat ->
  JSON_stringify
    (JObj [(lit "operate", operate);
           (lit "args", Res.api.default_arg args (JObj []))]) = Some t1 ->
  well_formed t1 = true -> begins_with_bom t1 = false ->
  (forall content, exists t2,
     JSON_stringify
       (JObj [(lit "message", Res.api.default_arg message (JStr []));
              (lit "compression", JBool false);
              (lit "algorithm", JStr []);
              (lit "content", content)]) = Some t2) ->
  exists req data iv tag t2,
    fetches (added w (snd (Res.api.work c operate args JUndefined message env w)))
    = [req]
    /\ body req = Text t2
    /\ JSON_stringify
         (JObj [(lit "message", Res.api.default_arg message (JStr []));
                (lit "compression", JBool false);
                (lit "algorithm", JStr []);
                (lit "content",
                 JObj [(lit "iv", iv); (lit "data", data); (lit "tag", tag)])])
       = Some t2
    /\ fst (Eec.Aes.Gcm.decryptStr data iv tag (JStr k) env' w')
       = Normal (JStr t1).
Proof.
  intros Imp Inv K L C1 IV S1 W B S2.
  assert (Lk : k <> []).
  { intros ->. destruct L as [L | [L | L]]; discriminate L. }
  assert (T : truthy (aes_key (S_ w)) = true).
  { rewrite K. destruct k; [contradiction | reflexivity]. }
  assert (C : Res.api.check c env w = (Normal tt, w)).
  { destruct c; [apply check_passes_copy1; auto | now apply check_passes_copy2]. }
  destruct (encryptStr_blob k t1 env w env' w' Imp Inv L IV)
    as (data & iv & tag & e1 & Ee & F1 & D).
  rewrite (decode_encode_string t1 W B) in D.
  destruct (S2 (JObj [(lit "iv", iv); (lit "data", data); (lit "tag", tag)]))
    as [t2 St2].
  set (req := {| url := lit "/api"; method := lit "POST";
                 headers := [(lit "Content-Type", JStr (lit "application/json"));
                             (lit "session_user", sha256_hex (JStr k))];
                 credentials := Some (lit "include");
                 body := Text t2 |}).
  destruct (sha256_run (JStr k) env {| S_ := S_ w; events := events w ++ e1 |})
    as (e2 & Hh & F2).
  assert (Es : Res.api.send c operate (Res.api.default_arg args (JObj []))
                 (Res.api.default_arg JUndefined (JStr []))
                 (Res.api.default_arg message (JStr [])) env w
               = (Normal (server env req),
                  {| S_ := set_session_user (sha256_hex (JStr k)) (S_ w);
                     events := ((events w ++ e1) ++ e2) ++ [EvFetch req] |})).
  { unfold Res.api.send. rewrite (bind_normal _ _ C).
    unfold Res.api.stringify. rewrite S1. cbn [Res.api.default_arg truthy negb].
    munfold. rewrite K, Ee.
    cbn [Res.api.not_empty_string]. rewrite St2. cbn [S_ aes_key].
    rewrite K, Hh. reflexivity. }
  unfold Res.api.work, Res.api.work_body.
  rewrite (catch_bind_normal _ _ _ Es).
  match goal with
  | |- context [try_catch _ _ env ?w1] =>
      destruct (after_send c (server env req) env w1) as (r & s' & evs & -> & F & _)
  end.
  exists req, data, iv, tag, t2. cbn [snd events]. rewrite <- !app_assoc, added_app.
  rewrite !fetches_app, F1, F2, F. cbn. auto.
Qed.

Lemma request_carries_encrypted_operation_witness :
  let env := Sim.env Sim.iv0 (NetworkError JNull) in
  let w := Sim.established "0123456789abcdef" in
  let k := lit "0123456789abcdef" in
  let t1 := Sim.write (JObj [(lit "operate", JStr (lit "get_user"));
                             (lit "args", JObj [])]) in
  legal_length (key_length k)
  /\ well_formed t1 = true /\ begins_with_bom t1 = false
  /\ exists req data iv tag t2,
       fetches (added w (snd (Res.api.work (P := Sim.platform) Copy2
                                (JStr (lit "get_user")) (JObj [])
                                JUndefined JUndefined env w)))
       = [req]
       /\ body req = Text t2
       /\ JSON_stringify (Platform := Sim.platform)
            (JObj [(lit "message", JStr []);
                   (lit "compression", JBool false);
                   (lit "algorithm", JStr []);
                   (lit "content",
                    JObj [(lit "iv", iv); (lit "data", data); (lit "tag", tag)])])
          = Some t2
       /\ fst (Eec.Aes.Gcm.decryptStr (P := Sim.platform) data iv tag (JStr k) env w)
          = Normal (JStr t1).
Proof.
  intros env w k t1.
  assert (K : legal_length (key_length k)) by (left; reflexivity).
  split; [exact K|]. split; [reflexivity|]. split; [reflexivity|].
  refine (request_carries_encrypted_operation (P := Sim.platform) Copy2
            (JStr (lit "get_user")) (JObj []) JUndefined env env w w k t1
            (legal_key_imports k Sim_imports K) Sim_inverts eq_refl K _ eq_refl eq_refl eq_refl eq_refl _).
  - discriminate.
  - intros content. eexists. reflexivity.
Defined.

(** ** The footprint of the handshake *)

Section HandshakeFootprint.
Context {P : Platform}.

Lemma install_footprint res env w1 r w2 :
  Res.rs.install res env w1 = (r, w2) ->
  exists evs,
    events w2 = events w1 ++ evs /\ fetches evs = []
    /\ rsa (S_ w2) = rsa (S_ w1) /\ pubPem (S_ w2) = pubPem (S_ w1)
    /\ session_user (S_ w2) = session_user (S_ w1)
    /\ (aes_key (S_ w2) = aes_key (S_ w1) /\ (exists e, r = Throw e)
        \/ (exists k, aes_key (S_ w2) = JStr k) /\ r = Normal (JBool true)).
Proof.
  unfold Res.rs.install. destruct res as [e|ok status json].
  { unfold throw. intros [= <- <-]. exists []. rewrite app_nil_r. eauto 10. }
  destruct (negb ok).
  { unfold throw. intros [= <- <-]. exists []. rewrite app_nil_r. eauto 10. }
  munfold. destruct json as [result|e].
  2:{ intros [= <- <-]. exists []. rewrite app_nil_r. eauto 10. }
  destruct (get result (lit "data")) as [encryptedKey|e].
  2:{ intros [= <- <-]. exists []. rewrite app_nil_r. eauto 10. }
  destruct (RSA.decrypt encryptedKey (lit "hex") env w1) as [[k|e] w3] eqn:D;
    destruct (quiet_run (quiet_rsa_decrypt _ _) D) as (evs & -> & F);
    intros [= <- <-]; exists evs; cbn; eauto 12.
Qed.

Lemma rsa_decrypt_events cipherText input env w r w' :
  RSA.decrypt cipherText input env w = (r, w') ->
  exists bs, prefix_of (added w w') [EvRsaDecrypt bs].
Proof.
  unfold RSA.decrypt, RSA.this. munfold.
  destruct (rsa (S_ w)) as [rr|].
  2:{ intros [= <- <-]. exists []. rewrite added_same. eexists; reflexivity. }
  destruct (key rr) as [kp|].
  2:{ intros [= <- <-]. exists []. rewrite added_same. eexists; reflexivity. }
  destruct (str_eqb input (lit "hex")).
  - destruct cipherText;
      try (intros [= <- <-]; exists []; rewrite added_same; eexists; reflexivity).
    destruct (RSA.match_chunks 2 s) as [parts|].
    2:{ intros [= <- <-]. exists []. rewrite added_same. eexists; reflexivity. }
    cbn [S_ events].
    destruct (subtle_decrypt_rsa kp _); intros [= <- <-]; eexists;
      rewrite added_app; exists []; reflexivity.
  - destruct (Base64.atob_val cipherText) as [b|e].
    2:{ intros [= <- <-]. exists []. rewrite added_same. eexists; reflexivity. }
    cbn [S_ events].
    destruct (subtle_decrypt_rsa kp _); intros [= <- <-]; eexists;
      rewrite added_app; exists []; reflexivity.
Qed.

Lemma install_events res env w1 r w2 :
  Res.rs.install res env w1 = (r, w2) ->
  exists bs, prefix_of (added w1 w2) [EvRsaDecrypt bs].
Proof.
  unfold Res.rs.install. destruct res as [e|ok status json].
  { unfold throw. intros [= <- <-]. exists []. rewrite added_same. eexists; reflexivity. }
  destruct (negb ok).
  { unfold throw. intros [= <- <-]. exists []. rewrite added_same. eexists; reflexivity. }
  munfold. destruct json as [result|e].
  2:{ intros [= <- <-]. exists []. rewrite added_same. eexists; reflexivity. }
  destruct (get result (lit "data")) as [encryptedKey|e].
  2:{ intros [= <- <-]. exists []. rewrite added_same. eexists; reflexivity. }
  destruct (RSA.decrypt encryptedKey (lit "hex") env w1) as [[k|e] w3] eqn:D;
    destruct (rsa_decrypt_events _ _ _ _ _ _ D) as (bs & T);
    intros [= <- <-]; exists bs; exact T.
Qed.

End HandshakeFootprint.

(** The footprint of [Res.rs.work].  A handshake never touches
    [S.session_user]; it always replaces [S.rsa], by an RSA object that
    holds the generated pair or, when generation failed, no key; it
    returns [false] with [S.aes_key] as it was, or [true] with a string
    in [S.aes_key]; and it sends at most one request, a POST to [/rs]
    whose form has the one field [user_key_pub_pem], equal to the
    [S.pubPem] it leaves. *)
Theorem rs_work_footprint {P : Platform} (env : Env) (w : World) :
  session_user (S_ (snd (Res.rs.work env w))) = session_user (S_ w)
  /\ (exists r, rsa (S_ (snd (Res.rs.work env w))) = Some r
                /\ key r = generated env)
  /\ (fst (Res.rs.work env w) = Normal (JBool false)
      /\ aes_key (S_ (snd (Res.rs.work env w))) = aes_key (S_ w)
      \/ fst (Res.rs.work env w) = Normal (JBool true)
         /\ exists k, aes_key (S_ (snd (Res.rs.work env w))) = JStr k)
  /\ (fetches (added w (snd (Res.rs.work env w))) = []
      \/ exists pem,
           fetches (added w (snd (Res.rs.work env w))) = [rs_request_of pem]
           /\ pubPem (S_ (snd (Res.rs.work env w))) = JStr pem).
Proof.
  unfold Res.rs.work, try_catch.
  destruct (Res.rs.work_body env w) as [r w'] eqn:E.
  assert (H : session_user (S_ w') = session_user (S_ w)
              /\ (exists r, rsa (S_ w') = Some r /\ key r = generated env)
              /\ (aes_key (S_ w') = aes_key (S_ w) /\ (exists e, r = Throw e)
                  \/ (exists k, aes_key (S_ w') = JStr k) /\ r = Normal (JBool true))
              /\ (fetches (added w w') = []
                  \/ exists pem, fetches (added w w') = [rs_request_of pem]
                                 /\ pubPem (S_ w') = JStr pem)).
  { revert E. unfold Res.rs.work_body, RSA.init, RSA.getPublicKey_pem, RSA.this,
      RSA._arrayBufferToBase64.
    munfold. cbn [S_ rsa set_rsa events key name hash RSA.new].
    destruct (generated env) as [kp|] eqn:G.
    2:{ intros [= <- <-]. cbn [S_ events session_user set_rsa rsa aes_key].
        split; [reflexivity|]. split; [eexists; split; [reflexivity|reflexivity]|].
        split; [left; eauto|]. left. now rewrite added_app. }
    cbn [S_ rsa set_rsa events key name hash RSA.new].
    destruct (subtle_exportKey kp) as [spki|].
    2:{ intros [= <- <-]. cbn [S_ events session_user set_rsa rsa aes_key].
        split; [reflexivity|]. split; [eexists; split; [reflexivity|reflexivity]|].
        split; [left; eauto|]. left. now rewrite <- app_assoc, added_app. }
    rewrite btoa_bytes.
    destruct (RSA.match_chunks 64 _) as [lines|].
    2:{ intros [= <- <-]. cbn [S_ events session_user set_rsa rsa aes_key].
        split; [reflexivity|]. split; [eexists; split; [reflexivity|reflexivity]|].
        split; [left; eauto|]. left. now rewrite <- app_assoc, added_app. }
    cbn [S_ rsa set_rsa set_pubPem events pubPem aes_key session_user].
    intros E.
    destruct (install_footprint _ _ _ _ _ E) as (evs & Ev & F & R1 & R2 & R3 & R4).
    cbn [S_ events rsa pubPem session_user aes_key] in Ev, R1, R2, R3, R4.
    split; [exact R3|]. split; [eexists; split; [exact R1|reflexivity]|].
    split; [exact R4|].
    right. eexists. split; [|exact R2].
    destruct w' as [s' ev']. cbn [events] in Ev. subst ev'.
    rewrite <- !app_assoc, added_app. rewrite !fetches_app, F. reflexivity. }
  destruct H as (H1 & H2 & H3 & H4).
  destruct r as [v|e]; unfold ret; cbn [fst snd].
  - split; [exact H1|]. split; [exact H2|]. split; [|exact H4].
    destruct H3 as [(_ & e & He) | (Hk & Hv)]; [discriminate|].
    right. split; [exact Hv | exact Hk].
  - split; [exact H1|]. split; [exact H2|]. split; [|exact H4].
    destruct H3 as [(Hk & _) | (_ & Hv)]; [|discriminate].
    left. split; [reflexivity | exact Hk].
Qed.

(** What the handshake asks of the outside, and in which order: the
    events of a run are a beginning of the list
    [generateKey, exportKey, fetch("/rs"), decrypt]; nothing is called
    twice, and nothing else is called. *)
Theorem handshake_trace {P : Platform} (env : Env) (w : World) :
  exists pem bs,
    prefix_of (added w (snd (Res.rs.work env w)))
      [EvGenerateKey; EvExportKey; EvFetch (rs_request_of pem); EvRsaDecrypt bs].
Proof.
  unfold Res.rs.work, try_catch.
  destruct (Res.rs.work_body env w) as [r w'] eqn:E.
  assert (H : exists pem bs,
            prefix_of (added w w')
              [EvGenerateKey; EvExportKey; EvFetch (rs_request_of pem);
               EvRsaDecrypt bs]).
  { revert E. unfold Res.rs.work_body, RSA.init, RSA.getPublicKey_pem, RSA.this,
      RSA._arrayBufferToBase64.
    munfold. cbn [S_ rsa set_rsa events key name hash RSA.new].
    destruct (generated env) as [kp|] eqn:G.
    2:{ intros [= <- <-]. exists [], []. rewrite added_app. eexists; reflexivity. }
    cbn [S_ rsa set_rsa events key name hash RSA.new].
    destruct (subtle_exportKey kp) as [spki|].
    2:{ intros [= <- <-]. exists [], []. rewrite <- app_assoc, added_app.
        eexists; reflexivity. }
    rewrite btoa_bytes.
    destruct (RSA.match_chunks 64 _) as [lines|].
    2:{ intros [= <- <-]. exists [], []. rewrite <- app_assoc, added_app.
        eexists; reflexivity. }
    cbn [S_ rsa set_rsa set_pubPem events pubPem aes_key session_user].
    intros E.
    destruct (install_footprint _ _ _ _ _ E) as (evs & Ev & _).
    destruct (install_events _ _ _ _ _ E) as (bs & rest & T).
    cbn [events] in Ev.
    eexists. exists bs.
    destruct w' as [s' ev']. cbn [events] in Ev. subst ev'.
    unfold added in T. cbn [events] in T.
    rewrite skipn_app, skipn_all, Nat.sub_diag in T. cbn [skipn app] in T.
    rewrite <- !app_assoc, added_app. cbn [app].
    exists rest. cbn [app]. rewrite <- T. reflexivity. }
  destruct r as [v|e]; unfold ret; cbn [snd]; exact H.
Qed.

(** ** Eec.Bytes and Eec.B64 *)

Section LoopFacts.

Lemma store_at (v : byte) (a : list byte) : forall b rest,
  Eec.B64.store (List.length a) v (a ++ b :: rest) = a ++ v :: rest.
Proof.
  induction a as [|x a IH]; intros b rest; cbn; [reflexivity|].
  now rewrite IH.
Qed.

Lemma firstn_snoc (s : jsstring) (i : nat) :
  (i < List.length s)%nat ->
  firstn (Datatypes.S i) s = firstn i s ++ [nth i s 0%N].
Proof.
  revert i. induction s as [|c s IH]; intros i H; cbn in H; [lia|].
  destruct i as [|i]; [reflexivity|].
  cbn [firstn nth app]. rewrite <- IH by lia. reflexivity.
Qed.

Lemma char_codes_prefix (s : jsstring) (i : nat) :
  (i <= List.length s)%nat ->
  fold_left
    (fun bytes j => Eec.B64.store j (Encoding.byte_of_N (Eec.B64.charCodeAt s j)) bytes)
    (seq 0 i) (repeat x00 (List.length s))
  = map Encoding.byte_of_N (firstn i s) ++ repeat x00 (List.length s - i).
Proof.
  induction i as [|i IH]; intros H.
  - cbn. now rewrite Nat.sub_0_r.
  - rewrite seq_S, fold_left_app, IH by lia. cbn [fold_left Nat.add].
    replace (List.length s - i)%nat with (Datatypes.S (List.length s - Datatypes.S i))
      by lia.
    cbn [repeat].
    assert (L : List.length (map Encoding.byte_of_N (firstn i s)) = i).
    { rewrite length_map, length_firstn. lia. }
    rewrite <- L at 1. rewrite store_at.
    rewrite firstn_snoc by lia. rewrite map_app, <- app_assoc. reflexivity.
Qed.

(** The loop of [decodeStr] and [decodeBytes] stores every code unit of
    the string, in order. *)
Lemma char_codes_map (s : jsstring) :
  Eec.B64.char_codes s = Encoding.bytes_of_binary s.
Proof.
  unfold Eec.B64.char_codes. rewrite char_codes_prefix by lia.
  rewrite firstn_all, Nat.sub_diag. cbn. apply app_nil_r.
Qed.

End LoopFacts.

Section CodecFacts.
Context {D : Decoders}.

Lemma decoder_utf8 (encoding : JsVal) :
  names_utf8 encoding ->
  TextDecoder_new (or_default encoding (JStr (lit "utf-8")))
  = Normal Encoding.TextDecoder_decode.
Proof.
  intros [-> | (label & -> & H)]; [reflexivity|].
  cbn [or_default]. unfold TextDecoder_new. cbn [ToString]. now rewrite H.
Qed.

Lemma encodeBytes_value (bs : list byte) (e : JsVal) :
  Eec.B64.encodeBytes bs e = Base64.encode (Encoding.fromCharCode bs).
Proof. unfold Eec.B64.encodeBytes. now rewrite btoa_bytes. Qed.

Lemma char_of_in (v : N) : (v < 64)%N -> In (Base64.char_of v) Base64.alphabet.
Proof.
  intros H. unfold Base64.char_of. apply nth_In.
  change (List.length Base64.alphabet) with 64%nat. lia.
Qed.

Lemma encode_chars (bs : list N) :
  small 256 bs -> Forall base64_char (Base64.encode bs).
Proof.
  induction bs as [| a | a b | a b c l IH] using list_ind3; intros H.
  - constructor.
  - inversion H; subst. cbn [Base64.encode].
    repeat (apply Forall_cons; [first [right; reflexivity | left; apply char_of_in; divlia]|]).
    constructor.
  - inversion H as [|? ? Ha H1]; subst. inversion H1 as [|? ? Hb H2]; subst.
    cbn [Base64.encode].
    repeat (apply Forall_cons; [first [right; reflexivity | left; apply char_of_in; divlia]|]).
    constructor.
  - inversion H as [|? ? Ha H1]; subst. inversion H1 as [|? ? Hb H2]; subst.
    inversion H2 as [|? ? Hc H3]; subst.
    cbn [Base64.encode].
    repeat (apply Forall_cons; [left; apply char_of_in; divlia|]).
    now apply IH.
Qed.

Lemma encode_length (bs : list N) :
  List.length (Base64.encode bs) = (4 * ((List.length bs + 2) / 3))%nat.
Proof.
  induction bs as [| a | a b | a b c l IH] using list_ind3; try reflexivity.
  cbn [Base64.encode List.length]. rewrite IH.
  replace (Datatypes.S (Datatypes.S (Datatypes.S (List.length l))) + 2)%nat
    with ((List.length l + 2) + 1 * 3)%nat by lia.
  rewrite Nat.div_add by lia. lia.
Qed.

End CodecFacts.

(** [Eec.B64.decodeBytes] undoes [Eec.B64.encodeBytes] on every byte
    array, whatever the [encoding] arguments. *)
Theorem B64_bytes_round_trip (bs : list byte) (e1 e2 : JsVal) :
  Eec.B64.decodeBytes (JStr (Eec.B64.encodeBytes bs e1)) e2 = bs.
Proof.
  rewrite encodeBytes_value. unfold Eec.B64.decodeBytes, Base64.atob_val.
  cbn [ToString]. rewrite (atob_encode _ (bytes_small bs)), char_codes_map.
  apply bytes_of_binary_fromCharCode.
Qed.

(** The text round trips of [Eec.Bytes] and [Eec.B64].  For a string
    that is well-formed UTF-16 and does not begin with U+FEFF, and a
    decoding [encoding] that is left out or is a label of UTF-8 (in any
    case, with white space around it), [bts] undoes [stb] and [decodeStr]
    undoes [encodeStr]; the [encoding] given to [stb] and [encodeStr]
    plays no part. *)
Theorem text_round_trips
  {D : Decoders} (p : jsstring) (e1 e2 : JsVal) :
  well_formed p = true -> begins_with_bom p = false -> names_utf8 e2 ->
  Eec.Bytes.bts (Eec.Bytes.stb (JStr p) e1) e2 = p
  /\ Eec.B64.decodeStr (JStr (Eec.B64.encodeStr (JStr p) e1)) e2 = p.
Proof.
  intros W B U. split.
  - unfold Eec.Bytes.bts, Eec.Bytes.stb. rewrite (decoder_utf8 _ U).
    cbn [Encoding.TextEncoder_encode ToString].
    now apply decode_encode_string.
  - unfold Eec.B64.decodeStr, Eec.B64.encodeStr, Base64.atob_val.
    cbn [Encoding.TextEncoder_encode ToString].
    rewrite btoa_bytes. cbn [ToString].
    rewrite (atob_encode _ (bytes_small _)), char_codes_map,
      bytes_of_binary_fromCharCode, (decoder_utf8 _ U).
    now apply decode_encode_string.
Qed.

Lemma text_round_trips_witness :
  let p := [0x48; 0xE9; 0x20AC; 0xD83D; 0xDE00]%N in
  well_formed p = true /\ begins_with_bom p = false
  /\ names_utf8 (JStr (lit " UTF-8"))
  /\ Eec.Bytes.bts (D := SimKeys.decoders) (Eec.Bytes.stb (JStr p) JUndefined)
       (JStr (lit " UTF-8")) = p
  /\ Eec.B64.decodeStr (D := SimKeys.decoders)
       (JStr (Eec.B64.encodeStr (JStr p) (JStr (lit "gbk")))) (JStr (lit " UTF-8")) = p.
Proof.
  intros p.
  assert (U : names_utf8 (JStr (lit " UTF-8"))).
  { right. eexists. split; reflexivity. }
  split; [reflexivity|]. split; [reflexivity|]. split; [exact U|].
  exact (text_round_trips (D := SimKeys.decoders) p JUndefined
           (JStr (lit " UTF-8")) eq_refl eq_refl U).
Defined.

Section OtherLabels.
Context {D : Decoders}.

Lemma decoder_other (label : jsstring) :
  Label.is_utf8 label = false ->
  TextDecoder_new (or_default (JStr label) (JStr (lit "utf-8")))
  = match other_decoder (Label.normal_form label) with
    | Some decode => Normal decode
    | None => Throw (RangeError (lit "The encoding label provided is invalid."))
    end.
Proof.
  intros H. cbn [or_default]. unfold TextDecoder_new. cbn [ToString].
  now rewrite H.
Qed.

Lemma decodeStr_encodeStr (p : jsstring) (e1 e2 : JsVal) :
  Eec.B64.decodeStr (JStr (Eec.B64.encodeStr (JStr p) e1)) e2
  = Eec.Bytes.bts (Encoding.encode_string p) e2.
Proof.
  unfold Eec.B64.decodeStr, Eec.B64.encodeStr, Eec.Bytes.bts, Base64.atob_val.
  cbn [Encoding.TextEncoder_encode ToString].
  rewrite btoa_bytes. cbn [ToString].
  now rewrite (atob_encode _ (bytes_small _)), char_codes_map,
    bytes_of_binary_fromCharCode.
Qed.

End OtherLabels.

(** The [encoding] argument counts on the decoding side only.  With a
    label that does not name UTF-8 given to both directions, [stb] and
    [encodeStr] still write UTF-8; [bts] and [decodeStr] apply the
    label's decoder to those bytes, so what comes back is that decoding
    of the UTF-8 bytes, and the empty string when the browser does not
    know the label. *)
Theorem encoding_is_honoured_on_decoding_only
  {D : Decoders} (p label : jsstring) :
  Label.is_utf8 label = false ->
  (forall decode, other_decoder (Label.normal_form label) = Some decode ->
     Eec.Bytes.bts (Eec.Bytes.stb (JStr p) (JStr label)) (JStr label)
     = decode (Encoding.encode_string p)
     /\ Eec.B64.decodeStr (JStr (Eec.B64.encodeStr (JStr p) (JStr label)))
          (JStr label)
        = decode (Encoding.encode_string p))
  /\ (other_decoder (Label.normal_form label) = None ->
      Eec.Bytes.bts (Eec.Bytes.stb (JStr p) (JStr label)) (JStr label) = []
      /\ Eec.B64.decodeStr (JStr (Eec.B64.encodeStr (JStr p) (JStr label)))
           (JStr label) = []).
Proof.
  intros U. rewrite decodeStr_encodeStr.
  unfold Eec.Bytes.stb. cbn [Encoding.TextEncoder_encode ToString].
  unfold Eec.Bytes.bts. rewrite (decoder_other label U).
  split.
  - intros decode ->. split; reflexivity.
  - intros ->. split; reflexivity.
Qed.

Lemma encoding_is_honoured_on_decoding_only_witness :
  let label := lit "X-User-Defined" in
  let p := [0xE9%N] in
  Label.is_utf8 label = false
  /\ Eec.B64.decodeStr (D := SimKeys.decoders)
       (JStr (Eec.B64.encodeStr (JStr p) (JStr label))) (JStr label)
     = [0xF7C3; 0xF7A9]%N
  /\ Eec.B64.decodeStr (D := SimKeys.decoders)
       (JStr (Eec.B64.encodeStr (JStr p) (JStr (lit "gbk")))) (JStr (lit "gbk"))
     = [].
Proof.
  intros label p.
  split; [reflexivity|]. split.
  - exact (proj2 (proj1 (encoding_is_honoured_on_decoding_only (D := SimKeys.decoders)
                           p label eq_refl) SimKeys.x_user_defined eq_refl)).
  - exact (proj2 (proj2 (encoding_is_honoured_on_decoding_only (D := SimKeys.decoders)
                           p (lit "gbk") eq_refl) eq_refl)).
Defined.

(** The text [Eec.B64.encodeBytes] makes of [n] bytes has
    [4 * ceil(n / 3)] characters, all of them of the Base64 alphabet or
    the padding sign; in particular the empty text of its [catch] is
    returned for the empty array only. *)
Theorem encodeBytes_shape (bs : list byte) (e : JsVal) :
  List.length (Eec.B64.encodeBytes bs e) = (4 * ((List.length bs + 2) / 3))%nat
  /\ Forall base64_char (Eec.B64.encodeBytes bs e).
Proof.
  rewrite encodeBytes_value. split.
  - rewrite encode_length. unfold Encoding.fromCharCode. now rewrite length_map.
  - apply encode_chars, bytes_small.
Qed.

(** ** Keys and blobs of the symmetric layer *)

Section KeyFacts.
Context {P : Platform}.

Lemma scalar_values_ascii (s : jsstring) :
  ascii_only s -> Encoding.scalar_values s = s.
Proof.
  induction 1 as [|c s Hc Hs IH]; [reflexivity|].
  cbn [Encoding.scalar_values].
  assert (H1 : Encoding.is_high c = false).
  { unfold Encoding.is_high. apply andb_false_iff. left. apply N.leb_gt. lia. }
  assert (H2 : Encoding.is_low c = false).
  { unfold Encoding.is_low. apply andb_false_iff. left. apply N.leb_gt. lia. }
  now rewrite H1, H2, IH.
Qed.

Lemma utf8_ascii (s : jsstring) :
  ascii_only s -> flat_map Encoding.utf8_of_scalar s = s.
Proof.
  induction 1 as [|c s Hc Hs IH]; [reflexivity|].
  cbn [flat_map]. unfold Encoding.utf8_of_scalar at 1.
  apply N.ltb_lt in Hc. rewrite Hc. cbn [app]. now rewrite IH.
Qed.

Lemma encode_string_ascii (s : jsstring) :
  ascii_only s -> Encoding.encode_string s = map Encoding.byte_of_N s.
Proof.
  intros H. unfold Encoding.encode_string.
  now rewrite (scalar_values_ascii s H), (utf8_ascii s H).
Qed.

End KeyFacts.

(** The length test counts UTF-8 bytes.  For a key made of ASCII
    characters the byte length is the number of characters, so the test
    of the four symmetric operations passes when the key has 16, 24 or 32
    characters and throws the invalid-key error otherwise. *)
Theorem ascii_key_check
  {P : Platform} (k : jsstring) (env : Env) (w : World) :
  ascii_only k ->
  key_length k = List.length k
  /\ (legal_length (List.length k) ->
      Eec.Aes.Gcm.check_key (JStr k) env w
      = (Normal (map Encoding.byte_of_N k), w))
  /\ (~ legal_length (List.length k) ->
      Eec.Aes.Gcm.check_key (JStr k) env w = (Throw invalid_key_error, w)).
Proof.
  intros A.
  assert (L : key_length k = List.length k).
  { unfold key_length. rewrite (encode_string_ascii k A). apply length_map. }
  split; [exact L|]. split.
  - intros H. unfold Eec.Aes.Gcm.check_key, Encoding.TextEncoder_encode.
    cbn [ToString]. munfold. rewrite (encode_string_ascii k A).
    assert (V : Eec.Aes.Gcm.valid_key_length (map Encoding.byte_of_N k) = true).
    { apply valid_key_length_legal. now rewrite length_map. }
    now rewrite V.
  - intros H. apply check_key_invalid. now rewrite L.
Qed.

Lemma ascii_key_check_witness :
  let env := Sim.env Sim.iv0 (NetworkError JNull) in
  let w := Sim.established "" in
  ascii_only (lit "0123456789abcdef") /\ ascii_only (lit "hello")
  /\ legal_length (List.length (lit "0123456789abcdef"))
  /\ ~ legal_length (List.length (lit "hello"))
  /\ Eec.Aes.Gcm.check_key (P := Sim.platform) (JStr (lit "0123456789abcdef")) env w
     = (Normal (map Encoding.byte_of_N (lit "0123456789abcdef")), w)
  /\ Eec.Aes.Gcm.check_key (P := Sim.platform) (JStr (lit "hello")) env w
     = (Throw invalid_key_error, w).
Proof.
  intros env w.
  assert (A1 : ascii_only (lit "0123456789abcdef")).
  { repeat (apply Forall_cons; [reflexivity|]). apply Forall_nil. }
  assert (A2 : ascii_only (lit "hello")).
  { repeat (apply Forall_cons; [reflexivity|]). apply Forall_nil. }
  assert (L1 : legal_length (List.length (lit "0123456789abcdef")))
    by (left; reflexivity).
  assert (L2 : ~ legal_length (List.length (lit "hello"))).
  { intros [H | [H | H]]; discriminate H. }
  split; [exact A1|]. split; [exact A2|]. split; [exact L1|]. split; [exact L2|].
  split.
  - exact (proj1 (proj2 (ascii_key_check (P := Sim.platform)
                           (lit "0123456789abcdef") env w A1)) L1).
  - exact (proj2 (proj2 (ascii_key_check (P := Sim.platform)
                           (lit "hello") env w A2)) L2).
Defined.

(** The byte-array round trip.  On a provider whose AES-GCM decryption
    inverts its encryption under a 12-byte IV, with a 12-byte IV from
    [getRandomValues]: [decryptBytes] applied to the three fields
    [encryptBytes] returned, with the same key, of legal length and
    imported by the provider, gives back the byte array, for every byte
    array: the limits of the string round trip (byte order mark, unpaired
    surrogates) do not apply. *)
Theorem gcm_bytes_round_trip
  {P : Platform} (k : jsstring) (bs : list byte) (env env' : Env) (w w' : World) :
  imports k -> gcm_inverts ->
  legal_length (key_length k) ->
  List.length (random_iv env) = 12%nat ->
  exists blob w1 data iv tag,
    Eec.Aes.Gcm.encryptBytes bs (JStr k) env w = (Normal blob, w1)
    /\ get blob (lit "data") = Normal data
    /\ get blob (lit "iv") = Normal iv
    /\ get blob (lit "tag") = Normal tag
    /\ fst (Eec.Aes.Gcm.decryptBytes data iv tag (JStr k) env' w') = Normal bs.
Proof.
  intros Imp Inv K IV.
  apply valid_key_length_legal in K. unfold key_length in K.
  destruct Imp as [ck I].
  destruct (Inv ck (random_iv env) bs IV) as (c & E & D).
  set (ct := Eec.Aes.Gcm.slice_ciphertext c).
  set (tg := Eec.Aes.Gcm.slice_tag c).
  pose (b := fun bs => JStr (Base64.encode (Encoding.fromCharCode bs))).
  exists (JObj [(lit "iv", b (random_iv env)); (lit "data", b ct); (lit "tag", b tg)]).
  eexists. exists (b ct), (b (random_iv env)), (b tg).
  split; [|split; [reflexivity|split; [reflexivity|split; [reflexivity|]]]].
  - unfold Eec.Aes.Gcm.encryptBytes, Eec.Aes.Gcm.encryptBytes_body,
      Eec.Aes.Gcm.encrypt_with, Eec.Aes.Gcm.check_key, Eec.Aes.Gcm.importKey,
      Eec.Aes.Gcm.getRandomValues, Encoding.TextEncoder_encode.
    cbn [ToString]. munfold. rewrite K, I. cbn [S_ events]. rewrite E.
    rewrite !b64_run. reflexivity.
  - unfold Eec.Aes.Gcm.decryptBytes, Eec.Aes.Gcm.decryptBytes_body,
      Eec.Aes.Gcm.decrypt_with, Eec.Aes.Gcm.check_key, Eec.Aes.Gcm.importKey,
      Encoding.TextEncoder_encode.
    cbn [ToString]. unfold b. munfold. rewrite K, I.
    rewrite !unb64_b64.
    unfold ct, tg, Eec.Aes.Gcm.slice_ciphertext, Eec.Aes.Gcm.slice_tag.
    rewrite firstn_skipn, D. reflexivity.
Qed.

Lemma gcm_bytes_round_trip_witness :
  let k := lit "0123456789abcdef" in
  let bs := [x00; xff; xef; xbb; xbf; xed; xa0; x80] in
  let env := Sim.env Sim.iv0 (NetworkError JNull) in
  let w := Sim.established "" in
  legal_length (key_length k)
  /\ List.length (random_iv env) = 12%nat
  /\ exists blob w1 data iv tag,
       Eec.Aes.Gcm.encryptBytes (P := Sim.platform) bs (JStr k) env w
       = (Normal blob, w1)
       /\ get blob (lit "data") = Normal data
       /\ get blob (lit "iv") = Normal iv
       /\ get blob (lit "tag") = Normal tag
       /\ fst (Eec.Aes.Gcm.decryptBytes (P := Sim.platform) data iv tag (JStr k) env w)
          = Normal bs.
Proof.
  intros k bs env w.
  assert (K : legal_length (key_length k)) by (left; reflexivity).
  split; [exact K|]. split; [reflexivity|].
  exact (gcm_bytes_round_trip (P := Sim.platform) k bs env env w w
           (legal_key_imports k Sim_imports K) Sim_inverts K eq_refl).
Defined.

(** The shape of an encrypted blob.  When the provider returns [c], of
    at least 16 bytes, for a 12-byte IV, [encryptStr] returns an object
    with the members [iv], [data] and [tag] in that order, all strings of
    Base64 characters: [iv] of 16 characters, [tag] of 24 (the last 16
    bytes of [c]) and [data] of [4 * ceil((|c| - 16) / 3)]. *)
Theorem encrypted_blob_shape
  {P : Platform} (k : jsstring) (data : JsVal) (env : Env) (w : World)
  (plain : list byte) (ck : AesKey) (c : list byte) :
  legal_length (key_length k) ->
  subtle_importKey (Encoding.encode_string k) = Some ck ->
  Encoding.TextEncoder_encode data = Normal plain ->
  subtle_encrypt ck (random_iv env) plain = Some c ->
  List.length (random_iv env) = 12%nat -> (16 <= List.length c)%nat ->
  exists iv64 data64 tag64 w1,
    Eec.Aes.Gcm.encryptStr data (JStr k) env w
    = (Normal (JObj [(lit "iv", JStr iv64); (lit "data", JStr data64);
                     (lit "tag", JStr tag64)]), w1)
    /\ List.length iv64 = 16%nat
    /\ List.length tag64 = 24%nat
    /\ List.length data64 = (4 * ((List.length c - 16 + 2) / 3))%nat
    /\ Forall base64_char (iv64 ++ data64 ++ tag64).
Proof.
  intros K I Ed E IV L.
  apply valid_key_length_legal in K. unfold key_length in K.
  set (ct := Eec.Aes.Gcm.slice_ciphertext c).
  set (tg := Eec.Aes.Gcm.slice_tag c).
  pose (b := fun bs => Base64.encode (Encoding.fromCharCode bs)).
  exists (b (random_iv env)), (b ct), (b tg). eexists.
  split; [|split; [|split; [|split]]].
  - unfold Eec.Aes.Gcm.encryptStr, Eec.Aes.Gcm.encryptStr_body,
      Eec.Aes.Gcm.encrypt_with, Eec.Aes.Gcm.check_key, Eec.Aes.Gcm.importKey,
      Eec.Aes.Gcm.getRandomValues.
    cbn [Encoding.TextEncoder_encode ToString]. rewrite Ed.
    munfold. rewrite K, I. cbn [S_ events]. rewrite E.
    rewrite !b64_run. reflexivity.
  - unfold b. rewrite encode_length. unfold Encoding.fromCharCode.
    rewrite length_map, IV. reflexivity.
  - unfold b, tg, Eec.Aes.Gcm.slice_tag. rewrite encode_length.
    unfold Encoding.fromCharCode. rewrite length_map, length_skipn.
    replace (List.length c - (List.length c - 16))%nat with 16%nat by lia.
    reflexivity.
  - unfold b, ct, Eec.Aes.Gcm.slice_ciphertext. rewrite encode_length.
    unfold Encoding.fromCharCode. rewrite length_map, length_firstn.
    now rewrite Nat.min_l by lia.
  - unfold b. rewrite !Forall_app.
    repeat split; apply encode_chars, bytes_small.
Qed.

Lemma encrypted_blob_shape_witness :
  let k := lit "0123456789abcdef" in
  let env := Sim.env Sim.iv0 (NetworkError JNull) in
  let w := Sim.established "" in
  let pt := Encoding.encode_string (lit "Hello") in
  let c := map Sim.shift_up pt
             ++ Sim.tag_of (Encoding.encode_string k) Sim.iv0 (map Sim.shift_up pt) in
  legal_length (key_length k)
  /\ List.length c = 21%nat
  /\ exists iv64 data64 tag64 w1,
       Eec.Aes.Gcm.encryptStr (P := Sim.platform) (JStr (lit "Hello")) (JStr k) env w
       = (Normal (JObj [(lit "iv", JStr iv64); (lit "data", JStr data64);
                        (lit "tag", JStr tag64)]), w1)
       /\ List.length iv64 = 16%nat
       /\ List.length tag64 = 24%nat
       /\ List.length data64 = (4 * ((List.length c - 16 + 2) / 3))%nat
       /\ Forall base64_char (iv64 ++ data64 ++ tag64).
Proof.
  intros k env w pt c.
  assert (K : legal_length (key_length k)) by (left; reflexivity).
  split; [exact K|]. split; [reflexivity|].
  refine (encrypted_blob_shape (P := Sim.platform) k (JStr (lit "Hello")) env w
            pt (Encoding.encode_string k) c K eq_refl eq_refl eq_refl eq_refl _).
  cbn. lia.
Defined.

(** What the symmetric operations ask of the provider.  The calls of
    [encryptStr] are a beginning of the list [importKey] of the key's
    bytes, [getRandomValues], [encrypt] of the data's bytes under the IV
    just drawn: no encryption happens under another IV.  The calls of
    [decryptStr] are a beginning of the list [importKey], [decrypt] of
    the ciphertext followed by the tag, under the IV the [iv] field
    carries. *)
Theorem symmetric_provider_traces
  {P : Platform} (data key iv tag : JsVal) (env : Env) (w : World)
  (keyBytes dataBytes : list byte) (ivs cts tags : jsstring) :
  Encoding.TextEncoder_encode key = Normal keyBytes ->
  (Encoding.TextEncoder_encode data = Normal dataBytes ->
   prefix_of (added w (snd (Eec.Aes.Gcm.encryptStr data key env w)))
     [EvImportKey keyBytes; EvGetRandomValues;
      EvEncrypt (random_iv env) dataBytes])
  /\ (Base64.atob_val iv = Normal ivs -> Base64.atob_val data = Normal cts ->
      Base64.atob_val tag = Normal tags ->
      prefix_of (added w (snd (Eec.Aes.Gcm.decryptStr data iv tag key env w)))
        [EvImportKey keyBytes;
         EvDecrypt (Encoding.bytes_of_binary ivs)
           (Encoding.bytes_of_binary cts ++ Encoding.bytes_of_binary tags)]).
Proof.
  intros Ek. split.
  - intros Ed. unfold Eec.Aes.Gcm.encryptStr, Eec.Aes.Gcm.encryptStr_body,
      Eec.Aes.Gcm.encrypt_with, Eec.Aes.Gcm.check_key, Eec.Aes.Gcm.importKey,
      Eec.Aes.Gcm.getRandomValues.
    munfold. rewrite Ek.
    destruct (Eec.Aes.Gcm.valid_key_length keyBytes).
    2:{ cbn [snd]. rewrite added_same. eexists; reflexivity. }
    cbn [S_ events].
    destruct (subtle_importKey keyBytes) as [ck|].
    2:{ cbn [snd]. rewrite added_app. eexists; reflexivity. }
    cbn [S_ events]. rewrite Ed.
    destruct (subtle_encrypt ck (random_iv env) dataBytes) as [c|].
    2:{ cbn [snd]. rewrite <- !app_assoc, added_app. exists []. reflexivity. }
    rewrite !b64_run. cbn [snd S_ events].
    rewrite <- !app_assoc, added_app. exists []. reflexivity.
  - intros Ei Ec Et. unfold Eec.Aes.Gcm.decryptStr, Eec.Aes.Gcm.decryptStr_body,
      Eec.Aes.Gcm.decrypt_with, Eec.Aes.Gcm.check_key, Eec.Aes.Gcm.importKey,
      Eec.Aes.Gcm.unb64.
    munfold. rewrite Ek.
    destruct (Eec.Aes.Gcm.valid_key_length keyBytes).
    2:{ cbn [snd]. rewrite added_same. eexists; reflexivity. }
    cbn [S_ events].
    destruct (subtle_importKey keyBytes) as [ck|].
    2:{ cbn [snd]. rewrite added_app. eexists; reflexivity. }
    cbn [S_ events]. rewrite Ei, Ec, Et.
    destruct (subtle_decrypt ck _ _) as [c|];
      cbn [snd S_ events]; rewrite <- !app_assoc, added_app; exists []; reflexivity.
Qed.

Lemma symmetric_provider_traces_witness :
  let key := JStr (lit "0123456789abcdef") in
  let env := Sim.env Sim.iv0 (NetworkError JNull) in
  let w := Sim.established "" in
  let kb := Encoding.encode_string (lit "0123456789abcdef") in
  let pt := Encoding.encode_string (lit "Hello") in
  added w (snd (Eec.Aes.Gcm.encryptStr (P := Sim.platform) (JStr (lit "Hello"))
                  key env w))
  = [EvImportKey kb; EvGetRandomValues; EvEncrypt Sim.iv0 pt]
  /\ prefix_of
       (added w (snd (Eec.Aes.Gcm.encryptStr (P := Sim.platform)
                        (JStr (lit "Hello")) key env w)))
       [EvImportKey kb; EvGetRandomValues; EvEncrypt (random_iv env) pt]
  /\ prefix_of
       (added w (snd (Eec.Aes.Gcm.decryptStr (P := Sim.platform)
                        (JStr (lit "YQ==")) (JStr (lit "YWFh")) (JStr (lit "YQ=="))
                        key env w)))
       [EvImportKey kb;
        EvDecrypt (Encoding.bytes_of_binary (lit "aaa"))
          (Encoding.bytes_of_binary (lit "a") ++ Encoding.bytes_of_binary (lit "a"))].
Proof.
  intros key env w kb pt.
  split; [vm_compute; reflexivity|].
  pose proof (symmetric_provider_traces (P := Sim.platform)
                (JStr (lit "Hello")) key JNull JNull env w kb pt [] [] []
                eq_refl) as T1.
  pose proof (symmetric_provider_traces (P := Sim.platform)
                (JStr (lit "YQ==")) key (JStr (lit "YWFh")) (JStr (lit "YQ=="))
                env w kb (Encoding.encode_string (lit "YQ=="))
                (lit "aaa") (lit "a") (lit "a") eq_refl) as T2.
  split; [exact (proj1 T1 eq_refl) | exact (proj2 T2 eq_refl eq_refl eq_refl)].
Defined.

(** ** The PEM text of the public key *)

Section PemFacts.
Context {P : Platform}.

Lemma base64_char_plain (c : N) : base64_char c -> plain c.
Proof.
  intros [H | ->]; [|split; [reflexivity | discriminate]].
  cbv in H.
  repeat (destruct H as [<- | H]; [split; [reflexivity | discriminate]|]).
  contradiction.
Qed.

Lemma plain_not_terminator (c : N) : plain c -> RSA.is_line_terminator c = false.
Proof.
  intros [W _]. unfold RSA.is_js_whitespace in W. unfold RSA.is_line_terminator.
  repeat (apply orb_false_iff in W as [W ?]).
  repeat (apply orb_false_iff; split); assumption.
Qed.

Lemma has_prefix_head (a c : N) (p s : jsstring) :
  a <> c -> RSA.has_prefix (a :: p) (c :: s) = false.
Proof.
  intros H. cbn [RSA.has_prefix].
  destruct (N.eqb_spec a c); [contradiction | reflexivity].
Qed.

Lemma strip_plain_cons (c : N) (rest : jsstring) :
  plain c -> RSA.strip_pem (c :: rest) 0 = c :: RSA.strip_pem rest 0.
Proof.
  intros [W D]. cbn [RSA.strip_pem].
  assert (B : exists t, RSA.pem_begin = 45%N :: t) by (eexists; reflexivity).
  assert (E : exists t, RSA.pem_end = 45%N :: t) by (eexists; reflexivity).
  destruct B as [tb ->], E as [te ->].
  rewrite !has_prefix_head by congruence. now rewrite W.
Qed.

Lemma strip_plain (l rest : jsstring) :
  Forall plain l -> RSA.strip_pem (l ++ rest) 0 = l ++ RSA.strip_pem rest 0.
Proof.
  induction 1 as [|c l Hc Hl IH]; [reflexivity|].
  cbn [app]. rewrite strip_plain_cons by assumption. now rewrite IH.
Qed.

Lemma strip_newline (rest : jsstring) :
  RSA.strip_pem (10%N :: rest) 0 = RSA.strip_pem rest 0.
Proof. reflexivity. Qed.

Lemma join_cons (sep p : jsstring) (l : list jsstring) :
  l <> [] -> join sep (p :: l) = p ++ sep ++ join sep l.
Proof. destruct l; [contradiction | reflexivity]. Qed.

Lemma strip_lines (n : nat) (tail : jsstring) (s : jsstring) : forall cur room,
  Forall plain s -> Forall plain cur ->
  RSA.strip_pem (join [10%N] (RSA.chunks n s cur room) ++ 10%N :: tail) 0
  = rev cur ++ s ++ RSA.strip_pem tail 0.
Proof.
  induction s as [|c s IH]; intros cur room Hs Hc.
  - cbn [RSA.chunks]. destruct cur as [|x cur].
    + reflexivity.
    + cbn [join]. rewrite strip_plain by (apply Forall_rev; assumption).
      now rewrite strip_newline.
  - inversion Hs as [|? ? Pc Ps]; subst. cbn [RSA.chunks].
    rewrite (plain_not_terminator c Pc).
    destruct room as [|room].
    + rewrite join_cons by (apply chunks_pending; discriminate).
      rewrite <- !app_assoc. rewrite strip_plain by (apply Forall_rev; assumption).
      cbn [app]. rewrite strip_newline.
      rewrite IH by (auto using Forall_cons). reflexivity.
    + rewrite IH by (auto using Forall_cons). cbn [rev]. now rewrite <- app_assoc.
Qed.

(** Removing the markers and the white space from the PEM text of a key
    leaves the Base64 text of the key. *)
Lemma strip_pem_of (spki : list byte) :
  RSA.strip_pem (pem_of spki) 0 = Base64.encode (Encoding.fromCharCode spki).
Proof.
  unfold pem_of.
  change (RSA.strip_pem
            (lit "-----BEGIN PUBLIC KEY-----" ++ [10%N] ++ ?x) 0)
    with (RSA.strip_pem x 0).
  change ([10%N] ++ lit "-----END PUBLIC KEY-----")
    with (10%N :: lit "-----END PUBLIC KEY-----").
  rewrite strip_lines.
  - cbn [rev app]. change (RSA.strip_pem (lit "-----END PUBLIC KEY-----") 0)
      with (@nil N). apply app_nil_r.
  - eapply Forall_impl; [apply base64_char_plain|].
    apply encode_chars, bytes_small.
  - constructor.
Qed.

Lemma wrapped_cons n l rest :
  rest <> [] -> List.length l = n -> wrapped n rest -> wrapped n (l :: rest).
Proof. destruct rest; [contradiction|]. cbn. auto. Qed.

(** [match(/.{1,n}/g)] on a text without line terminators cuts it
    into lines of [n] characters, the last one shorter or equal. *)
Lemma chunks_wrapped (n : nat) (s : jsstring) : forall cur room,
  Forall (fun c => RSA.is_line_terminator c = false) s ->
  (List.length cur + room = n)%nat -> (1 <= n)%nat ->
  List.concat (RSA.chunks n s cur room) = rev cur ++ s
  /\ wrapped n (RSA.chunks n s cur room).
Proof.
  induction s as [|c s IH]; intros cur room Hs L N.
  - cbn [RSA.chunks]. destruct cur as [|x cur].
    + split; [reflexivity | exact I].
    + split; [cbn [List.concat]; now rewrite !app_nil_r|].
      cbn [wrapped]. rewrite length_rev. cbn [List.length] in L |- *. lia.
  - inversion Hs as [|c0 s0 Tc Ts E0]. clear E0. cbn [RSA.chunks]. rewrite Tc.
    destruct room as [|room].
    + destruct (IH [c] (Nat.pred n) Ts) as (C & W); [cbn; lia | lia |].
      split.
      * cbn [List.concat]. rewrite C. reflexivity.
      * apply wrapped_cons; [apply chunks_pending; discriminate | | exact W].
        rewrite length_rev. lia.
    + destruct (IH (c :: cur) room Ts) as (C & W); [cbn; lia | lia |].
      split; [|exact W]. rewrite C. cbn [rev]. now rewrite <- app_assoc.
Qed.

End PemFacts.

Section PublicKeyRuns.
Context {P : Platform} {K : PublicKeys}.

Lemma this_run env w r : rsa (S_ w) = Some r -> RSA.this env w = (Normal r, w).
Proof. intros H. unfold RSA.this. munfold. now rewrite H. Qed.

Lemma getPublicKey_pem_run env w r kp spki :
  rsa (S_ w) = Some r -> key r = Some kp ->
  subtle_exportKey kp = Some spki -> spki <> [] ->
  RSA.getPublicKey_pem env w
  = (Normal (pem_of spki),
     {| S_ := S_ w; events := events w ++ [EvExportKey] |}).
Proof.
  intros R Kk X NE. unfold RSA.getPublicKey_pem, RSA.this, RSA._arrayBufferToBase64.
  munfold. rewrite R, Kk. cbn [S_ events]. rewrite X, btoa_bytes, (pem_lines spki NE).
  reflexivity.
Qed.

Lemma resolve_pem env w r spki :
  rsa (S_ w) = Some r ->
  RSA._resolvePublicKey (JStr (pem_of spki)) (JBool false) env w
  = (match subtle_importKey_spki (name r) (hash r) spki with
     | Some k => Normal k
     | None => Throw (Error RSA.msg_invalid_pem)
     end, w).
Proof.
  intros R. unfold RSA._resolvePublicKey.
  rewrite (bind_normal _ _ (this_run env w r R)).
  change (truthy (JStr (pem_of spki))) with true.
  change (truthy (JBool false)) with false. cbv iota. cbn [negb]. munfold.
  rewrite strip_pem_of, (atob_encode _ (bytes_small spki)),
    bytes_of_binary_fromCharCode.
  destruct (subtle_importKey_spki _ _ _); reflexivity.
Qed.

Lemma resolve_own pem env w r kp :
  rsa (S_ w) = Some r -> key r = Some kp ->
  RSA._resolvePublicKey pem (JBool true) env w = (Normal (publicKey kp), w).
Proof.
  intros R Kk. unfold RSA._resolvePublicKey.
  rewrite (bind_normal _ _ (this_run env w r R)). cbn [truthy]. now rewrite Kk.
Qed.

Lemma destructure_options u p o :
  RSA.destructure (options u p o)
  = Normal {| RSA.PublicKey_pem := or_default p JNull;
              RSA.use_myPublicKey := or_default u (JBool false);
              RSA.output := or_default o (JStr (lit "base64")) |}.
Proof. reflexivity. Qed.

Lemma bind_lift_normal {A B} (a : A) (f : A -> M B) env w :
  bind (lift (Normal a)) f env w = f a env w.
Proof. reflexivity. Qed.

Lemma encrypt_own seed p out env w r kp c :
  rsa (S_ w) = Some r -> key r = Some kp ->
  subtle_encrypt_rsa (name r) (publicKey kp) seed (Encoding.encode_string p)
  = Some c ->
  RSA.encrypt seed (JStr p) (options (JBool true) JUndefined out) env w
  = (Normal (if RSA.is_hex (or_default out (JStr (lit "base64")))
             then Encoding.hex_of_bytes c
             else Base64.encode (Encoding.fromCharCode c)), w).
Proof.
  intros R Kk E. unfold RSA.encrypt.
  rewrite (bind_normal _ _ (this_run env w r R)).
  rewrite destructure_options, bind_lift_normal.
  cbn [RSA.PublicKey_pem RSA.use_myPublicKey RSA.output].
  apply catch_normal.
  rewrite (bind_normal _ _ (resolve_own _ env w r kp R Kk)).
  cbn [Encoding.TextEncoder_encode ToString]. rewrite bind_lift_normal, E.
  rewrite bind_lift_normal.
  destruct (RSA.is_hex _); [reflexivity|].
  unfold RSA._arrayBufferToBase64. now rewrite btoa_bytes.
Qed.

Lemma catch_rethrow {A} (m : M A) (x : Exn) env w e w' :
  try_catch m (fun _ => throw x) env w = (Throw e, w') -> e = x.
Proof.
  unfold try_catch, throw. destruct (m env w) as [[a|e0] w0]; congruence.
Qed.

End PublicKeyRuns.

(** The PEM text [getPublicKey_pem] returns for an exported key that is
    not empty: the BEGIN line, then the Base64 text of the key cut into
    lines of exactly 64 characters, the last line having between 1 and
    64, then the END line, separated by single line feeds. *)
Theorem pem_is_well_formed
  {P : Platform} (env : Env) (w : World) (r : RSA) (kp : KeyPair)
  (spki : list byte) :
  rsa (S_ w) = Some r -> key r = Some kp ->
  subtle_exportKey kp = Some spki -> spki <> [] ->
  exists lines,
    fst (RSA.getPublicKey_pem env w)
    = Normal (lit "-----BEGIN PUBLIC KEY-----" ++ [10%N]
                ++ join [10%N] lines ++ [10%N]
                ++ lit "-----END PUBLIC KEY-----")
    /\ lines <> []
    /\ wrapped 64 lines
    /\ List.concat lines = Base64.encode (Encoding.fromCharCode spki)
    /\ Forall base64_char (List.concat lines).
Proof.
  intros R Kk X NE.
  exists (RSA.chunks 64 (Base64.encode (Encoding.fromCharCode spki)) [] 64).
  assert (B : Forall base64_char (Base64.encode (Encoding.fromCharCode spki))).
  { apply encode_chars, bytes_small. }
  destruct (chunks_wrapped 64 (Base64.encode (Encoding.fromCharCode spki)) [] 64)
    as (C & W); [| reflexivity | lia |].
  { eapply Forall_impl; [|exact B]. intros c H.
    apply plain_not_terminator, base64_char_plain, H. }
  split; [now rewrite (getPublicKey_pem_run env w r kp spki R Kk X NE)|].
  split.
  { pose proof (pem_lines spki NE) as H. unfold RSA.match_chunks in H.
    destruct (RSA.chunks 64 _ [] 64); [discriminate | discriminate]. }
  split; [exact W|]. split; [exact C|]. now rewrite C.
Qed.

Lemma pem_is_well_formed_witness :
  let kp := [x30; x82; x01; x22; x30; x0d; x06; x09] in
  let env := Sim.env Sim.iv0 (NetworkError JNull) in
  let w := SimKeys.with_key kp in
  exists lines,
    fst (RSA.getPublicKey_pem (P := Sim.platform) env w)
    = Normal (lit "-----BEGIN PUBLIC KEY-----" ++ [10%N]
                ++ join [10%N] lines ++ [10%N]
                ++ lit "-----END PUBLIC KEY-----")
    /\ lines <> []
    /\ wrapped 64 lines
    /\ List.concat lines = Base64.encode (Encoding.fromCharCode kp)
    /\ Forall base64_char (List.concat lines).
Proof.
  intros kp env w.
  refine (pem_is_well_formed (P := Sim.platform) env w _ kp kp
            eq_refl eq_refl eq_refl _).
  discriminate.
Defined.

(** [_resolvePublicKey] reads back what [getPublicKey_pem] wrote: given
    the PEM text of the instance's key, it hands to [importKey] exactly
    the bytes [exportKey] returned, and returns the key the provider
    makes of them (or, if the provider refuses them, throws the
    invalid-PEM error). *)
Theorem own_pem_resolves
  {P : Platform} {K : PublicKeys} (env env' : Env) (w w' : World)
  (r : RSA) (kp : KeyPair) (spki : list byte) :
  rsa (S_ w) = Some r -> key r = Some kp ->
  subtle_exportKey kp = Some spki -> spki <> [] ->
  rsa (S_ w') = Some r ->
  exists pem,
    fst (RSA.getPublicKey_pem env w) = Normal pem
    /\ RSA._resolvePublicKey (JStr pem) (JBool false) env' w'
       = (match subtle_importKey_spki (name r) (hash r) spki with
          | Some k => Normal k
          | None => Throw (Error RSA.msg_invalid_pem)
          end, w').
Proof.
  intros R Kk X NE R'. exists (pem_of spki). split.
  - now rewrite (getPublicKey_pem_run env w r kp spki R Kk X NE).
  - now apply resolve_pem.
Qed.

Lemma own_pem_resolves_witness :
  let kp := [x30; x82; x01; x22; x30; x0d; x06; x09] in
  let env := Sim.env Sim.iv0 (NetworkError JNull) in
  let w := SimKeys.with_key kp in
  exists pem,
    fst (RSA.getPublicKey_pem (P := Sim.platform) env w) = Normal pem
    /\ RSA._resolvePublicKey (K := SimKeys.public_keys) (JStr pem) (JBool false)
         env w
       = (Normal kp, w).
Proof.
  intros kp env w.
  refine (own_pem_resolves (P := Sim.platform) (K := SimKeys.public_keys)
            env env w w _ kp kp eq_refl eq_refl eq_refl _ eq_refl).
  discriminate.
Defined.

(** ** Hexadecimal text *)

Section HexFacts.
Context {P : Platform}.

Lemma hex_of_bytes_pairs (bs : list byte) :
  Encoding.hex_of_bytes bs = flat_map hex_pair bs.
Proof. reflexivity. Qed.

Lemma hex_pair_parse (b : byte) :
  RSA.to_uint8 (RSA.parseInt16 (hex_pair b)) = b.
Proof. destruct b; reflexivity. Qed.

Lemma hex_pair_not_terminator (b : byte) :
  Forall (fun c => RSA.is_line_terminator c = false) (hex_pair b).
Proof. destruct b; repeat constructor. Qed.

Lemma hex_pair_lower (b : byte) : forallb lower_hex (hex_pair b) = true.
Proof. destruct b; reflexivity. Qed.

Lemma hex_chunks_pending (bs : list byte) : forall h1 h2,
  RSA.chunks 2 (flat_map hex_pair bs) [h2; h1] 0 = [h1; h2] :: map hex_pair bs.
Proof.
  induction bs as [|b bs IH]; intros h1 h2; [reflexivity|].
  pose proof (hex_pair_not_terminator b) as T. unfold hex_pair in T |- *.
  inversion T as [|? ? T1 T']; subst. inversion T' as [|? ? T2 _]; subst.
  cbn [flat_map app RSA.chunks]. rewrite T1. cbn [Nat.pred RSA.chunks].
  rewrite T2. rewrite IH. reflexivity.
Qed.

(** [match(/.{1,2}/g)] on the hexadecimal text of a byte array gives
    the digit pairs of its bytes. *)
Lemma hex_chunks (bs : list byte) :
  bs <> [] ->
  RSA.match_chunks 2 (Encoding.hex_of_bytes bs) = Some (map hex_pair bs).
Proof.
  destruct bs as [|b bs]; [contradiction|]. intros _.
  unfold RSA.match_chunks. rewrite hex_of_bytes_pairs.
  pose proof (hex_pair_not_terminator b) as T. unfold hex_pair in T.
  inversion T as [|? ? T1 T']; subst. inversion T' as [|? ? T2 _]; subst.
  cbn [flat_map hex_pair app RSA.chunks]. rewrite T1. cbn [RSA.chunks].
  rewrite T2. rewrite hex_chunks_pending. reflexivity.
Qed.

Lemma hex_read (bs : list byte) :
  map (fun t => RSA.to_uint8 (RSA.parseInt16 t)) (map hex_pair bs) = bs.
Proof.
  rewrite map_map. induction bs as [|b bs IH]; [reflexivity|].
  cbn [map]. now rewrite hex_pair_parse, IH.
Qed.

Lemma hex_length (d : list byte) :
  List.length (Encoding.hex_of_bytes d) = (2 * List.length d)%nat.
Proof.
  rewrite hex_of_bytes_pairs.
  induction d as [|b d IH]; [reflexivity|].
  cbn [flat_map hex_pair app List.length]. rewrite IH. lia.
Qed.

Lemma hex_lower (d : list byte) :
  forallb lower_hex (Encoding.hex_of_bytes d) = true.
Proof.
  induction d as [|b d IH]; [reflexivity|].
  rewrite hex_of_bytes_pairs in *. cbn [flat_map]. rewrite forallb_app.
  now rewrite hex_pair_lower, IH.
Qed.

Lemma hex_injective (d d' : list byte) :
  Encoding.hex_of_bytes d = Encoding.hex_of_bytes d' -> d = d'.
Proof.
  revert d'. induction d as [|b d IH]; intros [|b' d'] H.
  - reflexivity.
  - discriminate.
  - discriminate.
  - rewrite !hex_of_bytes_pairs in *. cbn [flat_map hex_pair app] in H.
    injection H as H1 H2 H3.
    assert (E : hex_pair b = hex_pair b') by (unfold hex_pair; congruence).
    assert (B : b = b').
    { rewrite <- (hex_pair_parse b), <- (hex_pair_parse b'). now rewrite E. }
    subst b'. f_equal. now apply IH.
Qed.

End HexFacts.

(** The hexadecimal text of a digest.  [Eec.Hash.sha256] and
    [Eec.Hash.sha512] always return a string of digits and of letters
    from a to f (the empty string on failure); the text written for a byte
    array has two characters per byte, and two byte arrays with the same
    text are equal: the session identifier loses nothing of the digest. *)
Theorem digest_text_is_faithful
  {P : Platform} (v : JsVal) (env : Env) (w : World) :
  (exists s, fst (Eec.Hash.sha256 v env w) = Normal (JStr s)
             /\ forallb lower_hex s = true)
  /\ (exists s, fst (Eec.Hash.sha512 v env w) = Normal (JStr s)
                /\ forallb lower_hex s = true)
  /\ (forall d, List.length (Encoding.hex_of_bytes d) = (2 * List.length d)%nat)
  /\ (forall d d', Encoding.hex_of_bytes d = Encoding.hex_of_bytes d' -> d = d').
Proof.
  split; [|split; [|split; [apply hex_length | apply hex_injective]]].
  - unfold Eec.Hash.sha256. munfold.
    destruct (Encoding.TextEncoder_encode v); cbn; [|eexists; split; reflexivity].
    destruct (subtle_digest _ _); cbn; eexists; split; try reflexivity.
    apply hex_lower.
  - unfold Eec.Hash.sha512. munfold.
    destruct (Encoding.TextEncoder_encode v); cbn; [|eexists; split; reflexivity].
    destruct (subtle_digest _ _); cbn; eexists; split; try reflexivity.
    apply hex_lower.
Qed.

Lemma digest_text_is_faithful_witness :
  Encoding.hex_of_bytes [x00; xab] = lit "00ab"
  /\ [x00; xab] = [x00; xab].
Proof.
  split; [reflexivity|].
  exact (proj2 (proj2 (proj2 (digest_text_is_faithful (P := Sim.platform) JNull
                                (Sim.env Sim.iv0 (NetworkError JNull))
                                (Sim.established ""))))
           [x00; xab] [x00; xab] eq_refl).
Defined.

(** ** RSA encryption *)

Lemma Sim_rsa_inverts : rsa_inverts (P := Sim.platform) (K := SimKeys.public_keys).
Proof. intros kp n seed pt c H. cbn in *. now injection H as ->. Qed.

(** The RSA round trip.  On a provider whose RSA-OAEP decryption
    inverts its encryption, for a plaintext that is well-formed UTF-16
    and does not begin with U+FEFF: what [encrypt] returns under the
    instance's own public key, [decrypt] turns back into the plaintext,
    both for the default Base64 output read as Base64 and for the
    hexadecimal output read as hexadecimal (a ciphertext that is not empty,
    the reader finding no digit pair in the empty text). *)
Theorem rsa_round_trip
  {P : Platform} {K : PublicKeys} (seed : list byte) (p : jsstring)
  (env env' : Env) (w w' : World) (r : RSA) (kp : KeyPair) (c : list byte) :
  rsa_inverts ->
  rsa (S_ w) = Some r -> rsa (S_ w') = Some r -> key r = Some kp ->
  subtle_encrypt_rsa (name r) (publicKey kp) seed (Encoding.encode_string p)
  = Some c ->
  well_formed p = true -> begins_with_bom p = false ->
  (c <> [] ->
   exists t,
     RSA.encrypt seed (JStr p) (options (JBool true) JUndefined (JStr (lit "hex")))
       env w = (Normal t, w)
     /\ fst (RSA.decrypt (JStr t) (lit "hex") env' w') = Normal p)
  /\ (exists t,
        RSA.encrypt seed (JStr p) (options (JBool true) JUndefined JUndefined)
          env w = (Normal t, w)
        /\ fst (RSA.decrypt (JStr t) (lit "base64") env' w') = Normal p).
Proof.
  intros Inv R R' Kk E W B.
  pose proof (Inv _ _ _ _ _ E) as D.
  split.
  - intros NE. exists (Encoding.hex_of_bytes c). split.
    + exact (encrypt_own seed p (JStr (lit "hex")) env w r kp c R Kk E).
    + unfold RSA.decrypt. rewrite (bind_normal _ _ (this_run env' w' r R')).
      munfold. rewrite Kk.
      change (str_eqb (lit "hex") (lit "hex")) with true. cbv iota.
      rewrite (hex_chunks c NE), hex_read, D. cbn [fst].
      now rewrite (decode_encode_string p W B).
  - exists (Base64.encode (Encoding.fromCharCode c)). split.
    + exact (encrypt_own seed p JUndefined env w r kp c R Kk E).
    + unfold RSA.decrypt. rewrite (bind_normal _ _ (this_run env' w' r R')).
      munfold. rewrite Kk.
      change (str_eqb (lit "base64") (lit "hex")) with false. cbv iota.
      unfold Base64.atob_val. cbn [ToString].
      rewrite (atob_encode _ (bytes_small c)), bytes_of_binary_fromCharCode, D.
      cbn [fst]. now rewrite (decode_encode_string p W B).
Qed.

Lemma rsa_round_trip_witness :
  let kp := [x30; x82; x01; x22] in
  let env := Sim.env Sim.iv0 (NetworkError JNull) in
  let w := SimKeys.with_key kp in
  let p := lit "0123456789abcdef" in
  rsa_inverts (P := Sim.platform) (K := SimKeys.public_keys)
  /\ well_formed p = true /\ begins_with_bom p = false
  /\ (exists t,
        RSA.encrypt (K := SimKeys.public_keys) [] (JStr p)
          (options (JBool true) JUndefined (JStr (lit "hex"))) env w
        = (Normal t, w)
        /\ fst (RSA.decrypt (P := Sim.platform) (JStr t) (lit "hex") env w)
           = Normal p)
  /\ (exists t,
        RSA.encrypt (K := SimKeys.public_keys) [] (JStr p)
          (options (JBool true) JUndefined JUndefined) env w
        = (Normal t, w)
        /\ fst (RSA.decrypt (P := Sim.platform) (JStr t) (lit "base64") env w)
           = Normal p).
Proof.
  intros kp env w p.
  split; [exact Sim_rsa_inverts|]. split; [reflexivity|]. split; [reflexivity|].
  pose proof (rsa_round_trip (P := Sim.platform) (K := SimKeys.public_keys)
                [] p env env w w _ kp (Encoding.encode_string p)
                Sim_rsa_inverts eq_refl eq_refl eq_refl eq_refl eq_refl eq_refl)
    as T.
  split; [apply (proj1 T); discriminate | exact (proj2 T)].
Defined.

Section DecryptOptions.
Context {P : Platform}.

(** With the format given as [{ input: s }], or left out, the method is
    [decrypt] with that format. *)
Lemma decrypt_options_input cipherText (s : jsstring) env w :
  RSA.decrypt_options cipherText (JObj [(lit "input", JStr s)]) env w
  = RSA.decrypt cipherText s env w.
Proof.
  destruct (RSA.this env w) as [[r|e] w1] eqn:T.
  - assert (w1 = w) as ->.
    { revert T. unfold RSA.this. munfold. destruct (rsa (S_ w)); now intros [= _ <-]. }
    unfold RSA.decrypt_options. rewrite (bind_normal _ _ T).
    change (RSA.destructure_input (JObj [(lit "input", JStr s)]))
      with (Normal (JStr s)).
    now rewrite bind_lift_normal.
  - unfold RSA.decrypt_options, RSA.decrypt. now rewrite !(bind_throw _ _ T).
Qed.

Lemma decrypt_options_default cipherText env w :
  RSA.decrypt_options cipherText JUndefined env w
  = RSA.decrypt cipherText (lit "base64") env w.
Proof.
  destruct (RSA.this env w) as [[r|e] w1] eqn:T.
  - assert (w1 = w) as ->.
    { revert T. unfold RSA.this. munfold. destruct (rsa (S_ w)); now intros [= _ <-]. }
    unfold RSA.decrypt_options. rewrite (bind_normal _ _ T).
    change (RSA.destructure_input JUndefined) with (Normal (JStr (lit "base64"))).
    now rewrite bind_lift_normal.
  - unfold RSA.decrypt_options, RSA.decrypt. now rewrite !(bind_throw _ _ T).
Qed.

Lemma destructure_input_normal opts :
  opts <> JNull -> exists v, RSA.destructure_input opts = Normal v.
Proof.
  intros NN. destruct opts; try (eexists; reflexivity). contradiction.
Qed.

End DecryptOptions.

(** Each method of [class RSA] fails with one message.  Whatever goes
    wrong inside [init], [getPublicKey_pem], [decrypt] or [encrypt], the
    caller gets the Error of that method's [catch] block: the messages
    thrown inside ([decrypt] without a private key, [encrypt] without a
    public key or without any key source) never reach it.  The exception
    is a call of [decrypt] or of [encrypt] with [null] as options: the
    second parameter is bound before the [try] block, and both fail there
    with a TypeError.  With [{ input: s }] or no options, [decrypt] runs
    its [try] block with that format or with ['base64']. *)
Theorem rsa_failures_have_one_message
  {P : Platform} {K : PublicKeys} (env : Env) (w : World) (r : RSA) :
  rsa (S_ w) = Some r ->
  (forall e w', RSA.init env w = (Throw e, w') -> e = Error RSA.msg_keygen_failed)
  /\ (forall e w', RSA.getPublicKey_pem env w = (Throw e, w') ->
                   e = Error RSA.msg_export_failed)
  /\ (forall cipherText opts e w',
        opts <> JNull ->
        RSA.decrypt_options cipherText opts env w = (Throw e, w') ->
        e = Error RSA.msg_decrypt_failed)
  /\ (forall seed plainText opts e w',
        opts <> JNull ->
        RSA.encrypt seed plainText opts env w = (Throw e, w') ->
        e = Error RSA.msg_encrypt_failed)
  /\ (key r = None ->
      forall cipherText opts seed plainText pem out,
        opts <> JNull ->
        RSA.decrypt_options cipherText opts env w
        = (Throw (Error RSA.msg_decrypt_failed), w)
        /\ RSA.encrypt seed plainText (options (JBool true) pem out) env w
           = (Throw (Error RSA.msg_encrypt_failed), w))
  /\ (forall seed plainText out,
        RSA.encrypt seed plainText (options JUndefined JUndefined out) env w
        = (Throw (Error RSA.msg_encrypt_failed), w))
  /\ (forall seed plainText cipherText,
        exists m m',
          RSA.encrypt seed plainText JNull env w = (Throw (TypeError m), w)
          /\ RSA.decrypt_options cipherText JNull env w = (Throw (TypeError m'), w))
  /\ (forall cipherText s,
        RSA.decrypt_options cipherText (JObj [(lit "input", JStr s)]) env w
        = RSA.decrypt cipherText s env w)
  /\ (forall cipherText,
        RSA.decrypt_options cipherText JUndefined env w
        = RSA.decrypt cipherText (lit "base64") env w).
Proof.
  intros R.
  assert (D : forall ct opts, opts <> JNull ->
                exists s, RSA.decrypt_options ct opts env w = RSA.decrypt ct s env w).
  { intros ct opts NN. destruct (destructure_input_normal opts NN) as [v Hv].
    unfold RSA.decrypt_options.
    rewrite (bind_normal _ _ (this_run env w r R)), Hv, bind_lift_normal.
    eauto. }
  split; [|split; [|split; [|split; [|split; [|split; [|split; [|split]]]]]]].
  - intros e w'. unfold RSA.init. rewrite (bind_normal _ _ (this_run env w r R)).
    apply catch_rethrow.
  - intros e w'. unfold RSA.getPublicKey_pem.
    rewrite (bind_normal _ _ (this_run env w r R)). apply catch_rethrow.
  - intros ct opts e w' NN. destruct (D ct opts NN) as [s ->].
    unfold RSA.decrypt.
    rewrite (bind_normal _ _ (this_run env w r R)). apply catch_rethrow.
  - intros seed pt opts e w' NN. unfold RSA.encrypt.
    rewrite (bind_normal _ _ (this_run env w r R)).
    assert (D' : exists o, RSA.destructure opts = Normal o).
    { destruct opts; try (eexists; reflexivity). contradiction. }
    destruct D' as [o ->]. rewrite bind_lift_normal. apply catch_rethrow.
  - intros Kn ct opts seed pt pem out NN. split.
    + destruct (D ct opts NN) as [s ->].
      unfold RSA.decrypt. rewrite (bind_normal _ _ (this_run env w r R)).
      munfold. now rewrite Kn.
    + unfold RSA.encrypt. rewrite (bind_normal _ _ (this_run env w r R)).
      rewrite destructure_options, bind_lift_normal.
      cbn [RSA.PublicKey_pem RSA.use_myPublicKey RSA.output or_default].
      unfold RSA._resolvePublicKey at 1.
      unfold try_catch, bind at 1. unfold bind at 1.
      rewrite (this_run env w r R). cbn [truthy]. now rewrite Kn.
  - intros seed pt out. unfold RSA.encrypt.
    rewrite (bind_normal _ _ (this_run env w r R)).
    rewrite destructure_options, bind_lift_normal.
    cbn [RSA.PublicKey_pem RSA.use_myPublicKey RSA.output or_default].
    unfold RSA._resolvePublicKey at 1.
    unfold try_catch, bind at 1. unfold bind at 1.
    rewrite (this_run env w r R). reflexivity.
  - intros seed pt ct. eexists _, _. split.
    + unfold RSA.encrypt.
      rewrite (bind_normal _ _ (this_run env w r R)). reflexivity.
    + unfold RSA.decrypt_options.
      rewrite (bind_normal _ _ (this_run env w r R)). reflexivity.
  - intros ct s. apply decrypt_options_input.
  - intros ct. apply decrypt_options_default.
Qed.

Lemma rsa_failures_have_one_message_witness :
  let env := Sim.env Sim.iv0 (NetworkError JNull) in
  let w := {| S_ := {| rsa := Some (RSA.new (P := Sim.platform));
                       aes_key := JNull; pubPem := JNull; session_user := JNull |};
              events := [] |} in
  RSA.decrypt_options (P := Sim.platform) (JStr (lit "00"))
    (JObj [(lit "input", JStr (lit "hex"))]) env w
  = (Throw (Error RSA.msg_decrypt_failed), w)
  /\ RSA.encrypt (K := SimKeys.public_keys) [] (JStr (lit "hi"))
       (options (JBool true) JUndefined JUndefined) env w
     = (Throw (Error RSA.msg_encrypt_failed), w)
  /\ RSA.encrypt (K := SimKeys.public_keys) [] (JStr (lit "hi"))
       (options JUndefined JUndefined JUndefined) env w
     = (Throw (Error RSA.msg_encrypt_failed), w)
  /\ exists m m',
       RSA.encrypt (K := SimKeys.public_keys) [] (JStr (lit "hi")) JNull env w
       = (Throw (TypeError m), w)
       /\ RSA.decrypt_options (P := Sim.platform) (JStr (lit "00")) JNull env w
          = (Throw (TypeError m'), w).
Proof.
  intros env w.
  pose proof (rsa_failures_have_one_message (P := Sim.platform)
                (K := SimKeys.public_keys) env w RSA.new eq_refl) as T.
  destruct T as (_ & _ & _ & _ & T5 & T6 & T7 & _).
  assert (NN : JObj [(lit "input", JStr (lit "hex"))] <> JNull) by discriminate.
  split; [exact (proj1 (T5 eq_refl (JStr (lit "00")) _ []
                          (JStr (lit "hi")) JUndefined JUndefined NN))|].
  split; [exact (proj2 (T5 eq_refl (JStr (lit "00")) _ []
                          (JStr (lit "hi")) JUndefined JUndefined NN))|].
  split; [exact (T6 [] (JStr (lit "hi")) JUndefined)|].
  exact (T7 [] (JStr (lit "hi")) (JStr (lit "00"))).
Defined.

(** ** From the handshake to the first request *)

Section Pipeline.
Context {P : Platform}.

(** A handshake answered with the hexadecimal text of a ciphertext. *)
Lemma handshake_run env w kp spki status result ct pt :
  generated env = Some kp ->
  subtle_exportKey kp = Some spki -> spki <> [] ->
  (forall req, server env req = Response true status (Normal result)) ->
  get result (lit "data") = Normal (JStr (Encoding.hex_of_bytes ct)) ->
  ct <> [] -> subtle_decrypt_rsa kp ct = Some pt ->
  exists evs,
    Res.rs.work env w
    = (Normal (JBool true),
       {| S_ := set_aes_key (JStr (Encoding.TextDecoder_decode pt))
                  (after_export (S_ w) kp spki);
          events := events w ++ evs |}).
Proof.
  intros G X NE Sv Gd C D. unfold Res.rs.work, try_catch.
  rewrite (rs_work_body_to_fetch env w kp spki G X NE), Sv.
  unfold Res.rs.install. cbn [negb]. munfold. rewrite Gd.
  assert (D' : subtle_decrypt_rsa kp
                 (map (fun b => RSA.to_uint8 (RSA.parseInt16 b)) (map hex_pair ct))
               = Some pt) by (now rewrite hex_read).
  match goal with
  | |- context [RSA.decrypt _ _ env ?w1] =>
      destruct (rsa_decrypt_hex env w1 _ kp _ _ pt eq_refl eq_refl
                  (hex_chunks ct C) D') as (evs & ->)
  end.
  cbn [S_ events]. eexists. rewrite <- app_assoc. reflexivity.
Qed.

(** The [fetch] of a call made with a usable key. *)
Lemma send_encrypted c operate args message env env' w w' k t1 :
  imports k -> gcm_inverts ->
  aes_key (S_ w) = JStr k -> legal_length (key_length k) ->
  (c = Copy1 -> truthy (session_user (S_ w)) = true) ->
  List.length (random_iv env) = 12%nat ->
  JSON_stringify
    (JObj [(lit "operate", operate);
           (lit "args", Res.api.default_arg args (JObj []))]) = Some t1 ->
  well_formed t1 = true -> begins_with_bom t1 = false ->
  (forall content, exists t2,
     JSON_stringify
       (JObj [(lit "message", Res.api.default_arg message (JStr []));
              (lit "compression", JBool false);
              (lit "algorithm", JStr []);
              (lit "content", content)]) = Some t2) ->
  exists data iv tag t2 evs,
    Res.api.send c operate (Res.api.default_arg args (JObj []))
      (Res.api.default_arg JUndefined (JStr []))
      (Res.api.default_arg message (JStr [])) env w
    = (let req := {| url := lit "/api"; method := lit "POST";
                     headers := [(lit "Content-Type", JStr (lit "application/json"));
                                 (lit "session_user", sha256_hex (JStr k))];
                     credentials := Some (lit "include");
                     body := Text t2 |} in
       (Normal (server env req),
        {| S_ := set_session_user (sha256_hex (JStr k)) (S_ w);
           events := (events w ++ evs) ++ [EvFetch req] |}))
    /\ fetches evs = []
    /\ JSON_stringify
         (JObj [(lit "message", Res.api.default_arg message (JStr []));
                (lit "compression", JBool false);
                (lit "algorithm", JStr []);
                (lit "content",
                 JObj [(lit "iv", iv); (lit "data", data); (lit "tag", tag)])])
       = Some t2
    /\ fst (Eec.Aes.Gcm.decryptStr data iv tag (JStr k) env' w')
       = Normal (JStr t1).
Proof.
  intros Imp Inv K L C1 IV S1 W B S2.
  assert (Lk : k <> []).
  { intros ->. destruct L as [L | [L | L]]; discriminate L. }
  assert (T : truthy (aes_key (S_ w)) = true).
  { rewrite K. destruct k; [contradiction | reflexivity]. }
  assert (C : Res.api.check c env w = (Normal tt, w)).
  { destruct c; [apply check_passes_copy1; auto | now apply check_passes_copy2]. }
  destruct (encryptStr_blob k t1 env w env' w' Imp Inv L IV)
    as (data & iv & tag & e1 & Ee & F1 & D).
  rewrite (decode_encode_string t1 W B) in D.
  destruct (S2 (JObj [(lit "iv", iv); (lit "data", data); (lit "tag", tag)]))
    as [t2 St2].
  destruct (sha256_run (JStr k) env {| S_ := S_ w; events := events w ++ e1 |})
    as (e2 & Hh & F2).
  exists data, iv, tag, t2, (e1 ++ e2).
  split; [|split; [now rewrite fetches_app, F1, F2 | split; [exact St2 | exact D]]].
  unfold Res.api.send. rewrite (bind_normal _ _ C).
  unfold Res.api.stringify. rewrite S1. cbn [Res.api.default_arg truthy negb].
  munfold. rewrite K, Ee.
  cbn [Res.api.not_empty_string]. rewrite St2. cbn [S_ aes_key].
  rewrite K, Hh. cbn [S_ events]. rewrite !app_assoc. reflexivity.
Qed.

End Pipeline.

(** From the handshake to the first request.  Assume that the key pair
    is generated and exported (to at least one byte); that the server
    answers the handshake with the hexadecimal text of a ciphertext, not
    empty, that the private key decrypts to the UTF-8 bytes of [k], a
    well-formed string of legal length that does not begin with U+FEFF;
    that the provider imports [k] as an AES-GCM key and its decryption
    inverts its encryption under the 12-byte IV drawn; and that
    [JSON.stringify] serialises [{ operate, args }] (to a well-formed
    text) and the envelope.  Then the handshake returns [true] with [k]
    in [S.aes_key], and the first call made then (second copy of [Res])
    sends one request, with the hash of [k] as [session_user] and a
    [content] that decrypts under [k] to the serialisation of
    [{ operate, args }]. *)
Theorem handshake_key_encrypts_first_request
  {P : Platform} (operate args message : JsVal) (env env1 env' : Env)
  (w w' : World) (kp : KeyPair) (spki ct : list byte) (status : Z)
  (result : JsVal) (k t1 : jsstring) :
  imports k -> gcm_inverts ->
  generated env = Some kp ->
  subtle_exportKey kp = Some spki -> spki <> [] ->
  (forall req, server env req = Response true status (Normal result)) ->
  get result (lit "data") = Normal (JStr (Encoding.hex_of_bytes ct)) ->
  ct <> [] -> subtle_decrypt_rsa kp ct = Some (Encoding.encode_string k) ->
  well_formed k = true -> begins_with_bom k = false ->
  legal_length (key_length k) ->
  List.length (random_iv env1) = 12%nat ->
  JSON_stringify
    (JObj [(lit "operate", operate);
           (lit "args", Res.api.default_arg args (JObj []))]) = Some t1 ->
  well_formed t1 = true -> begins_with_bom t1 = false ->
  (forall content, exists t2,
     JSON_stringify
       (JObj [(lit "message", Res.api.default_arg message (JStr []));
              (lit "compression", JBool false);
              (lit "algorithm", JStr []);
              (lit "content", content)]) = Some t2) ->
  exists w1,
    Res.rs.work env w = (Normal (JBool true), w1)
    /\ aes_key (S_ w1) = JStr k
    /\ exists req data iv tag t2,
         fetches (added w1 (snd (Res.api.work Copy2 operate args JUndefined
                                   message env1 w1)))
         = [req]
         /\ header (lit "session_user") req = Some (sha256_hex (JStr k))
         /\ body req = Text t2
         /\ JSON_stringify
              (JObj [(lit "message", Res.api.default_arg message (JStr []));
                     (lit "compression", JBool false);
                     (lit "algorithm", JStr []);
                     (lit "content",
                      JObj [(lit "iv", iv); (lit "data", data); (lit "tag", tag)])])
            = Some t2
         /\ fst (Eec.Aes.Gcm.decryptStr data iv tag (JStr k) env' w')
            = Normal (JStr t1).
Proof.
  intros Imp Inv G X NE Sv Gd C D Wk Bk L IV S1 W B S2.
  destruct (handshake_run env w kp spki status result ct _ G X NE Sv Gd C D)
    as (evs & Hr).
  rewrite (decode_encode_string k Wk Bk) in Hr.
  match type of Hr with
  | _ = (_, ?x) => remember x as w1 eqn:Ew1
  end.
  assert (K1 : aes_key (S_ w1) = JStr k) by (rewrite Ew1; reflexivity).
  clear Ew1. exists w1. split; [exact Hr|]. split; [exact K1|].
  destruct (send_encrypted Copy2 operate args message env1 env' w1 w' k t1
              Imp Inv K1 L ltac:(discriminate) IV S1 W B S2)
    as (data & iv & tag & t2 & e1 & Es & F1 & St & Dd).
  cbv zeta in Es.
  unfold Res.api.work, Res.api.work_body.
  rewrite (catch_bind_normal _ _ _ Es).
  match goal with
  | |- context [try_catch _ _ env1 ?w2] =>
      match goal with
      | |- context [server env1 ?req] =>
          destruct (after_send Copy2 (server env1 req) env1 w2)
            as (r & s' & ev2 & -> & F & _)
      end
  end.
  eexists. exists data, iv, tag, t2. cbn [snd events].
  rewrite <- !app_assoc, added_app.
  rewrite !fetches_app, F1, F. cbn. auto.
Qed.

Lemma handshake_key_encrypts_first_request_witness :
  let k := lit "0123456789abcdef" in
  let ct := Encoding.encode_string k in
  let reply := Response true 200
                 (Normal (JObj [(lit "data", JStr (Encoding.hex_of_bytes ct))])) in
  let env := Sim.env Sim.iv0 reply in
  let w := {| S_ := State_new; events := [] |} in
  let t1 := Sim.write (JObj [(lit "operate", JStr (lit "get_user"));
                             (lit "args", JObj [])]) in
  legal_length (key_length k)
  /\ exists w1,
       Res.rs.work (P := Sim.platform) env w = (Normal (JBool true), w1)
       /\ aes_key (S_ w1) = JStr k
       /\ exists req data iv tag t2,
            fetches (added w1 (snd (Res.api.work (P := Sim.platform) Copy2
                                      (JStr (lit "get_user")) (JObj [])
                                      JUndefined JUndefined env w1)))
            = [req]
            /\ header (lit "session_user") req
               = Some (sha256_hex (P := Sim.platform) (JStr k))
            /\ body req = Text t2
            /\ JSON_stringify (Platform := Sim.platform)
                 (JObj [(lit "message", JStr []);
                        (lit "compression", JBool false);
                        (lit "algorithm", JStr []);
                        (lit "content",
                         JObj [(lit "iv", iv); (lit "data", data);
                               (lit "tag", tag)])])
               = Some t2
            /\ fst (Eec.Aes.Gcm.decryptStr (P := Sim.platform) data iv tag
                      (JStr k) env w)
               = Normal (JStr t1).
Proof.
  intros k ct reply env w t1.
  assert (K : legal_length (key_length k)) by (left; reflexivity).
  split; [exact K|].
  refine (handshake_key_encrypts_first_request (P := Sim.platform)
            (JStr (lit "get_user")) (JObj []) JUndefined env env env w w
            [x01; x02; x03] [x01; x02; x03] ct 200 _ k t1
            (legal_key_imports k Sim_imports K) Sim_inverts eq_refl eq_refl _ (fun _ => eq_refl) eq_refl
            _ eq_refl eq_refl eq_refl K eq_refl eq_refl eq_refl eq_refl _).
  - discriminate.
  - discriminate.
  - intros content. eexists. reflexivity.
Defined.
